(** * The CROWler rules converters: normalisation and category bucketing

    A shallow embedding of the five converters of the repository
    (each one a [package main] of its own):

    - [TechJSON]    : cmd/convertTechJSON/main.go (static category table);
    - [CatTechJSON] : the converter that reads the category names from its
                      input document (same record shape as [TechJSON]);
    - [BuiltWith]   : the BuiltWith-style JSON converter;
    - [Favicon]     : the favicon MD5 CSV converter;
    - [ModSecurity] : cmd/convertModSecurity/main.go.

    Go maps that the code ranges over are lists of entries in the order the
    [range] statement visits them (Go leaves that order unspecified, so the
    theorems quantify over it); maps that are only looked up and updated by
    key are [gmap]s.  A Go [string] is a byte string, here [string]. *)

From Stdlib Require Import ZArith Ascii String Bool Lia.
From stdpp Require Import base option list gmap strings.

Local Open Scope Z_scope.

(** ** The Go library functions the converters call *)

Module GoStrings.

(** The double quote, which the sources write as an escape. *)
Definition dquote : ascii := "034"%char.
Definition squote : ascii := "039"%char.
Definition backslash : ascii := "092"%char.
Definition percent : ascii := "037"%char.
Definition CR : ascii := "013"%char.

Definition str1 (c : ascii) : string := String c EmptyString.

(** [strings.ToLower] on an ASCII string, where Go works byte by byte:
    'A'..'Z' go to 'a'..'z'.  On a string with a byte from 128 on Go maps
    [unicode.ToLower] over the runes instead, lowering the letters of other
    scripts and replacing invalid UTF-8; this definition keeps such bytes,
    so beyond ASCII it is not the library's function.  Only the [RuleName]
    of a rule goes through it: the properties below that spell out a
    [RuleName] do so for a concrete ASCII name or under the hypothesis that
    the name is ASCII. *)
Definition lowerByte (c : ascii) : ascii :=
  let n := nat_of_ascii c in
  if ((65 <=? n) && (n <=? 90))%nat then ascii_of_nat (n + 32) else c.

Fixpoint ToLower (s : string) : string :=
  match s with
  | EmptyString => EmptyString
  | String c s' => String (lowerByte c) (ToLower s')
  end.

(** [strings.HasPrefix s prefix]. *)
Definition HasPrefix (s prefix : string) : bool := String.prefix prefix s.

(** The rest of [s] after [prefix], when [s] starts with it. *)
Fixpoint stripPrefix (prefix s : string) : option string :=
  match prefix, s with
  | EmptyString, _ => Some s
  | String a p', String b s' =>
      if Ascii.eqb a b then stripPrefix p' s' else None
  | String _ _, EmptyString => None
  end.

(** [strings.ReplaceAll s old new] for a non-empty [old]: the occurrences of
    [old] are replaced from left to right, without overlap.  [skip] counts
    the bytes of a replaced occurrence that are still to be dropped. *)
Fixpoint replaceFrom (old new : string) (skip : nat) (s : string) : string :=
  match s with
  | EmptyString => EmptyString
  | String c s' =>
      match skip with
      | S k => replaceFrom old new k s'
      | O =>
          if String.prefix old s
          then new +:+ replaceFrom old new (String.length old - 1) s'
          else String c (replaceFrom old new O s')
      end
  end.

Definition ReplaceAll (s old new : string) : string := replaceFrom old new O s.

(** [strings.Trim s cutset] for a cutset of ASCII bytes: the leading and the
    trailing bytes that occur in [cutset] are removed. *)
Fixpoint inCutset (cutset : string) (c : ascii) : bool :=
  match cutset with
  | EmptyString => false
  | String d cutset' => Ascii.eqb c d || inCutset cutset' c
  end.

Fixpoint TrimLeft (s cutset : string) : string :=
  match s with
  | EmptyString => EmptyString
  | String c s' => if inCutset cutset c then TrimLeft s' cutset else s
  end.

Fixpoint TrimRight (s cutset : string) : string :=
  match s with
  | EmptyString => EmptyString
  | String c s' =>
      match TrimRight s' cutset with
      | EmptyString => if inCutset cutset c then EmptyString else str1 c
      | t => String c t
      end
  end.

Definition Trim (s cutset : string) : string := TrimRight (TrimLeft s cutset) cutset.

(** [fmt.Sprintf format args...] with string operands, for the verbs [%s]
    and [%%].  [None] stands for every format outside this fragment (another
    verb, a missing or a spare operand), where Go prints a diagnostic
    inside the result. *)
Fixpoint Sprintf (format : string) (args : list string) : option string :=
  match format with
  | EmptyString => match args with [] => Some EmptyString | _ :: _ => None end
  | String c rest =>
      if Ascii.eqb c percent then
        match rest with
        | String v rest' =>
            if Ascii.eqb v "s"%char then
              match args with
              | a :: args' => (fun r => a +:+ r) <$> Sprintf rest' args'
              | [] => None
              end
            else if Ascii.eqb v percent then String percent <$> Sprintf rest' args
            else None
        | EmptyString => None
        end
      else String c <$> Sprintf rest args
  end.

(** Whether a byte occurs in a string. *)
Fixpoint hasByte (c : ascii) (s : string) : bool :=
  match s with
  | EmptyString => false
  | String d s' => Ascii.eqb c d || hasByte c s'
  end.

(** The bytes of [s], each one through [f]. *)
Fixpoint mapBytes (f : ascii -> ascii) (s : string) : string :=
  match s with
  | EmptyString => EmptyString
  | String c s' => String (f c) (mapBytes f s')
  end.

End GoStrings.

Import GoStrings.

(** ** The ruleset schema

    Every converter declares the same [Ruleset], [RuleGroup], header-field,
    meta-tag, SSL and URL structs; they are written once here, the first two
    over the converter's own [DetectionRule].  The confidence fields are
    [int] or [float32] in Go and only ever hold the literal 10. *)

Module HTTPHeaderField.
Record t := mk { Key : string; Value : list string; Confidence : Z }.
End HTTPHeaderField.

Module SSLSignature.
Record t := mk { Key : string; Value : list string; Confidence : Z }.
End SSLSignature.

Module MetaTag.
Record t := mk { Name : string; Content : list string; Confidence : Z }.
End MetaTag.

Module PageContentSignature.
Record t := mk {
  Key : string;
  Attribute : string;
  Signature : list string;
  Text : list string;
  Confidence : Z
}.
End PageContentSignature.

Module URLMicroSignature.
Record t := mk { Signature : string; Confidence : Z }.
End URLMicroSignature.

Module RuleGroup.
Record t (R : Type) := mk {
  GroupName : string;
  IsEnabled : bool;
  DetectionRules : list R
}.
Arguments mk {R}.
Arguments GroupName {R}.
Arguments IsEnabled {R}.
Arguments DetectionRules {R}.
End RuleGroup.

Module Ruleset.
Record t (R : Type) := mk {
  RulesetName : string;
  FormatVersion : string;
  Author : string;
  CreatedAt : string;
  Description : string;
  RuleGroups : list (RuleGroup.t R)
}.
Arguments mk {R}.
Arguments RulesetName {R}.
Arguments FormatVersion {R}.
Arguments Author {R}.
Arguments CreatedAt {R}.
Arguments Description {R}.
Arguments RuleGroups {R}.

(** The zero value, which a Go map lookup returns for an absent key. *)
Definition zero {R} : t R := mk EmptyString EmptyString EmptyString EmptyString EmptyString [].
End Ruleset.

(** ** Appending to the first rule group, and the category bucketer

    [ruleset.RuleGroups[0].DetectionRules = append(..., rule)]: Go panics
    with an index out of range when the ruleset has no group; [None] is that
    panic. *)
Definition appendRule {R} (ruleset : Ruleset.t R) (rule : R) : option (Ruleset.t R) :=
  match Ruleset.RuleGroups ruleset with
  | [] => None
  | g :: gs =>
      Some (Ruleset.mk
              (Ruleset.RulesetName ruleset) (Ruleset.FormatVersion ruleset)
              (Ruleset.Author ruleset) (Ruleset.CreatedAt ruleset)
              (Ruleset.Description ruleset)
              (RuleGroup.mk (RuleGroup.GroupName g) (RuleGroup.IsEnabled g)
                 (RuleGroup.DetectionRules g ++ [rule]) :: gs))
  end.

(** [for scanner.Scan() { line := scanner.Text(); ... }] of the two
    single-bucket converters, over the lines the scanner yields; [scanLine]
    is the body of the loop. *)
Fixpoint scanLoop {R} (scanLine : Ruleset.t R -> string -> option (Ruleset.t R))
  (ruleset : Ruleset.t R) (lines : list string) : option (Ruleset.t R) :=
  match lines with
  | [] => Some ruleset
  | line :: lines' => ruleset' ← scanLine ruleset line; scanLoop scanLine ruleset' lines'
  end.

(** The three multi-bucket converters run the same loop in [main]; they
    differ in how a category code is resolved ([resolve]: the table lookup
    with its [exists] flag), in the ruleset built at a bucket's first use
    ([newRuleset]) and in the record and rule types. *)
Module Bucket.
Section Bucketer.
Context {Cat Details R : Type}.
Variable resolve : Cat -> option string.
Variable newRuleset : string -> Ruleset.t R.
Variable createRule : string -> Details -> R.
Variable cats : Details -> list Cat.

(** The body of [for _, cat := range details.Cats]:
    [category, exists := table[cat]; if !exists { continue }], then
    [if _, ok := rulesets[category]; !ok { rulesets[category] = Ruleset{...} }],
    then [ruleset := rulesets[category]] (the zero value for an absent key),
    the append to [ruleset.RuleGroups[0].DetectionRules], and
    [rulesets[category] = ruleset]. *)
Definition bucketCat (rule : R) (rulesets : gmap string (Ruleset.t R)) (cat : Cat)
  : option (gmap string (Ruleset.t R)) :=
  match resolve cat with
  | None => Some rulesets
  | Some category =>
      let rulesets :=
        match rulesets !! category with
        | Some _ => rulesets
        | None => <[category := newRuleset category]> rulesets
        end in
      let ruleset := default Ruleset.zero (rulesets !! category) in
      ruleset' ← appendRule ruleset rule;
      Some (<[category := ruleset']> rulesets)
  end.

Fixpoint bucketCats (rule : R) (rulesets : gmap string (Ruleset.t R)) (cs : list Cat)
  : option (gmap string (Ruleset.t R)) :=
  match cs with
  | [] => Some rulesets
  | cat :: cs' => rulesets' ← bucketCat rule rulesets cat; bucketCats rule rulesets' cs'
  end.

(** The body of [for name, details := range technologies.Technologies]. *)
Definition bucketTech (rulesets : gmap string (Ruleset.t R)) (tech : string * Details)
  : option (gmap string (Ruleset.t R)) :=
  let rule := createRule tech.1 tech.2 in
  bucketCats rule rulesets (cats tech.2).

Fixpoint bucketLoop (rulesets : gmap string (Ruleset.t R)) (techs : list (string * Details))
  : option (gmap string (Ruleset.t R)) :=
  match techs with
  | [] => Some rulesets
  | tech :: techs' => rulesets' ← bucketTech rulesets tech; bucketLoop rulesets' techs'
  end.

(** [rulesets := make(map[string]Ruleset)], then the loop. *)
Definition bucketAll (techs : list (string * Details)) : option (gmap string (Ruleset.t R)) :=
  bucketLoop ∅ techs.

End Bucketer.
End Bucket.

(** ** The technologies.json record, shared by [TechJSON] and [CatTechJSON]

    [Meta] is an [interface{}]: [Any] lists the dynamic types the type
    switches of [createRule] tell apart.  [encoding/json] produces the first
    six; [AMapString] is the [map[string]string] the switch also has a case
    for.  A number carries its JSON text, which the converters never read. *)

#[local] Set Warnings "-register-all".

Inductive Any : Type :=
  | ANil
  | ABool (b : bool)
  | AFloat64 (literal : string)
  | AString (s : string)
  | ASlice (items : list Any)
  | AMap (entries : list (string * Any))
  | AMapString (entries : list (string * string)).

Module Technology.
Record t := mk {
  Cats : list string;
  Cookies : list (string * string);
  Headers : list (string * string);
  Meta : Any;
  Html : list string;
  Scripts : list string;
  URL : list string;
  Website : string;
  Implies : list string
}.
End Technology.

Module DetectionRule.
Record t := mk {
  RuleName : string;
  ObjectName : string;
  Implies : list string;
  HTTPHeaderFields : list HTTPHeaderField.t;
  MetaTags : list MetaTag.t;
  PageContentPatterns : list PageContentSignature.t;
  SSLSignatures : list SSLSignature.t;
  URLPatterns : list URLMicroSignature.t
}.

(** [rule.F = append(rule.F, x)] for each signature list. *)
Definition appendHTTPHeaderField (rule : t) (x : HTTPHeaderField.t) : t :=
  mk (RuleName rule) (ObjectName rule) (Implies rule)
     (HTTPHeaderFields rule ++ [x]) (MetaTags rule) (PageContentPatterns rule)
     (SSLSignatures rule) (URLPatterns rule).

Definition appendMetaTag (rule : t) (x : MetaTag.t) : t :=
  mk (RuleName rule) (ObjectName rule) (Implies rule)
     (HTTPHeaderFields rule) (MetaTags rule ++ [x]) (PageContentPatterns rule)
     (SSLSignatures rule) (URLPatterns rule).

Definition appendPageContentPattern (rule : t) (x : PageContentSignature.t) : t :=
  mk (RuleName rule) (ObjectName rule) (Implies rule)
     (HTTPHeaderFields rule) (MetaTags rule) (PageContentPatterns rule ++ [x])
     (SSLSignatures rule) (URLPatterns rule).

Definition appendURLPattern (rule : t) (x : URLMicroSignature.t) : t :=
  mk (RuleName rule) (ObjectName rule) (Implies rule)
     (HTTPHeaderFields rule) (MetaTags rule) (PageContentPatterns rule)
     (SSLSignatures rule) (URLPatterns rule ++ [x]).
End DetectionRule.

(** The blocks of [createRule] that the two technologies.json converters
    have word for word in common, each one a loop that appends to [rule]. *)
Module TechRule.
Import DetectionRule.

(** [DetectionRule{RuleName: ..., ObjectName: name, Implies: details.Implies}] *)
Definition initial (name : string) (details : Technology.t) : DetectionRule.t :=
  DetectionRule.mk
    ("detect_" +:+ ToLower (ReplaceAll name " " "_")) name (Technology.Implies details)
    [] [] [] [] [].

(** [for k, v := range details.Headers] and the same loop over the cookies *)
Definition rangeHeaderFields (entries : list (string * string)) (rule : DetectionRule.t)
  : DetectionRule.t :=
  foldl (fun rule kv => appendHTTPHeaderField rule (HTTPHeaderField.mk kv.1 [kv.2] 10))
        rule entries.

(** [for _, item := range val { if str, ok := item.(string); ok {...} }] *)
Definition stringItems (val : list Any) : list string :=
  omap (fun item => match item with AString str => Some str | _ => None end) val.

(** The inner type switch, on one entry of a [map[string]interface{}]. *)
Definition metaEntry (rule : DetectionRule.t) (kv : string * Any) : DetectionRule.t :=
  match kv.2 with
  | AString val => appendMetaTag rule (MetaTag.mk kv.1 [val] 10)
  | ASlice val => appendMetaTag rule (MetaTag.mk kv.1 (stringItems val) 10)
  | _ => rule
  end.

(** [if details.Meta != nil { switch meta := details.Meta.(type) {...} }] *)
Definition switchMeta (meta : Any) (rule : DetectionRule.t) : DetectionRule.t :=
  match meta with
  | ANil => rule
  | AMap entries => foldl metaEntry rule entries
  | AMapString entries =>
      foldl (fun rule kv => appendMetaTag rule (MetaTag.mk kv.1 [kv.2] 10)) rule entries
  | ASlice _ => rule
  | _ => rule
  end.

(** [for _, v := range details.Html] with key "html", and the scripts with
    key "script" *)
Definition rangePatterns (key : string) (vs : list string) (rule : DetectionRule.t)
  : DetectionRule.t :=
  foldl (fun rule v =>
           appendPageContentPattern rule
             (PageContentSignature.mk key EmptyString [v] [] 10))
        rule vs.

(** [for _, v := range details.URL] *)
Definition rangeURL (vs : list string) (rule : DetectionRule.t) : DetectionRule.t :=
  foldl (fun rule v => appendURLPattern rule (URLMicroSignature.mk v 10)) rule vs.

(** Everything of [createRule] before [if details.Website != ""]. *)
Definition beforeWebsite (name : string) (details : Technology.t) : DetectionRule.t :=
  let rule := initial name details in
  let rule := rangeHeaderFields (Technology.Headers details) rule in
  let rule := rangeHeaderFields (Technology.Cookies details) rule in
  let rule := switchMeta (Technology.Meta details) rule in
  let rule := rangePatterns "html" (Technology.Html details) rule in
  let rule := rangePatterns "script" (Technology.Scripts details) rule in
  rangeURL (Technology.URL details) rule.

End TechRule.

(** ** cmd/convertTechJSON/main.go *)
Module TechJSON.
Import DetectionRule.

Definition categoryMappings : gmap string string :=
  list_to_map [
    ("1", "cms"); ("3", "web_frameworks"); ("4", "documentation"); ("5", "widgets");
    ("6", "ecommerce"); ("8", "miscellaneous"); ("9", "payment_processors");
    ("10", "analytics"); ("11", "blogging_platforms"); ("12", "javascript_frameworks");
    ("13", "advertising"); ("14", "video_players"); ("15", "captchas");
    ("16", "security"); ("17", "databases"); ("18", "web_frameworks");
    ("19", "javascript_libraries"); ("20", "editors");
    ("21", "learning_management_systems"); ("22", "web_servers");
    ("23", "search_engines"); ("24", "development"); ("25", "augmented_reality");
    ("26", "file_sharing"); ("27", "rich_media"); ("28", "operating_systems");
    ("29", "search_engines"); ("30", "load_balancers"); ("31", "cdns");
    ("32", "marketing_automation"); ("33", "crm"); ("34", "tag_managers");
    ("35", "translation_tools"); ("36", "advertising_networks");
    ("41", "payment_processors"); ("42", "tag_managers"); ("44", "personalization");
    ("46", "dmps"); ("47", "cloud_platforms"); ("48", "testing_tools");
    ("49", "static_site_generators"); ("50", "feedback_and_surveys");
    ("51", "portfolio_builders"); ("52", "live_chat");
    ("53", "document_management_systems"); ("54", "seo"); ("55", "accounting");
    ("56", "ssl_certificates"); ("57", "container_platforms"); ("58", "voice_platforms");
    ("59", "animation_libraries"); ("60", "calendar"); ("62", "cloud_platforms");
    ("63", "storage"); ("64", "dns"); ("65", "audio_libraries"); ("66", "performance");
    ("67", "consent_management"); ("68", "accessibility"); ("69", "identity_management");
    ("70", "certificates"); ("71", "affiliate_programs"); ("72", "scheduling");
    ("73", "page_builders"); ("74", "a_b_testing"); ("75", "email_marketing");
    ("76", "personalization"); ("77", "dmps"); ("78", "performance");
    ("79", "anti_tracking"); ("80", "themes"); ("83", "cryptominers");
    ("84", "data_management_platforms"); ("85", "media_servers");
    ("86", "customer_data_platforms"); ("87", "wordpress_plugins"); ("88", "web_hosting");
    ("89", "learning_management_systems"); ("90", "reviews"); ("91", "buy_now_pay_later");
    ("92", "page_speed_optimizers"); ("93", "business_intelligence"); ("94", "referrals");
    ("95", "digital_asset_management"); ("96", "webmail");
    ("97", "customer_data_platforms"); ("98", "container_management");
    ("99", "performance_monitoring"); ("100", "form_builders"); ("101", "documentation");
    ("102", "return_management"); ("103", "cobrowsing"); ("104", "website_builders");
    ("105", "augmented_reality"); ("106", "content_delivery_networks");
    ("107", "order_management"); ("108", "anti_fraud"); ("109", "marketing_intelligence");
    ("110", "form_builders"); ("111", "donation_management")
  ].

Definition createRule (name : string) (details : Technology.t) : DetectionRule.t :=
  let rule := TechRule.beforeWebsite name details in
  if negb (String.eqb (Technology.Website details) EmptyString) then
    let rule := appendURLPattern rule
                  (URLMicroSignature.mk (Technology.Website details) 10) in
    (* Add a page content pattern for the website URL *)
    appendPageContentPattern rule
      (PageContentSignature.mk "a" "href" [Technology.Website details] [] 10)
  else rule.

(** [category, exists := categoryMappings[cat]] *)
Definition resolve (cat : string) : option string := categoryMappings !! cat.

(** The ruleset built at the first use of a bucket; [now category] is what
    [time.Now().Format(time.RFC3339)] gives at that moment. *)
Definition newRuleset (now : string -> string) (category : string)
  : Ruleset.t DetectionRule.t :=
  Ruleset.mk
    ("detect_" +:+ category +:+ "_ruleset")
    "1.0.4" "Your Name" (now category)
    ("Ruleset to detect " +:+ ReplaceAll category "_" " " +:+ " technologies.")
    [RuleGroup.mk ("detect_web_technologies_" +:+ category) true []].

(** [main] from [rulesets := make(map[string]Ruleset)] to the end of the
    loop over the records, that is up to the point where the files are
    written; [technologies] are the entries of the input map in the order
    the loop visits them. *)
Definition main (now : string -> string) (technologies : list (string * Technology.t))
  : option (gmap string (Ruleset.t DetectionRule.t)) :=
  Bucket.bucketAll resolve (newRuleset now) createRule Technology.Cats technologies.

(** [filename := fmt.Sprintf(outPath + "/detect-%s-ruleset.yaml", category)],
    with [outPath] the value of the output flag: the directory is part of
    the format string. *)
Definition filename (outPath category : string) : option string :=
  Sprintf (outPath +:+ "/detect-%s-ruleset.yaml") [category].

End TechJSON.

(** ** The converter with the categories in its input document *)
Module CatTechJSON.
Import DetectionRule.

Module Category.
Record t := mk { Name : string }.
End Category.

Module Technologies.
Record t := mk {
  Technologies : list (string * Technology.t);
  Categories : gmap string Category.t
}.
End Technologies.

Definition createRule (name : string) (details : Technology.t) : DetectionRule.t :=
  let rule := TechRule.beforeWebsite name details in
  if negb (String.eqb (Technology.Website details) EmptyString) then
    let rule := appendURLPattern rule
                  (URLMicroSignature.mk (Technology.Website details) 10) in
    (* Add a page content pattern for the website URL *)
    let rule := appendPageContentPattern rule
                  (PageContentSignature.mk "a" "href" [Technology.Website details] [] 10) in
    (* Add a page content pattern for the website URL using the link tag *)
    let rule := appendPageContentPattern rule
                  (PageContentSignature.mk "link" "href" [Technology.Website details] [] 10) in
    (* Add a page content pattern for the website URL using the script tag *)
    appendPageContentPattern rule
      (PageContentSignature.mk "script" "src" [Technology.Website details] [] 10)
  else rule.

(** [category, exists := technologies.Categories[cat]]; the bucket key is
    [category.Name]. *)
Definition resolve (categories : gmap string Category.t) (cat : string) : option string :=
  Category.Name <$> categories !! cat.

Definition newRuleset (now : string -> string) (category : string)
  : Ruleset.t DetectionRule.t :=
  Ruleset.mk
    ("detect_" +:+ ReplaceAll category " " "_" +:+ "_ruleset")
    "1.0.4" "Your Name" (now category)
    ("Ruleset to detect " +:+ ReplaceAll category "_" " " +:+ " technologies.")
    [RuleGroup.mk ("detect_web_technologies_" +:+ category) true []].

(** [main] up to the point where the files are written. *)
Definition main (now : string -> string) (technologies : Technologies.t)
  : option (gmap string (Ruleset.t DetectionRule.t)) :=
  Bucket.bucketAll (resolve (Technologies.Categories technologies)) (newRuleset now)
    createRule Technology.Cats (Technologies.Technologies technologies).

(** The three [strings.ReplaceAll] on the bucket key before the file name
    is built. *)
Definition sanitize (category : string) : string :=
  let category := ReplaceAll category " " "-" in
  let category := ReplaceAll category "/" "-" in
  ReplaceAll category (str1 backslash) "-".

Definition filename (outPath category : string) : option string :=
  let category := sanitize category in
  Sprintf (outPath +:+ "/detect-%s-ruleset.yaml") [category].

End CatTechJSON.

(** ** The BuiltWith converter *)
Module BuiltWith.

Module BuiltWithPatterns.
Record t := mk {
  URL : string;
  HTML : string;
  Headers : list (string * string)
}.
End BuiltWithPatterns.

Module BuiltWithTechnology.
Record t := mk {
  Categories : list Z;
  Patterns : BuiltWithPatterns.t;
  Implies : list string
}.
End BuiltWithTechnology.

Module DetectionRule.
Record t := mk {
  RuleName : string;
  ObjectName : string;
  Implies : list string;
  HTTPHeaderFields : list HTTPHeaderField.t;
  MetaTags : list MetaTag.t;
  PageContentPatterns : list PageContentSignature.t;
  URLPatterns : list URLMicroSignature.t
}.

Definition appendHTTPHeaderField (rule : t) (x : HTTPHeaderField.t) : t :=
  mk (RuleName rule) (ObjectName rule) (Implies rule)
     (HTTPHeaderFields rule ++ [x]) (MetaTags rule) (PageContentPatterns rule)
     (URLPatterns rule).

Definition appendPageContentPattern (rule : t) (x : PageContentSignature.t) : t :=
  mk (RuleName rule) (ObjectName rule) (Implies rule)
     (HTTPHeaderFields rule) (MetaTags rule) (PageContentPatterns rule ++ [x])
     (URLPatterns rule).

Definition appendURLPattern (rule : t) (x : URLMicroSignature.t) : t :=
  mk (RuleName rule) (ObjectName rule) (Implies rule)
     (HTTPHeaderFields rule) (MetaTags rule) (PageContentPatterns rule)
     (URLPatterns rule ++ [x]).
End DetectionRule.
Import DetectionRule.

Definition categoryMappings : gmap Z string :=
  list_to_map [(1, "cms"); (2, "web_frameworks")].

Definition createRule (name : string) (details : BuiltWithTechnology.t) : DetectionRule.t :=
  let patterns := BuiltWithTechnology.Patterns details in
  let rule := DetectionRule.mk
                ("detect_" +:+ ToLower (ReplaceAll name " " "_")) name
                (BuiltWithTechnology.Implies details) [] [] [] [] in
  let rule := foldl (fun rule kv =>
                       appendHTTPHeaderField rule (HTTPHeaderField.mk kv.1 [kv.2] 10))
                    rule (BuiltWithPatterns.Headers patterns) in
  let rule := if negb (String.eqb (BuiltWithPatterns.HTML patterns) EmptyString)
              then appendPageContentPattern rule
                     (PageContentSignature.mk "body" EmptyString []
                        [BuiltWithPatterns.HTML patterns] 10)
              else rule in
  if negb (String.eqb (BuiltWithPatterns.URL patterns) EmptyString)
  then appendURLPattern rule (URLMicroSignature.mk (BuiltWithPatterns.URL patterns) 10)
  else rule.

Definition resolve (cat : Z) : option string := categoryMappings !! cat.

Definition newRuleset (now : string -> string) (category : string)
  : Ruleset.t DetectionRule.t :=
  Ruleset.mk
    ("detect_" +:+ category +:+ "_ruleset")
    "1.0.4" "Your Name" (now category)
    ("Ruleset to detect " +:+ ReplaceAll category "_" " " +:+ " technologies.")
    [RuleGroup.mk "detect_web_technologies" true []].

(** [main] up to the point where the files are written. *)
Definition main (now : string -> string)
  (technologies : list (string * BuiltWithTechnology.t))
  : option (gmap string (Ruleset.t DetectionRule.t)) :=
  Bucket.bucketAll resolve (newRuleset now) createRule BuiltWithTechnology.Categories
    technologies.

Definition filename (outPath category : string) : option string :=
  Sprintf (outPath +:+ "/detect-%s-ruleset.yaml") [category].

End BuiltWith.

(** ** [encoding/csv]: one record read from a one-line input

    [csv.NewReader(strings.NewReader(line)).Read()] with the reader's default
    settings (comma separator, no lazy quotes, no trimming, no comment
    character) on a text without a line feed.  [None] is any error the
    reader returns: a quote inside a bare field, a quoted field that is not
    closed or is followed by something else than a comma, and the end of
    input when the line holds no record. *)
Module CSV.

Inductive state := FieldStart | InBare | InQuoted.

Fixpoint fields (st : state) (field : string) (record : list string) (line : string)
  : option (list string) :=
  match line with
  | EmptyString =>
      match st with
      | InQuoted => None
      | _ => Some (record ++ [field])
      end
  | String c rest =>
      match st with
      | FieldStart =>
          if Ascii.eqb c dquote then fields InQuoted EmptyString record rest
          else if Ascii.eqb c ","%char then fields FieldStart EmptyString (record ++ [EmptyString]) rest
          else fields InBare (str1 c) record rest
      | InBare =>
          if Ascii.eqb c ","%char then fields FieldStart EmptyString (record ++ [field]) rest
          else if Ascii.eqb c dquote then None
          else fields InBare (field +:+ str1 c) record rest
      | InQuoted =>
          if Ascii.eqb c dquote then
            match rest with
            | EmptyString => Some (record ++ [field])
            | String d rest' =>
                if Ascii.eqb d dquote then fields InQuoted (field +:+ str1 dquote) record rest'
                else if Ascii.eqb d ","%char then fields FieldStart EmptyString (record ++ [field]) rest'
                else None
            end
          else fields InQuoted (field +:+ str1 c) record rest
      end
  end.

(** The reader drops one carriage return that ends the input. *)
Fixpoint dropFinalCR (line : string) : string :=
  match line with
  | EmptyString => EmptyString
  | String c EmptyString => if Ascii.eqb c CR then EmptyString else line
  | String c rest => String c (dropFinalCR rest)
  end.

Definition Read (line : string) : option (list string) :=
  match dropFinalCR line with
  | EmptyString => None
  | l => fields FieldStart EmptyString [] l
  end.

End CSV.

(** ** The favicon converter *)
Module Favicon.

Module PageContentSignature.
Record t := mk {
  Key : string;
  Attribute : string;
  Signature : list string;
  Text : list string;
  MD5Hash : list string;
  Confidence : Z
}.
End PageContentSignature.

Module DetectionRule.
Record t := mk {
  RuleName : string;
  ObjectName : string;
  Implies : list string;
  HTTPHeaderFields : list HTTPHeaderField.t;
  MetaTags : list MetaTag.t;
  PageContentPatterns : list PageContentSignature.t;
  SSLSignatures : list SSLSignature.t
}.
End DetectionRule.

(** Function to create a CROWler detection rule from a favicon entry *)
Definition createFaviconRule (id md5hash description : string) : DetectionRule.t :=
  let ruleName := "detect_" +:+ ToLower (ReplaceAll description " " "_") in
  DetectionRule.mk ruleName description [] [] []
    [PageContentSignature.mk EmptyString EmptyString [] [] [md5hash] 10]
    [].

(** The ruleset [main] starts from; [now] is the formatted current time. *)
Definition initialRuleset (now : string) : Ruleset.t DetectionRule.t :=
  Ruleset.mk "detect_favicon_hashes" "1.0.4" "Your Name" now
    "Ruleset to detect technologies using favicon MD5 hashes."
    [RuleGroup.mk "detect_favicon_technologies" true []].

(** The body of the second [for scanner.Scan()] loop, on one line. *)
Definition scanLine (ruleset : Ruleset.t DetectionRule.t) (line : string)
  : option (Ruleset.t DetectionRule.t) :=
  if HasPrefix line "#" || (String.length line =? 0)%nat then Some ruleset
  else
    match CSV.Read line with
    | None => Some ruleset
    | Some [f0; f1; f2] =>
        let id := Trim f0 (str1 dquote) in
        let md5hash := Trim f1 (str1 dquote) in
        let description := Trim f2 (str1 dquote) in
        let rule := createFaviconRule id md5hash description in
        appendRule ruleset rule
    | Some _ => Some ruleset
    end.

(** [main] up to the point where the file is written; [lines] are the
    tokens of the scanner, in order.  The first [scanner.Scan()] takes the
    header line, whatever it holds. *)
Definition main (now : string) (lines : list string)
  : option (Ruleset.t DetectionRule.t) :=
  let ruleset := initialRuleset now in
  match lines with
  | [] => scanLoop scanLine ruleset []
  | _ :: lines' => scanLoop scanLine ruleset lines'
  end.

End Favicon.

(** ** cmd/convertModSecurity/main.go *)
Module ModSecurity.

(** *** The six regular expressions

    [FindStringSubmatch] returns the leftmost match; every expression here
    has one capture group, which is what the finders below return.  A match
    is tried at each byte, from the left ([findLeftmost]). *)

Fixpoint span (p : ascii -> bool) (s : string) : string * string :=
  match s with
  | EmptyString => (EmptyString, EmptyString)
  | String c s' =>
      if p c then let '(run, rest) := span p s' in (String c run, rest)
      else (EmptyString, s)
  end.

Fixpoint findLeftmost {A} (here : string -> option A) (s : string) : option A :=
  match here s with
  | Some x => Some x
  | None =>
      match s with
      | EmptyString => None
      | String _ s' => findLeftmost here s'
      end
  end.

Definition isDigit (c : ascii) : bool :=
  let n := nat_of_ascii c in ((48 <=? n) && (n <=? 57))%nat.

(** [\w]: an ASCII letter, a digit or the underscore. *)
Definition isWord (c : ascii) : bool :=
  let n := nat_of_ascii c in
  (((48 <=? n) && (n <=? 57)) || ((65 <=? n) && (n <=? 90))
   || ((97 <=? n) && (n <=? 122)) || (n =? 95))%nat.

(** [literal(\d+)] at the start of [s]: the longest run of digits. *)
Definition digitsHere (literal s : string) : option string :=
  rest ← stripPrefix literal s;
  let '(run, _) := span isDigit rest in
  if String.eqb run EmptyString then None else Some run.

(** [literal([^q]+)q] at the start of [s], for a delimiter byte [q]. *)
Definition delimitedHere (literal : string) (q : ascii) (s : string) : option string :=
  rest ← stripPrefix literal s;
  let '(run, after) := span (fun c => negb (Ascii.eqb c q)) rest in
  if String.eqb run EmptyString then None
  else match after with
       | String _ _ => Some run
       | EmptyString => None
       end.

(** The User-Agent expression: the literal [REQUEST_HEADERS:User-Agent],
    a space and a double quote, then one or more bytes that are not a
    double quote (the capture), then a double quote. *)
Definition userAgentRe (line : string) : option string :=
  findLeftmost (delimitedHere ("REQUEST_HEADERS:User-Agent " +:+ str1 dquote) dquote) line.

(** [id:(\d+)], [phase:(\d+)], [status:(\d+)] *)
Definition idRe (line : string) : option string := findLeftmost (digitsHere "id:") line.
Definition phaseRe (line : string) : option string := findLeftmost (digitsHere "phase:") line.
Definition statusRe (line : string) : option string := findLeftmost (digitsHere "status:") line.

(** [msg:'([^']+)'] *)
Definition msgRe (line : string) : option string :=
  findLeftmost (delimitedHere ("msg:" +:+ str1 squote) squote) line.

(** [\b(deny|allow|log)\b]: [word] at the start of [s] with a word boundary
    after it; the boundary before it is [prevIsWord = false]. *)
Definition wordHere (word s : string) : bool :=
  match stripPrefix word s with
  | Some EmptyString => true
  | Some (String c _) => negb (isWord c)
  | None => false
  end.

Definition actionHere (s : string) : option string :=
  if wordHere "deny" s then Some "deny"
  else if wordHere "allow" s then Some "allow"
  else if wordHere "log" s then Some "log"
  else None.

Fixpoint actionFrom (prevIsWord : bool) (s : string) : option string :=
  match (if prevIsWord then None else actionHere s) with
  | Some a => Some a
  | None =>
      match s with
      | EmptyString => None
      | String c s' => actionFrom (isWord c) s'
      end
  end.

Definition actionRe (line : string) : option string := actionFrom false line.

Module ModSecurityRule.
Record t := mk {
  ID : string;
  Phase : string;
  Action : string;
  Status : string;
  Message : string;
  UserAgent : string;
  Headers : list (string * string)
}.
End ModSecurityRule.

Module DetectionRule.
Record t := mk {
  RuleName : string;
  ObjectName : string;
  HTTPHeaderFields : list HTTPHeaderField.t
}.
End DetectionRule.

(** Function to parse ModSecurity rule line.  A field keeps its zero value,
    the empty string, when its expression does not match. *)
Definition parseModSecurityRule (line : string) : ModSecurityRule.t :=
  ModSecurityRule.mk
    (default EmptyString (idRe line))
    (default EmptyString (phaseRe line))
    (default EmptyString (actionRe line))
    (default EmptyString (statusRe line))
    (default EmptyString (msgRe line))
    (default EmptyString (userAgentRe line))
    [].

(** Function to create a CROWler detection rule from a ModSecurity rule *)
Definition createDetectionRuleFromModSecurity (modsecRule : ModSecurityRule.t)
  : DetectionRule.t :=
  let ruleName := "detect_modsec_rule_" +:+ ModSecurityRule.ID modsecRule in
  DetectionRule.mk ruleName
    ("ModSecurity Rule " +:+ ModSecurityRule.ID modsecRule)
    [HTTPHeaderField.mk "User-Agent" [ModSecurityRule.UserAgent modsecRule] 10].

Definition initialRuleset (now : string) : Ruleset.t DetectionRule.t :=
  Ruleset.mk "detect_modsecurity_rules" "1.0.4" "Your Name" now
    "Ruleset to detect ModSecurity rules."
    [RuleGroup.mk "detect_modsecurity_rules" true []].

(** The body of [for scanner.Scan()], on one line. *)
Definition scanLine (ruleset : Ruleset.t DetectionRule.t) (line : string)
  : option (Ruleset.t DetectionRule.t) :=
  if HasPrefix line "#" || (String.length line =? 0)%nat then Some ruleset
  else
    let modsecRule := parseModSecurityRule line in
    if negb (String.eqb (ModSecurityRule.UserAgent modsecRule) EmptyString) then
      let detectionRule := createDetectionRuleFromModSecurity modsecRule in
      appendRule ruleset detectionRule
    else Some ruleset.

(** [main] up to the point where the file is written; [lines] are the
    tokens of the scanner, in order. *)
Definition main (now : string) (lines : list string)
  : option (Ruleset.t DetectionRule.t) :=
  scanLoop scanLine (initialRuleset now) lines.

End ModSecurity.

(** ** Writing the rulesets

    The last loop of the three bucketing converters:
    [for category, ruleset := range rulesets], with the file name built by
    [Sprintf], then [os.Create], then the YAML encoder, each of the two
    ending the run with [log.Fatalf] when it fails.  [entries] are the
    entries of the map in the order the loop visits them.  What the file
    system and the encoder do is left open: [create name] tells whether
    [os.Create] succeeds and [encode ruleset] whether [Encode] does.  A file
    is [Some ruleset] once its document is written, and [None] when it was
    created (or truncated) and the encoder failed. *)
Module Emit.

Inductive outcome (R : Type) : Type :=
  | Done (files : gmap string (option (Ruleset.t R)))
  | Fatal (files : gmap string (option (Ruleset.t R))).
Arguments Done {R}.
Arguments Fatal {R}.

Section Emitter.
Context {R : Type}.
Variable filename : string -> option string.
Variable create : string -> bool.
Variable encode : Ruleset.t R -> bool.

(** [None] is a file name outside the fragment of [Sprintf] modelled here. *)
Fixpoint writeLoop (files : gmap string (option (Ruleset.t R)))
  (entries : list (string * Ruleset.t R)) : option (outcome R) :=
  match entries with
  | [] => Some (Done files)
  | (category, ruleset) :: entries' =>
      name ← filename category;
      if create name then
        if encode ruleset then writeLoop (<[name := Some ruleset]> files) entries'
        else Some (Fatal (<[name := None]> files))
      else Some (Fatal files)
  end.

End Emitter.

End Emit.

(** * The vocabulary of the properties

    Nothing below is part of the converters: these are the predicates,
    closed forms and example inputs that the statements of the second half
    use. *)

(** ** Rulesets and buckets *)

(** The rules of the first group of a ruleset. *)
Definition rulesOf {R} (ruleset : Ruleset.t R) : list R :=
  match Ruleset.RuleGroups ruleset with
  | [] => []
  | g :: _ => RuleGroup.DetectionRules g
  end.

(** The rules a bucket holds: those of its first group, none when the bucket
    does not exist. *)
Definition bucketRules {R} (rulesets : gmap string (Ruleset.t R)) (category : string)
  : list R :=
  match rulesets !! category with
  | Some ruleset => rulesOf ruleset
  | None => []
  end.

(** [P] holds of every rule of every group. *)
Definition rulesetForall {R} (P : R -> Prop) (ruleset : Ruleset.t R) : Prop :=
  Forall (fun g => Forall P (RuleGroup.DetectionRules g)) (Ruleset.RuleGroups ruleset).

(** What [main] keeps true of its [rulesets] map: every ruleset has a first
    group (so that index 0 is in range), and its rules satisfy [P]. *)
Definition bucketsInv {R} (P : R -> Prop) (rulesets : gmap string (Ruleset.t R)) : Prop :=
  map_Forall (fun _ ruleset =>
                Ruleset.RuleGroups ruleset <> [] /\ rulesetForall P ruleset) rulesets.

(** The ruleset with [rules] appended to its first group. *)
Definition appendRules {R} (ruleset : Ruleset.t R) (rules : list R) : Ruleset.t R :=
  match Ruleset.RuleGroups ruleset with
  | [] => ruleset
  | g :: gs =>
      Ruleset.mk
        (Ruleset.RulesetName ruleset) (Ruleset.FormatVersion ruleset)
        (Ruleset.Author ruleset) (Ruleset.CreatedAt ruleset)
        (Ruleset.Description ruleset)
        (RuleGroup.mk (RuleGroup.GroupName g) (RuleGroup.IsEnabled g)
           (RuleGroup.DetectionRules g ++ rules) :: gs)
  end.

(** The number of codes of [cs] that resolve to [category]. *)
Definition hits {Cat} (resolve : Cat -> option string) (category : string) (cs : list Cat)
  : nat :=
  length (filter (fun cat => resolve cat = Some category) cs).

(** The rules a record sends to the bucket [category]: its rule, once per
    code that resolves to the bucket. *)
Definition sent {Cat Details R} (resolve : Cat -> option string)
  (createRule : string -> Details -> R) (cats : Details -> list Cat)
  (category : string) (tech : string * Details) : list R :=
  replicate (hits resolve category (cats tech.2)) (createRule tech.1 tech.2).

(** What it means for a bucketer to skip unresolved category codes. *)
Definition skipsUnresolved {Cat Details R : Type}
  (resolve : Cat -> option string) (newRuleset : string -> Ruleset.t R)
  (createRule : string -> Details -> R) (cats : Details -> list Cat) : Prop :=
  (* one unresolved code: the map is left as it is *)
  (forall rule rulesets cat,
      resolve cat = None ->
      Bucket.bucketCat resolve newRuleset rule rulesets cat = Some rulesets)
  (* the other codes of the record are handled as if it were not there *)
  /\ (forall rule rulesets cs1 cat cs2,
        resolve cat = None ->
        Bucket.bucketCats resolve newRuleset rule rulesets (cs1 ++ cat :: cs2)
        = Bucket.bucketCats resolve newRuleset rule rulesets (cs1 ++ cs2))
  (* a record with unresolved codes only: no bucket is touched or created *)
  /\ (forall rulesets tech,
        Forall (fun cat => resolve cat = None) (cats tech.2) ->
        Bucket.bucketTech resolve newRuleset createRule cats rulesets tech = Some rulesets)
  (* and the run gives what it gives without that record *)
  /\ (forall techs1 tech techs2,
        Forall (fun cat => resolve cat = None) (cats tech.2) ->
        Bucket.bucketAll resolve newRuleset createRule cats (techs1 ++ tech :: techs2)
        = Bucket.bucketAll resolve newRuleset createRule cats (techs1 ++ techs2))
  (* the loop never fails *)
  /\ (forall techs, is_Some (Bucket.bucketAll resolve newRuleset createRule cats techs)).

(** ** The rules of the technologies.json converters *)

Section TechVocabulary.
Import DetectionRule.

(** The signatures the loops of [createRule] append, one per entry. *)
Definition headerField (kv : string * string) : HTTPHeaderField.t :=
  HTTPHeaderField.mk kv.1 [kv.2] 10.

Definition pattern (key v : string) : PageContentSignature.t :=
  PageContentSignature.mk key EmptyString [v] [] 10.

Definition urlSignature (v : string) : URLMicroSignature.t := URLMicroSignature.mk v 10.

(** The page-content signature of the website block for a tag and one of
    its attributes. *)
Definition websitePattern (key attribute website : string) : PageContentSignature.t :=
  PageContentSignature.mk key attribute [website] [] 10.

(** The meta tag an entry of a [map[string]interface{}] gives, if any. *)
Definition metaTagOf (kv : string * Any) : option MetaTag.t :=
  match kv.2 with
  | AString s => Some (MetaTag.mk kv.1 [s] 10)
  | ASlice items => Some (MetaTag.mk kv.1 (TechRule.stringItems items) 10)
  | _ => None
  end.

(** The meta tags of a whole [Meta] value, in the order of its entries. *)
Definition metaTagsOf (meta : Any) : list MetaTag.t :=
  match meta with
  | AMap entries => omap metaTagOf entries
  | AMapString entries => map (fun kv => MetaTag.mk kv.1 [kv.2] 10) entries
  | _ => []
  end.

(** The tags named [k] among the meta tags of a rule. *)
Definition tagsNamed (k : string) (tags : list MetaTag.t) : list MetaTag.t :=
  filter (fun t => MetaTag.Name t = k) tags.

(** Whether an element of a sequence is a string. *)
Definition isString (x : Any) : bool :=
  match x with AString _ => true | _ => false end.

(** The page-content signatures that name an attribute: the patterns of the
    html and script lists never do. *)
Definition attributed (ps : list PageContentSignature.t) : list PageContentSignature.t :=
  filter (fun p => PageContentSignature.Attribute p <> EmptyString) ps.

(** The record with its [Meta] field replaced. *)
Definition withMeta (details : Technology.t) (meta : Any) : Technology.t :=
  Technology.mk (Technology.Cats details) (Technology.Cookies details)
    (Technology.Headers details) meta (Technology.Html details)
    (Technology.Scripts details) (Technology.URL details)
    (Technology.Website details) (Technology.Implies details).

(** Two rules that agree on every field but the meta tags. *)
Definition sameButMetaTags (r1 r2 : DetectionRule.t) : Prop :=
  RuleName r1 = RuleName r2 /\ ObjectName r1 = ObjectName r2
  /\ Implies r1 = Implies r2 /\ HTTPHeaderFields r1 = HTTPHeaderFields r2
  /\ PageContentPatterns r1 = PageContentPatterns r2
  /\ SSLSignatures r1 = SSLSignatures r2 /\ URLPatterns r1 = URLPatterns r2.

(** What the category-aware converter does to a byte of a bucket key. *)
Definition hyphenate (c : ascii) : ascii :=
  if Ascii.eqb c " "%char || Ascii.eqb c "/"%char || Ascii.eqb c backslash
  then "-"%char else c.

(** Example records: one with nothing but a website; one with the same URL
    also among its script and URL patterns; the meta field of the
    specification's example (a string, a sequence with a number in it, and a
    number); one in the categories 1 and 3; one whose category codes are in
    no table. *)
Definition websiteOnly (website : string) : Technology.t :=
  Technology.mk [] [] [] ANil [] [] [] website [].

Definition websiteTwice : Technology.t :=
  Technology.mk ["1"] [] [] ANil [] ["https://example.org"] ["https://example.org"]
    "https://example.org" [].

Definition metaExample : Technology.t :=
  Technology.mk ["1"] [] [("Server", "nginx")]
    (AMap [("a", AString "x");
           ("b", ASlice [AString "x"; AFloat64 "5"; AString "y"]);
           ("c", AFloat64 "5")])
    ["<html>"] [] [] "https://example.org" [].

Definition fanOutExample : Technology.t :=
  Technology.mk ["1"; "3"] [] [] ANil [] [] [] "https://example.org" [].

Definition unresolvedExample : Technology.t :=
  Technology.mk ["2"; "7"; "999"] [] [] ANil [] [] [] "https://example.org" [].

End TechVocabulary.

(** ** The lines of the single-bucket converters *)

(** [strings.Contains]. *)
Fixpoint Contains (s substr : string) : bool :=
  match s with
  | EmptyString => String.prefix substr s
  | String _ s' => String.prefix substr s || Contains s' substr
  end.

(** [s] between double quotes. *)
Definition quoted (s : string) : string := str1 dquote +:+ s +:+ str1 dquote.

Section ModSecurityVocabulary.
Import ModSecurity.

(** The rule the loop body appends for a line: none for a comment or an
    empty line, none without a User-Agent match. *)
Definition modsecLineRule (line : string) : option ModSecurity.DetectionRule.t :=
  if HasPrefix line "#" || (String.length line =? 0)%nat then None
  else match userAgentRe line with
       | Some ua =>
           Some (ModSecurity.DetectionRule.mk
                   ("detect_modsec_rule_" +:+ default EmptyString (idRe line))
                   ("ModSecurity Rule " +:+ default EmptyString (idRe line))
                   [HTTPHeaderField.mk "User-Agent" [ua] 10])
       | None => None
       end.

(** The two fragments of the specification's example, and its rule. *)
Definition badBotFragment : string := "REQUEST_HEADERS:User-Agent " +:+ quoted "BadBot".

Definition idFragment : string := "id:12345".

Definition rule12345 : ModSecurity.DetectionRule.t :=
  ModSecurity.DetectionRule.mk "detect_modsec_rule_12345" "ModSecurity Rule 12345"
    [HTTPHeaderField.mk "User-Agent" ["BadBot"] 10].

(** A rule with both fragments, and the same rule commented out; a rule
    whose identifier only starts with 12345; a line with another User-Agent
    fragment before the one of the example; a rule without an identifier,
    and the same rule commented out. *)
Definition badBotLine : string :=
  "SecRule " +:+ badBotFragment +:+ " " +:+ quoted "id:12345,phase:1,deny,status:403".

Definition commentedBadBotLine : string := "#" +:+ badBotLine.

Definition longerIdLine : string :=
  "SecRule " +:+ badBotFragment +:+ " " +:+ quoted "id:123456,deny".

Definition earlierAgentLine : string :=
  "SecRule REQUEST_HEADERS:User-Agent " +:+ quoted "GoodBot" +:+ " chain "
  +:+ badBotFragment +:+ " " +:+ quoted "id:12345,deny".

Definition noIdLine : string := "SecRule " +:+ badBotFragment +:+ " " +:+ quoted "deny".

Definition commentedNoIdLine : string := "# " +:+ noIdLine.

End ModSecurityVocabulary.

Section FaviconVocabulary.
Import Favicon.

(** The rule the loop body appends for a line: none for a comment or an
    empty line, none unless the CSV reader returns exactly three fields. *)
Definition faviconLineRule (line : string) : option Favicon.DetectionRule.t :=
  if HasPrefix line "#" || (String.length line =? 0)%nat then None
  else match CSV.Read line with
       | Some [f0; f1; f2] =>
           Some (createFaviconRule (Trim f0 (str1 dquote)) (Trim f1 (str1 dquote))
                   (Trim f2 (str1 dquote)))
       | _ => None
       end.

(** The row of the specification's example, and its rule. *)
Definition drupalRow : string :=
  quoted "1" +:+ "," +:+ quoted "abc123" +:+ "," +:+ quoted "Drupal".

Definition drupalRule : Favicon.DetectionRule.t :=
  Favicon.DetectionRule.mk "detect_drupal" "Drupal" [] [] []
    [Favicon.PageContentSignature.mk EmptyString EmptyString [] [] ["abc123"] 10]
    [].

End FaviconVocabulary.

(** ** Confidence

    Every signature of a rule has confidence 10, for each of the four
    [DetectionRule] structs. *)

Definition confidence10 (rule : DetectionRule.t) : Prop :=
  Forall (fun x => HTTPHeaderField.Confidence x = 10) (DetectionRule.HTTPHeaderFields rule)
  /\ Forall (fun x => MetaTag.Confidence x = 10) (DetectionRule.MetaTags rule)
  /\ Forall (fun x => PageContentSignature.Confidence x = 10)
       (DetectionRule.PageContentPatterns rule)
  /\ Forall (fun x => SSLSignature.Confidence x = 10) (DetectionRule.SSLSignatures rule)
  /\ Forall (fun x => URLMicroSignature.Confidence x = 10) (DetectionRule.URLPatterns rule).

Definition builtWithConfidence10 (rule : BuiltWith.DetectionRule.t) : Prop :=
  Forall (fun x => HTTPHeaderField.Confidence x = 10)
    (BuiltWith.DetectionRule.HTTPHeaderFields rule)
  /\ Forall (fun x => MetaTag.Confidence x = 10) (BuiltWith.DetectionRule.MetaTags rule)
  /\ Forall (fun x => PageContentSignature.Confidence x = 10)
       (BuiltWith.DetectionRule.PageContentPatterns rule)
  /\ Forall (fun x => URLMicroSignature.Confidence x = 10)
       (BuiltWith.DetectionRule.URLPatterns rule).

Definition faviconConfidence10 (rule : Favicon.DetectionRule.t) : Prop :=
  Forall (fun x => HTTPHeaderField.Confidence x = 10)
    (Favicon.DetectionRule.HTTPHeaderFields rule)
  /\ Forall (fun x => MetaTag.Confidence x = 10) (Favicon.DetectionRule.MetaTags rule)
  /\ Forall (fun x => Favicon.PageContentSignature.Confidence x = 10)
       (Favicon.DetectionRule.PageContentPatterns rule)
  /\ Forall (fun x => SSLSignature.Confidence x = 10)
       (Favicon.DetectionRule.SSLSignatures rule).

Definition modsecConfidence10 (rule : ModSecurity.DetectionRule.t) : Prop :=
  Forall (fun x => HTTPHeaderField.Confidence x = 10)
    (ModSecurity.DetectionRule.HTTPHeaderFields rule).

(** ** The buckets of a finished pass *)

(** The entry of the [rulesets] map for a bucket that received [rules]: no
    entry when it received none, else the ruleset built at the bucket's
    first use with the rules appended to its group. *)
Definition bucketSpec {R} (newRuleset : string -> Ruleset.t R) (category : string)
  (rules : list R) : option (Ruleset.t R) :=
  match rules with
  | [] => None
  | _ :: _ => Some (appendRules (newRuleset category) rules)
  end.

(** The map is what [bucketSpec] says for the rules [received]. *)
Definition bucketsAre {R} (newRuleset : string -> Ruleset.t R)
  (rulesets : gmap string (Ruleset.t R)) (received : string -> list R) : Prop :=
  forall category, rulesets !! category = bucketSpec newRuleset category (received category).

(** ** Rule names *)

(** Whether a byte is an upper-case ASCII letter. *)
Definition isUpper (c : ascii) : bool :=
  let n := nat_of_ascii c in ((65 <=? n) && (n <=? 90))%nat.

(** Whether every byte of a string passes a test. *)
Fixpoint allBytes (p : ascii -> bool) (s : string) : bool :=
  match s with
  | EmptyString => true
  | String c s' => p c && allBytes p s'
  end.

(** Whether a string is ASCII, every byte below 128: the strings on which
    [strings.ToLower] works byte by byte, as [GoStrings.ToLower] does. *)
Definition isASCII (s : string) : bool :=
  allBytes (fun c => (nat_of_ascii c <? 128)%nat) s.

(** A name a converter builds: the prefix detect_ and then no space and no
    upper-case ASCII letter. *)
Definition slugName (ruleName : string) : Prop :=
  exists slug,
    ruleName = "detect_" +:+ slug
    /\ allBytes (fun c => negb (Ascii.eqb c " "%char) && negb (isUpper c)) slug = true.

(** The signatures the website block adds in each of the two converters. *)
Definition websiteURL (website : string) : list URLMicroSignature.t :=
  if decide (website = EmptyString) then [] else [urlSignature website].

Definition websiteAnchor (website : string) : list PageContentSignature.t :=
  if decide (website = EmptyString) then [] else [websitePattern "a" "href" website].

Definition websiteTags (website : string) : list PageContentSignature.t :=
  if decide (website = EmptyString) then []
  else [websitePattern "a" "href" website; websitePattern "link" "href" website;
        websitePattern "script" "src" website].

(** ** The fields of a parsed ModSecurity line *)

(** A rule the ModSecurity converter can emit: an identifier of digits
    (possibly none) in both names, and the one header field User-Agent with
    one value that is not empty and holds no double quote. *)
Definition modsecRuleShape (rule : ModSecurity.DetectionRule.t) : Prop :=
  exists id ua,
    allBytes ModSecurity.isDigit id = true
    /\ ua <> EmptyString /\ hasByte dquote ua = false
    /\ rule = ModSecurity.DetectionRule.mk
                ("detect_modsec_rule_" +:+ id) ("ModSecurity Rule " +:+ id)
                [HTTPHeaderField.mk "User-Agent" [ua] 10].

(** The text the User-Agent expression matches for a capture [ua]. *)
Definition userAgentFragment (ua : string) : string :=
  "REQUEST_HEADERS:User-Agent " +:+ quoted ua.

(** ** Lines the scanners skip *)

(** The test both scanning loops start with. *)
Definition skipped (line : string) : bool :=
  HasPrefix line "#" || (String.length line =? 0)%nat.

(** A CSV field the favicon converter reads back as it is: no double quote
    and no line feed in it. *)
Definition LF : ascii := "010"%char.

Definition plainField (field : string) : Prop :=
  hasByte dquote field = false /\ hasByte LF field = false.

(** A field that can stand outside quotes: moreover no comma and no
    carriage return. *)
Definition bareField (field : string) : Prop :=
  plainField field /\ hasByte ","%char field = false /\ hasByte CR field = false.

(** The line with three fields in double quotes. *)
Definition quotedRow (id md5hash description : string) : string :=
  quoted id +:+ "," +:+ quoted md5hash +:+ "," +:+ quoted description.

(** The same line without the quotes. *)
Definition bareRow (id md5hash description : string) : string :=
  id +:+ "," +:+ md5hash +:+ "," +:+ description.

(** ** Files *)

(** The ruleset the writing loop writes last under the name [name]. *)
Fixpoint lastWritten {R} (filename : string -> option string) (name : string)
  (entries : list (string * Ruleset.t R)) : option (Ruleset.t R) :=
  match entries with
  | [] => None
  | entry :: entries' =>
      match lastWritten filename name entries' with
      | Some ruleset => Some ruleset
      | None => if decide (filename entry.1 = Some name) then Some entry.2 else None
      end
  end.

(** The name of the file of a bucket, for a directory without a per cent
    sign. *)
Definition detectFile (outPath category : string) : string :=
  outPath +:+ "/detect-" +:+ category +:+ "-ruleset.yaml".

(** Every entry gets a file name, its file can be created and its ruleset
    encoded. *)
Definition allWritable {R} (filename : string -> option string) (create : string -> bool)
  (encode : Ruleset.t R -> bool) (entries : list (string * Ruleset.t R)) : Prop :=
  Forall (fun entry =>
            (exists name, filename entry.1 = Some name /\ create name = true)
            /\ encode entry.2 = true) entries.

(** Two buckets of the cms and web_frameworks categories, as [main] of
    cmd/convertTechJSON builds them for [fanOutExample]. *)
Definition twoBuckets : gmap string (Ruleset.t DetectionRule.t) :=
  default ∅ (TechJSON.main (fun _ => "2024-01-01T00:00:00Z") [("Example", fanOutExample)]).


(** Two buckets of the category-aware converter whose names differ by a
    space against a hyphen. *)
Definition collidingBuckets : gmap string (Ruleset.t DetectionRule.t) :=
  <["Web servers" := CatTechJSON.newRuleset (fun _ => "2024-01-01T00:00:00Z") "Web servers"]>
    (<["Web-servers" := CatTechJSON.newRuleset (fun _ => "2024-01-01T00:00:00Z")
                          "Web-servers"]> ∅).

(** ** The shape of a favicon rule *)

Definition firstByte (s : string) : option ascii :=
  match s with
  | EmptyString => None
  | String c _ => Some c
  end.

Fixpoint lastByte (s : string) : option ascii :=
  match s with
  | EmptyString => None
  | String c EmptyString => Some c
  | String _ s' => lastByte s'
  end.

(** A string that neither starts nor ends with a double quote. *)
Definition trimmed (s : string) : Prop :=
  firstByte s <> Some dquote /\ lastByte s <> Some dquote.

(** A rule the favicon converter can emit: its object name is a
    description and its one signature a page-content signature that carries
    one hash and nothing else, hash and description without a double quote
    at either end; when the description is ASCII the rule is named after
    it. *)
Definition faviconRuleShape (rule : Favicon.DetectionRule.t) : Prop :=
  exists md5hash description,
    trimmed md5hash /\ trimmed description
    /\ rule = Favicon.DetectionRule.mk
                (Favicon.DetectionRule.RuleName rule) description
                [] [] []
                [Favicon.PageContentSignature.mk EmptyString EmptyString [] [] [md5hash] 10]
                []
    /\ (isASCII description = true ->
        Favicon.DetectionRule.RuleName rule
        = "detect_" +:+ ToLower (ReplaceAll description " " "_")).

(** ** The same input in two runs

    Go ranges over a map in an order it does not fix, and not the same one
    from run to run.  In the embedding a map that is ranged over is the list
    of its entries in the order of the visit, so that one input read by two
    runs is two values that differ by permutations. *)

(** Two visits of one [Meta] value: the entries of the mapping in any
    order, their values, which [createRule] never ranges over as mappings,
    as they are. *)
Definition sameMeta (m1 m2 : Any) : Prop :=
  match m1, m2 with
  | AMap entries1, AMap entries2 => entries1 ≡ₚ entries2
  | AMapString entries1, AMapString entries2 => entries1 ≡ₚ entries2
  | _, _ => m1 = m2
  end.

(** Two visits of one technologies.json record: the header, cookie and meta
    mappings in any order, the sequences as they are. *)
Definition sameObject (d1 d2 : Technology.t) : Prop :=
  Technology.Cats d1 = Technology.Cats d2
  /\ Technology.Cookies d1 ≡ₚ Technology.Cookies d2
  /\ Technology.Headers d1 ≡ₚ Technology.Headers d2
  /\ sameMeta (Technology.Meta d1) (Technology.Meta d2)
  /\ Technology.Html d1 = Technology.Html d2
  /\ Technology.Scripts d1 = Technology.Scripts d2
  /\ Technology.URL d1 = Technology.URL d2
  /\ Technology.Website d1 = Technology.Website d2
  /\ Technology.Implies d1 = Technology.Implies d2.

(** Two visits of one BuiltWith record. *)
Definition sameBuiltWith (d1 d2 : BuiltWith.BuiltWithTechnology.t) : Prop :=
  let patterns1 := BuiltWith.BuiltWithTechnology.Patterns d1 in
  let patterns2 := BuiltWith.BuiltWithTechnology.Patterns d2 in
  BuiltWith.BuiltWithTechnology.Categories d1 = BuiltWith.BuiltWithTechnology.Categories d2
  /\ BuiltWith.BuiltWithTechnology.Implies d1 = BuiltWith.BuiltWithTechnology.Implies d2
  /\ BuiltWith.BuiltWithPatterns.URL patterns1 = BuiltWith.BuiltWithPatterns.URL patterns2
  /\ BuiltWith.BuiltWithPatterns.HTML patterns1 = BuiltWith.BuiltWithPatterns.HTML patterns2
  /\ BuiltWith.BuiltWithPatterns.Headers patterns1
     ≡ₚ BuiltWith.BuiltWithPatterns.Headers patterns2.

(** Two rules with the same signatures: they differ at most in the order of
    their header fields and in the order of their meta tags. *)
Definition sameSignatures (r1 r2 : DetectionRule.t) : Prop :=
  DetectionRule.RuleName r1 = DetectionRule.RuleName r2
  /\ DetectionRule.ObjectName r1 = DetectionRule.ObjectName r2
  /\ DetectionRule.Implies r1 = DetectionRule.Implies r2
  /\ DetectionRule.HTTPHeaderFields r1 ≡ₚ DetectionRule.HTTPHeaderFields r2
  /\ DetectionRule.MetaTags r1 ≡ₚ DetectionRule.MetaTags r2
  /\ DetectionRule.PageContentPatterns r1 = DetectionRule.PageContentPatterns r2
  /\ DetectionRule.SSLSignatures r1 = DetectionRule.SSLSignatures r2
  /\ DetectionRule.URLPatterns r1 = DetectionRule.URLPatterns r2.

Definition sameBuiltWithSignatures (r1 r2 : BuiltWith.DetectionRule.t) : Prop :=
  BuiltWith.DetectionRule.RuleName r1 = BuiltWith.DetectionRule.RuleName r2
  /\ BuiltWith.DetectionRule.ObjectName r1 = BuiltWith.DetectionRule.ObjectName r2
  /\ BuiltWith.DetectionRule.Implies r1 = BuiltWith.DetectionRule.Implies r2
  /\ BuiltWith.DetectionRule.HTTPHeaderFields r1
     ≡ₚ BuiltWith.DetectionRule.HTTPHeaderFields r2
  /\ BuiltWith.DetectionRule.MetaTags r1 = BuiltWith.DetectionRule.MetaTags r2
  /\ BuiltWith.DetectionRule.PageContentPatterns r1
     = BuiltWith.DetectionRule.PageContentPatterns r2
  /\ BuiltWith.DetectionRule.URLPatterns r1 = BuiltWith.DetectionRule.URLPatterns r2.

(** The records of one input as two runs visit them: in another order, and
    each record with its mappings in another order. *)
Definition reordered {Details} (same : Details -> Details -> Prop)
  (techs1 techs2 : list (string * Details)) : Prop :=
  exists techs,
    techs1 ≡ₚ techs /\ Forall2 (fun t1 t2 => t1.1 = t2.1 /\ same t1.2 t2.2) techs techs2.

(** Two lists with the same rules, in any order. *)
Definition sameRules {R} (same : R -> R -> Prop) (rules1 rules2 : list R) : Prop :=
  exists rules, rules1 ≡ₚ rules /\ Forall2 same rules rules2.

(** Two rulesets that differ at most in the time of their creation. *)
Definition sameButCreatedAt {R} (rs1 rs2 : Ruleset.t R) : Prop :=
  Ruleset.RulesetName rs1 = Ruleset.RulesetName rs2
  /\ Ruleset.FormatVersion rs1 = Ruleset.FormatVersion rs2
  /\ Ruleset.Author rs1 = Ruleset.Author rs2
  /\ Ruleset.Description rs1 = Ruleset.Description rs2
  /\ Ruleset.RuleGroups rs1 = Ruleset.RuleGroups rs2.

(** A record with a header, a cookie and two meta entries, and the same
    record as another run may visit it. *)
Definition orderedAB : Technology.t :=
  Technology.mk ["1"] [("sid", "1")] [("Server", "nginx"); ("X-Powered-By", "PHP")]
    (AMap [("a", AString "x"); ("b", AString "y")]) [] [] [] EmptyString [].

Definition orderedBA : Technology.t :=
  Technology.mk ["1"] [("sid", "1")] [("X-Powered-By", "PHP"); ("Server", "nginx")]
    (AMap [("b", AString "y"); ("a", AString "x")]) [] [] [] EmptyString [].

(** * Properties *)

(** ** The library models on concrete inputs *)

Example ToLower_mixed_case : ToLower "Google Analytics 4" = "google analytics 4".
Proof. reflexivity. Qed.

Example ReplaceAll_spaces : ReplaceAll "Adobe  Experience Manager" " " "_"
                            = "Adobe__Experience_Manager".
Proof. reflexivity. Qed.

Example Trim_quotes : Trim (quoted (quoted "ab")) (str1 dquote) = "ab".
Proof. reflexivity. Qed.

Example Sprintf_category :
  Sprintf "out/detect-%s-ruleset.yaml" ["cms"] = Some "out/detect-cms-ruleset.yaml".
Proof. reflexivity. Qed.

Example CSV_quoted_fields : CSV.Read drupalRow = Some ["1"; "abc123"; "Drupal"].
Proof. reflexivity. Qed.

Example CSV_escaped_quote :
  CSV.Read (quoted ("a" +:+ quoted "" +:+ "b") +:+ ",c,") = Some ["a" +:+ str1 dquote +:+ "b"; "c"; ""].
Proof. reflexivity. Qed.

Example CSV_bare_quote : CSV.Read ("1,ab" +:+ str1 dquote +:+ "c,d") = None.
Proof. reflexivity. Qed.

Example CSV_open_quote : CSV.Read (str1 dquote +:+ "1,abc,d") = None.
Proof. reflexivity. Qed.

Example parse_badBotLine :
  ModSecurity.parseModSecurityRule
    ("SecRule " +:+ badBotFragment +:+ " "
     +:+ quoted "id:12345,phase:1,deny,status:403,msg:'Bad bot'")
  = ModSecurity.ModSecurityRule.mk "12345" "1" "deny" "403" "Bad bot" "BadBot" [].
Proof. reflexivity. Qed.

Example userAgentRe_needs_closing_quote :
  ModSecurity.userAgentRe ("REQUEST_HEADERS:User-Agent " +:+ str1 dquote +:+ "BadBot") = None.
Proof. reflexivity. Qed.

Example actionRe_word_boundaries :
  ModSecurity.actionRe "xdeny deny_ blog allow-log" = Some "allow".
Proof. reflexivity. Qed.

(** ** The rule groups of a ruleset *)

Lemma appendRule_Some {R} (ruleset : Ruleset.t R) (rule : R) :
  Ruleset.RuleGroups ruleset <> [] ->
  exists ruleset', appendRule ruleset rule = Some ruleset'
    /\ rulesOf ruleset' = rulesOf ruleset ++ [rule]
    /\ Ruleset.RuleGroups ruleset' <> [].
Proof.
  unfold appendRule, rulesOf. destruct (Ruleset.RuleGroups ruleset) as [|g gs] eqn:E.
  - intros H. by destruct H.
  - intros _. eexists. split; [reflexivity|]. simpl. split; [reflexivity | discriminate].
Qed.

Lemma appendRule_Forall {R} (P : R -> Prop) (ruleset ruleset' : Ruleset.t R) (rule : R) :
  P rule -> rulesetForall P ruleset ->
  appendRule ruleset rule = Some ruleset' -> rulesetForall P ruleset'.
Proof.
  unfold appendRule, rulesetForall. intros Hr Hall.
  destruct (Ruleset.RuleGroups ruleset) as [|g gs]; [discriminate|].
  intros [= <-]. simpl. inversion Hall as [|? ? Hg Hgs]; subst.
  constructor; [|assumption]. simpl. apply Forall_app. split; [assumption|].
  by constructor.
Qed.

Section BucketFacts.
Context {Cat Details R : Type}.
Variable resolve : Cat -> option string.
Variable newRuleset : string -> Ruleset.t R.
Variable createRule : string -> Details -> R.
Variable cats : Details -> list Cat.
Variable P : R -> Prop.

(** The ruleset of a new bucket has exactly one group, without rules. *)
Hypothesis newRuleset_group :
  forall category, exists g,
    Ruleset.RuleGroups (newRuleset category) = [g] /\ RuleGroup.DetectionRules g = [].

Local Abbreviation bucketCat := (Bucket.bucketCat resolve newRuleset).
Local Abbreviation bucketCats := (Bucket.bucketCats resolve newRuleset).
Local Abbreviation bucketTech := (Bucket.bucketTech resolve newRuleset createRule cats).
Local Abbreviation bucketLoop := (Bucket.bucketLoop resolve newRuleset createRule cats).
Local Abbreviation bucketAll := (Bucket.bucketAll resolve newRuleset createRule cats).

Lemma newRuleset_inv category :
  Ruleset.RuleGroups (newRuleset category) <> [] /\ rulesetForall P (newRuleset category).
Proof.
  destruct (newRuleset_group category) as (g & Hg & Hrules).
  unfold rulesetForall. rewrite Hg. split; [discriminate|].
  constructor; [|constructor]. rewrite Hrules. constructor.
Qed.

Lemma newRuleset_rulesOf category : rulesOf (newRuleset category) = [].
Proof.
  destruct (newRuleset_group category) as (g & Hg & Hrules).
  unfold rulesOf. by rewrite Hg.
Qed.

(** An unresolved category code leaves the map as it is. *)
Lemma bucketCat_unresolved rule rulesets cat :
  resolve cat = None -> bucketCat rule rulesets cat = Some rulesets.
Proof. intros H. unfold Bucket.bucketCat. by rewrite H. Qed.

(** A resolved one appends the rule to its bucket and to no other. *)
Lemma bucketCat_resolved rule rulesets cat category :
  P rule -> bucketsInv P rulesets -> resolve cat = Some category ->
  exists rulesets',
    bucketCat rule rulesets cat = Some rulesets'
    /\ bucketsInv P rulesets'
    /\ bucketRules rulesets' category = bucketRules rulesets category ++ [rule]
    /\ (forall other, other <> category -> rulesets' !! other = rulesets !! other).
Proof.
  intros Hrule Hinv Hres. unfold Bucket.bucketCat. rewrite Hres.
  destruct (rulesets !! category) as [ruleset|] eqn:Hlook.
  - rewrite Hlook. simpl.
    destruct (Hinv _ _ Hlook) as [Hne Hall].
    destruct (appendRule_Some ruleset rule Hne) as (ruleset' & Happ & Hrules & Hne').
    rewrite Happ. simpl. eexists. split; [reflexivity|]. split; [|split].
    + apply map_Forall_insert_2; [|assumption].
      split; [assumption|]. by eapply appendRule_Forall.
    + unfold bucketRules. by rewrite lookup_insert_eq, Hlook.
    + intros other Hother. by rewrite lookup_insert_ne.
  - rewrite lookup_insert_eq. simpl.
    destruct (newRuleset_inv category) as [Hne Hall].
    destruct (appendRule_Some (newRuleset category) rule Hne)
      as (ruleset' & Happ & Hrules & Hne').
    rewrite Happ. simpl. eexists. split; [reflexivity|]. split; [|split].
    + apply map_Forall_insert_2.
      * split; [assumption|]. by eapply appendRule_Forall.
      * by apply map_Forall_insert_2.
    + unfold bucketRules. rewrite lookup_insert_eq, Hlook, Hrules.
      by rewrite newRuleset_rulesOf.
    + intros other Hother. by rewrite !lookup_insert_ne.
Qed.

(** The loop over the category codes of one record: it never fails, and
    each bucket receives the rule once per code that resolves to it. *)
Lemma bucketCats_spec rule cs : forall rulesets,
  P rule -> bucketsInv P rulesets ->
  exists rulesets',
    bucketCats rule rulesets cs = Some rulesets'
    /\ bucketsInv P rulesets'
    /\ (forall category,
          bucketRules rulesets' category
          = bucketRules rulesets category ++ replicate (hits resolve category cs) rule)
    /\ (forall category, hits resolve category cs = 0%nat ->
          rulesets' !! category = rulesets !! category).
Proof.
  induction cs as [|cat cs IH]; intros rulesets Hrule Hinv.
  - exists rulesets. simpl. split; [reflexivity|]. split; [assumption|].
    split; [|reflexivity]. intros category. by rewrite app_nil_r.
  - simpl. destruct (resolve cat) as [c|] eqn:Hres.
    + destruct (bucketCat_resolved rule rulesets cat c Hrule Hinv Hres)
        as (rs1 & Hstep & Hinv1 & Hc & Hother).
      rewrite Hstep. simpl.
      destruct (IH rs1 Hrule Hinv1) as (rs2 & Hrest & Hinv2 & Hrules & Hsame).
      exists rs2. split; [assumption|]. split; [assumption|]. split.
      * intros category. rewrite Hrules. unfold hits. rewrite filter_cons.
        destruct (decide (resolve cat = Some category)) as [Heq|Hne].
        -- assert (c = category) as -> by congruence.
           rewrite Hc. simpl. by rewrite <- app_assoc.
        -- unfold bucketRules. rewrite Hother; [reflexivity|]. congruence.
      * intros category. unfold hits. rewrite filter_cons.
        destruct (decide (resolve cat = Some category)) as [Heq|Hne]; [discriminate|].
        intros Hz. rewrite Hsame by exact Hz. apply Hother. congruence.
    + rewrite (bucketCat_unresolved _ _ _ Hres). simpl.
      destruct (IH rulesets Hrule Hinv) as (rs2 & Hrest & Hinv2 & Hrules & Hsame).
      exists rs2. split; [assumption|]. split; [assumption|]. split.
      * intros category. rewrite Hrules. unfold hits. rewrite filter_cons.
        destruct (decide (resolve cat = Some category)); [congruence|reflexivity].
      * intros category. unfold hits. rewrite filter_cons.
        destruct (decide (resolve cat = Some category)); [congruence|]. apply Hsame.
Qed.

(** A record none of whose codes resolves changes nothing, in any state. *)
Lemma bucketCats_all_unresolved rule cs : forall rulesets,
  Forall (fun cat => resolve cat = None) cs ->
  bucketCats rule rulesets cs = Some rulesets.
Proof.
  induction cs as [|cat cs IH]; intros rulesets Hall; [reflexivity|].
  inversion Hall as [|? ? Hcat Hcs]; subst. simpl.
  rewrite (bucketCat_unresolved _ _ _ Hcat). simpl. by apply IH.
Qed.

(** An unresolved code can be dropped from the list of a record. *)
Lemma bucketCats_drop_unresolved rule cs1 cat cs2 : forall rulesets,
  resolve cat = None ->
  bucketCats rule rulesets (cs1 ++ cat :: cs2) = bucketCats rule rulesets (cs1 ++ cs2).
Proof.
  induction cs1 as [|c cs1 IH]; intros rulesets Hcat; simpl.
  - by rewrite (bucketCat_unresolved _ _ _ Hcat).
  - destruct (bucketCat rule rulesets c); simpl; [by apply IH | reflexivity].
Qed.

Lemma bucketLoop_app techs1 techs2 : forall rulesets,
  bucketLoop rulesets (techs1 ++ techs2)
  = rulesets' ← bucketLoop rulesets techs1; bucketLoop rulesets' techs2.
Proof.
  induction techs1 as [|tech techs1 IH]; intros rulesets; simpl; [reflexivity|].
  destruct (bucketTech rulesets tech); simpl; [apply IH | reflexivity].
Qed.

Hypothesis createRule_P : forall name details, P (createRule name details).

(** The loop over the records keeps the invariant and never fails. *)
Lemma bucketLoop_inv techs : forall rulesets,
  bucketsInv P rulesets ->
  exists rulesets', bucketLoop rulesets techs = Some rulesets' /\ bucketsInv P rulesets'.
Proof.
  induction techs as [|tech techs IH]; intros rulesets Hinv; simpl.
  - by exists rulesets.
  - unfold Bucket.bucketTech at 1.
    destruct (bucketCats_spec (createRule tech.1 tech.2) (cats tech.2) rulesets
                (createRule_P _ _) Hinv) as (rs1 & Hstep & Hinv1 & _).
    rewrite Hstep. simpl. by apply IH.
Qed.

(** The loop over the records: each bucket grows by the rules the records
    send to it, in the order of the records. *)
Lemma bucketLoop_rules techs : forall rulesets,
  bucketsInv P rulesets ->
  exists rulesets',
    bucketLoop rulesets techs = Some rulesets'
    /\ forall category,
         bucketRules rulesets' category
         = bucketRules rulesets category
           ++ concat (map (sent resolve createRule cats category) techs).
Proof.
  induction techs as [|tech techs IH]; intros rulesets Hinv; simpl.
  - exists rulesets. split; [reflexivity|]. intros category. by rewrite app_nil_r.
  - unfold Bucket.bucketTech at 1.
    destruct (bucketCats_spec (createRule tech.1 tech.2) (cats tech.2) rulesets
                (createRule_P _ _) Hinv) as (rs1 & Hstep & Hinv1 & Hrules1 & _).
    rewrite Hstep. simpl.
    destruct (IH rs1 Hinv1) as (rs2 & Hrest & Hrules2).
    exists rs2. split; [assumption|]. intros category.
    rewrite Hrules2, Hrules1. by rewrite <- app_assoc.
Qed.

Lemma bucketAll_rules techs :
  exists rulesets,
    bucketAll techs = Some rulesets
    /\ forall category,
         bucketRules rulesets category
         = concat (map (sent resolve createRule cats category) techs).
Proof.
  destruct (bucketLoop_rules techs ∅ (map_Forall_empty _)) as (rulesets & Hrun & Hrules).
  exists rulesets. split; [exact Hrun|]. intros category.
  rewrite Hrules. unfold bucketRules. by rewrite lookup_empty.
Qed.

Lemma bucketAll_inv techs :
  exists rulesets, bucketAll techs = Some rulesets /\ bucketsInv P rulesets.
Proof. apply bucketLoop_inv. apply map_Forall_empty. Qed.

End BucketFacts.

(** ** [createRule] of the two technologies.json converters, block by block *)

Section TechRuleFacts.
Import DetectionRule.

Local Ltac fold_append IH :=
  simpl; rewrite IH; simpl; rewrite <- ?app_assoc; reflexivity.

Lemma rangeHeaderFields_eq entries : forall rule,
  TechRule.rangeHeaderFields entries rule
  = mk (RuleName rule) (ObjectName rule) (Implies rule)
       (HTTPHeaderFields rule ++ map headerField entries)
       (MetaTags rule) (PageContentPatterns rule) (SSLSignatures rule) (URLPatterns rule).
Proof.
  unfold TechRule.rangeHeaderFields.
  induction entries as [|kv entries IH]; intros rule.
  - simpl. rewrite app_nil_r. by destruct rule.
  - fold_append IH.
Qed.

Lemma rangePatterns_eq key vs : forall rule,
  TechRule.rangePatterns key vs rule
  = mk (RuleName rule) (ObjectName rule) (Implies rule) (HTTPHeaderFields rule)
       (MetaTags rule) (PageContentPatterns rule ++ map (pattern key) vs)
       (SSLSignatures rule) (URLPatterns rule).
Proof.
  unfold TechRule.rangePatterns.
  induction vs as [|v vs IH]; intros rule.
  - simpl. rewrite app_nil_r. by destruct rule.
  - fold_append IH.
Qed.

Lemma rangeURL_eq vs : forall rule,
  TechRule.rangeURL vs rule
  = mk (RuleName rule) (ObjectName rule) (Implies rule) (HTTPHeaderFields rule)
       (MetaTags rule) (PageContentPatterns rule) (SSLSignatures rule)
       (URLPatterns rule ++ map urlSignature vs).
Proof.
  unfold TechRule.rangeURL.
  induction vs as [|v vs IH]; intros rule.
  - simpl. rewrite app_nil_r. by destruct rule.
  - fold_append IH.
Qed.

Lemma foldl_metaEntry_eq entries : forall rule,
  foldl TechRule.metaEntry rule entries
  = mk (RuleName rule) (ObjectName rule) (Implies rule) (HTTPHeaderFields rule)
       (MetaTags rule ++ omap metaTagOf entries)
       (PageContentPatterns rule) (SSLSignatures rule) (URLPatterns rule).
Proof.
  induction entries as [|[k v] entries IH]; intros rule.
  - simpl. rewrite app_nil_r. by destruct rule.
  - simpl. rewrite IH. unfold TechRule.metaEntry, metaTagOf. simpl.
    destruct v; simpl; rewrite <- ?app_assoc; reflexivity.
Qed.

Lemma switchMeta_eq meta rule :
  TechRule.switchMeta meta rule
  = mk (RuleName rule) (ObjectName rule) (Implies rule) (HTTPHeaderFields rule)
       (MetaTags rule ++ metaTagsOf meta)
       (PageContentPatterns rule) (SSLSignatures rule) (URLPatterns rule).
Proof.
  destruct meta as [| | | | |entries|entries]; simpl;
    try (rewrite app_nil_r; by destruct rule).
  - apply foldl_metaEntry_eq.
  - revert rule. induction entries as [|kv entries IH]; intros rule.
    + simpl. rewrite app_nil_r. by destruct rule.
    + fold_append IH.
Qed.

(** The rule as it stands when [createRule] reaches the website block. *)
Lemma beforeWebsite_eq name details :
  TechRule.beforeWebsite name details
  = mk ("detect_" +:+ ToLower (ReplaceAll name " " "_")) name (Technology.Implies details)
       (map headerField (Technology.Headers details)
        ++ map headerField (Technology.Cookies details))
       (metaTagsOf (Technology.Meta details))
       (map (pattern "html") (Technology.Html details)
        ++ map (pattern "script") (Technology.Scripts details))
       []
       (map urlSignature (Technology.URL details)).
Proof.
  unfold TechRule.beforeWebsite, TechRule.initial.
  rewrite rangeURL_eq, !rangePatterns_eq, switchMeta_eq, !rangeHeaderFields_eq.
  reflexivity.
Qed.

End TechRuleFacts.

Section CreateRuleFacts.
Import DetectionRule.

Lemma nonempty_eqb (website : string) :
  website <> EmptyString -> negb (String.eqb website EmptyString) = true.
Proof. intros H. by destruct (String.eqb_spec website EmptyString). Qed.

(** cmd/convertTechJSON: the website block appends the URL signature and
    the anchor pattern. *)
Lemma TechJSON_createRule_eq name details :
  TechJSON.createRule name details
  = let rule := TechRule.beforeWebsite name details in
    let website := Technology.Website details in
    if decide (website = EmptyString) then rule
    else mk (RuleName rule) (ObjectName rule) (Implies rule) (HTTPHeaderFields rule)
            (MetaTags rule)
            (PageContentPatterns rule ++ [websitePattern "a" "href" website])
            (SSLSignatures rule)
            (URLPatterns rule ++ [urlSignature website]).
Proof.
  unfold TechJSON.createRule. simpl.
  destruct (String.eqb_spec (Technology.Website details) EmptyString) as [E|E];
    destruct (decide (Technology.Website details = EmptyString)); try contradiction;
    reflexivity.
Qed.

(** The category-aware converter: the URL signature, then the anchor, link
    and script patterns. *)
Lemma CatTechJSON_createRule_eq name details :
  CatTechJSON.createRule name details
  = let rule := TechRule.beforeWebsite name details in
    let website := Technology.Website details in
    if decide (website = EmptyString) then rule
    else mk (RuleName rule) (ObjectName rule) (Implies rule) (HTTPHeaderFields rule)
            (MetaTags rule)
            (PageContentPatterns rule
             ++ [websitePattern "a" "href" website;
                 websitePattern "link" "href" website;
                 websitePattern "script" "src" website])
            (SSLSignatures rule)
            (URLPatterns rule ++ [urlSignature website]).
Proof.
  unfold CatTechJSON.createRule. simpl.
  destruct (String.eqb_spec (Technology.Website details) EmptyString) as [E|E];
    destruct (decide (Technology.Website details = EmptyString)); try contradiction;
    [reflexivity|].
  unfold appendPageContentPattern, appendURLPattern; simpl. by rewrite <- !app_assoc.
Qed.

(** In both converters the meta tags of the rule are those of the [Meta]
    field, whatever the other fields hold. *)
Lemma createRule_MetaTags createRule name details :
  createRule ∈ [TechJSON.createRule; CatTechJSON.createRule] ->
  MetaTags (createRule name details) = metaTagsOf (Technology.Meta details).
Proof.
  intros Hin. apply elem_of_cons in Hin as [->|Hin];
    [|apply list_elem_of_singleton in Hin as ->].
  - rewrite TechJSON_createRule_eq, beforeWebsite_eq. simpl.
    by destruct (decide _).
  - rewrite CatTechJSON_createRule_eq, beforeWebsite_eq. simpl.
    by destruct (decide _).
Qed.

Lemma metaTagOf_name kv t : metaTagOf kv = Some t -> MetaTag.Name t = kv.1.
Proof.
  destruct kv as [k v]. unfold metaTagOf. simpl.
  destruct v; intros [= <-]; reflexivity.
Qed.

Lemma tagsNamed_absent k (entries : list (string * Any)) :
  k ∉ entries.*1 -> tagsNamed k (omap metaTagOf entries) = [].
Proof.
  unfold tagsNamed. induction entries as [|kv entries IH]; intros Hk; [reflexivity|].
  apply not_elem_of_cons in Hk as [Hne Hk]. simpl.
  destruct (metaTagOf kv) as [t|] eqn:E; [|by apply IH].
  rewrite filter_cons. apply metaTagOf_name in E.
  destruct (decide _) as [Heq|_]; [congruence | by apply IH].
Qed.

Lemma tagsNamed_entry k v (entries : list (string * Any)) :
  NoDup entries.*1 -> (k, v) ∈ entries ->
  tagsNamed k (omap metaTagOf entries) = option_list (metaTagOf (k, v)).
Proof.
  induction entries as [|[k0 v0] entries IH]; intros Hnd Hin.
  - by apply elem_of_nil in Hin.
  - simpl in Hnd. apply NoDup_cons in Hnd as [Hk0 Hnd].
    apply elem_of_cons in Hin as [[= -> ->]|Hin].
    + simpl. unfold tagsNamed.
      destruct (metaTagOf (k0, v0)) as [t|] eqn:E; simpl.
      * rewrite filter_cons. pose proof (metaTagOf_name _ _ E) as Hn. simpl in Hn.
        destruct (decide _) as [_|Hne]; [|contradiction].
        f_equal. by apply tagsNamed_absent.
      * by apply tagsNamed_absent.
    + assert (k <> k0) as Hne.
      { intros ->. apply Hk0. apply list_elem_of_fmap. by exists (k0, v). }
      simpl. destruct (metaTagOf (k0, v0)) as [t|] eqn:E; [|by apply IH].
      unfold tagsNamed. rewrite filter_cons.
      pose proof (metaTagOf_name _ _ E) as Hn. simpl in Hn.
      destruct (decide _) as [Heq|_]; [congruence|]. by apply IH.
Qed.

Lemma tagsNamed_string_entry k s (entries : list (string * string)) :
  NoDup entries.*1 -> (k, s) ∈ entries ->
  tagsNamed k (map (fun kv => MetaTag.mk kv.1 [kv.2] 10) entries) = [MetaTag.mk k [s] 10].
Proof.
  unfold tagsNamed.
  assert (forall (es : list (string * string)), k ∉ es.*1 ->
            filter (fun t => MetaTag.Name t = k)
                   (map (fun kv => MetaTag.mk kv.1 [kv.2] 10) es) = []) as Habsent.
  { induction es as [|kv es IHes]; intros Hk; [reflexivity|].
    apply not_elem_of_cons in Hk as [Hne Hk]. simpl. rewrite filter_cons. simpl.
    destruct (decide _) as [Heq|_]; [congruence | by apply IHes]. }
  induction entries as [|[k0 s0] entries IH]; intros Hnd Hin.
  - by apply elem_of_nil in Hin.
  - simpl in Hnd. apply NoDup_cons in Hnd as [Hk0 Hnd].
    apply elem_of_cons in Hin as [[= -> ->]|Hin]; simpl; rewrite filter_cons; simpl.
    + destruct (decide _) as [_|Hne]; [|contradiction]. f_equal. by apply Habsent.
    + destruct (decide _) as [Heq|_]; [|by apply IH].
      exfalso. apply Hk0. apply list_elem_of_fmap. exists (k, s). by split.
Qed.

Lemma stringItems_filter items :
  AString <$> TechRule.stringItems items = filter (fun x => isString x = true) items.
Proof.
  unfold TechRule.stringItems. induction items as [|x items IH]; [reflexivity|].
  destruct x;
    first [ rewrite filter_cons_True by reflexivity; simpl; f_equal; exact IH
          | rewrite filter_cons_False by done; exact IH ].
Qed.

End CreateRuleFacts.

(** ** The website block *)

Section Website.
Import DetectionRule.

Lemma attributed_patterns key vs : attributed (map (pattern key) vs) = [].
Proof.
  unfold attributed. induction vs as [|v vs IH]; [reflexivity|].
  simpl. by rewrite filter_cons_False by (intros H; by apply H).
Qed.

Lemma attributed_before name details :
  attributed (PageContentPatterns (TechRule.beforeWebsite name details)) = [].
Proof.
  rewrite beforeWebsite_eq. simpl. unfold attributed.
  rewrite filter_app. fold (attributed (map (pattern "html") (Technology.Html details))).
  fold (attributed (map (pattern "script") (Technology.Scripts details))).
  by rewrite !attributed_patterns.
Qed.

(** The category-aware converter: with a website set, the block appends one
    URL micro-signature and the anchor, link and script patterns, and these
    three are all the signatures of the rule that name an attribute. *)
Lemma CatTechJSON_createRule_website name details :
  Technology.Website details <> EmptyString ->
  let website := Technology.Website details in
  let before := TechRule.beforeWebsite name details in
  let rule := CatTechJSON.createRule name details in
  URLPatterns rule = URLPatterns before ++ [URLMicroSignature.mk website 10]
  /\ PageContentPatterns rule
     = PageContentPatterns before
       ++ [PageContentSignature.mk "a" "href" [website] [] 10;
           PageContentSignature.mk "link" "href" [website] [] 10;
           PageContentSignature.mk "script" "src" [website] [] 10]
  /\ attributed (PageContentPatterns rule)
     = [PageContentSignature.mk "a" "href" [website] [] 10;
        PageContentSignature.mk "link" "href" [website] [] 10;
        PageContentSignature.mk "script" "src" [website] [] 10]
  /\ HTTPHeaderFields rule = HTTPHeaderFields before
  /\ MetaTags rule = MetaTags before.
Proof.
  intros Hset website before rule. subst rule.
  rewrite CatTechJSON_createRule_eq. simpl.
  destruct (decide _) as [E|_]; [contradiction|]. simpl.
  repeat split; try reflexivity.
  unfold attributed. rewrite filter_app.
  fold (attributed (PageContentPatterns (TechRule.beforeWebsite name details))).
  rewrite attributed_before. reflexivity.
Qed.

(** cmd/convertTechJSON: with a website set, the block appends one URL
    micro-signature and the anchor pattern only. *)
Lemma TechJSON_createRule_website name details :
  Technology.Website details <> EmptyString ->
  let website := Technology.Website details in
  let before := TechRule.beforeWebsite name details in
  let rule := TechJSON.createRule name details in
  URLPatterns rule = URLPatterns before ++ [URLMicroSignature.mk website 10]
  /\ PageContentPatterns rule
     = PageContentPatterns before ++ [PageContentSignature.mk "a" "href" [website] [] 10]
  /\ attributed (PageContentPatterns rule)
     = [PageContentSignature.mk "a" "href" [website] [] 10].
Proof.
  intros Hset website before rule. subst rule.
  rewrite TechJSON_createRule_eq. simpl.
  destruct (decide _) as [E|_]; [contradiction|]. simpl.
  repeat split; try reflexivity.
  unfold attributed. rewrite filter_app.
  fold (attributed (PageContentPatterns (TechRule.beforeWebsite name details))).
  rewrite attributed_before. reflexivity.
Qed.

Lemma CatTechJSON_createRule_website_witness :
  attributed (PageContentPatterns (CatTechJSON.createRule "Example" websiteTwice))
  = [PageContentSignature.mk "a" "href" ["https://example.org"] [] 10;
     PageContentSignature.mk "link" "href" ["https://example.org"] [] 10;
     PageContentSignature.mk "script" "src" ["https://example.org"] [] 10].
Proof.
  assert (Technology.Website websiteTwice <> EmptyString) as Hset by discriminate.
  destruct (CatTechJSON_createRule_website "Example" websiteTwice Hset)
    as (_ & _ & Hattr & _).
  exact Hattr.
Defined.

(** C1. On the record that only names the website https://example.org,
    [createRule] of cmd/convertTechJSON returns a rule with two signatures
    for that URL, the URL micro-signature and the anchor/href pattern: the
    link/href and script/src patterns of the claim are not there, while
    [createRule] of the category-aware converter returns all four. *)
Theorem TechJSON_createRule_website_two_signatures :
  let details := websiteOnly "https://example.org" in
  URLPatterns (TechJSON.createRule "Example" details)
  = [URLMicroSignature.mk "https://example.org" 10]
  /\ PageContentPatterns (TechJSON.createRule "Example" details)
     = [PageContentSignature.mk "a" "href" ["https://example.org"] [] 10]
  /\ PageContentPatterns (CatTechJSON.createRule "Example" details)
     = [PageContentSignature.mk "a" "href" ["https://example.org"] [] 10;
        PageContentSignature.mk "link" "href" ["https://example.org"] [] 10;
        PageContentSignature.mk "script" "src" ["https://example.org"] [] 10]
  /\ URLPatterns (CatTechJSON.createRule "Example" details)
     = [URLMicroSignature.mk "https://example.org" 10].
Proof.
  intros details.
  assert (Technology.Website details <> EmptyString) as Hset by discriminate.
  destruct (TechJSON_createRule_website "Example" details Hset) as (Hu & Hp & _).
  rewrite Hu, Hp. repeat split; reflexivity.
Qed.

End Website.

(** ** Meta normalisation *)

Section MetaNormalisation.
Import DetectionRule.

Lemma createRule_sameButMetaTags createRule name details meta :
  createRule ∈ [TechJSON.createRule; CatTechJSON.createRule] ->
  sameButMetaTags (createRule name (withMeta details meta)) (createRule name details).
Proof.
  intros Hin. apply elem_of_cons in Hin as [->|Hin];
    [|apply list_elem_of_singleton in Hin as ->].
  - rewrite !TechJSON_createRule_eq, !beforeWebsite_eq. simpl.
    destruct (decide _); repeat split; reflexivity.
  - rewrite !CatTechJSON_createRule_eq, !beforeWebsite_eq. simpl.
    destruct (decide _); repeat split; reflexivity.
Qed.

(** C2. In both technologies.json converters, for a [Meta] field that is a
    mapping (its keys are distinct, as in any Go map): an entry whose value
    is a string [s] gives exactly one meta tag of that name, with content
    [[s]]; an entry whose value is a sequence gives exactly one, whose
    content is the string elements of the sequence in order; an entry of any
    other type gives none.  The same holds for a [map[string]string].  The
    other fields of the rule do not depend on the [Meta] field at all, and
    whatever the [Meta] field holds they are processed: the name as object
    name, the implied technologies, one header field per header entry and
    then per cookie entry, one pattern per html entry and then per script
    entry followed by the patterns the converter adds for the website, no
    SSL signature, one URL signature per url entry and then the website;
    the rule name is spelled out for an ASCII name. *)
Theorem createRule_meta_normalization createRule name details :
  createRule ∈ [TechJSON.createRule; CatTechJSON.createRule] ->
  (forall entries k v,
      Technology.Meta details = AMap entries -> NoDup entries.*1 -> (k, v) ∈ entries ->
      tagsNamed k (MetaTags (createRule name details))
      = match v with
        | AString s => [MetaTag.mk k [s] 10]
        | ASlice items => [MetaTag.mk k (TechRule.stringItems items) 10]
        | _ => []
        end)
  /\ (forall items,
        AString <$> TechRule.stringItems items = filter (fun x => isString x = true) items)
  /\ (forall entries k s,
        Technology.Meta details = AMapString entries -> NoDup entries.*1 ->
        (k, s) ∈ entries ->
        tagsNamed k (MetaTags (createRule name details)) = [MetaTag.mk k [s] 10])
  /\ (forall meta,
        sameButMetaTags (createRule name (withMeta details meta)) (createRule name details))
  /\ (let rule := createRule name details in
      let website := Technology.Website details in
      ObjectName rule = name
      /\ Implies rule = Technology.Implies details
      /\ HTTPHeaderFields rule
         = map headerField (Technology.Headers details)
           ++ map headerField (Technology.Cookies details)
      /\ PageContentPatterns rule
         = map (pattern "html") (Technology.Html details)
           ++ map (pattern "script") (Technology.Scripts details)
           ++ PageContentPatterns (createRule name (websiteOnly website))
      /\ SSLSignatures rule = []
      /\ URLPatterns rule = map urlSignature (Technology.URL details) ++ websiteURL website
      /\ (isASCII name = true ->
          RuleName rule = "detect_" +:+ ToLower (ReplaceAll name " " "_"))).
Proof.
  intros Hin. split; [|split; [|split; [|split]]].
  - intros entries k v Hmeta Hnd Hkv.
    rewrite (createRule_MetaTags _ _ _ Hin), Hmeta. simpl.
    rewrite (tagsNamed_entry k v entries Hnd Hkv). unfold metaTagOf. simpl.
    by destruct v.
  - apply stringItems_filter.
  - intros entries k s Hmeta Hnd Hks.
    rewrite (createRule_MetaTags _ _ _ Hin), Hmeta. simpl.
    by apply tagsNamed_string_entry.
  - intros meta. by apply createRule_sameButMetaTags.
  - cbv zeta. unfold websiteURL, websiteOnly.
    apply elem_of_cons in Hin as [->|Hin]; [|apply list_elem_of_singleton in Hin as ->].
    + rewrite !TechJSON_createRule_eq, !beforeWebsite_eq. simpl.
      destruct (decide _); simpl; rewrite ?app_nil_r, <- ?app_assoc;
        repeat split; try reflexivity; intros _; reflexivity.
    + rewrite !CatTechJSON_createRule_eq, !beforeWebsite_eq. simpl.
      destruct (decide _); simpl; rewrite ?app_nil_r, <- ?app_assoc;
        repeat split; try reflexivity; intros _; reflexivity.
Qed.

Lemma createRule_meta_normalization_witness :
  tagsNamed "a" (MetaTags (TechJSON.createRule "T" metaExample)) = [MetaTag.mk "a" ["x"] 10]
  /\ tagsNamed "b" (MetaTags (TechJSON.createRule "T" metaExample))
     = [MetaTag.mk "b" ["x"; "y"] 10]
  /\ tagsNamed "c" (MetaTags (TechJSON.createRule "T" metaExample)) = []
  /\ HTTPHeaderFields (TechJSON.createRule "T" (withMeta metaExample (AFloat64 "5")))
     = HTTPHeaderFields (TechJSON.createRule "T" metaExample)
  /\ HTTPHeaderFields (TechJSON.createRule "T" (withMeta metaExample (AFloat64 "5")))
     = [HTTPHeaderField.mk "Server" ["nginx"] 10]
  /\ PageContentPatterns (TechJSON.createRule "T" (withMeta metaExample (AFloat64 "5")))
     = [pattern "html" "<html>"; websitePattern "a" "href" "https://example.org"].
Proof.
  assert (TechJSON.createRule ∈ [TechJSON.createRule; CatTechJSON.createRule]) as Hin
    by apply list_elem_of_here.
  destruct (createRule_meta_normalization TechJSON.createRule "T" metaExample Hin)
    as (Hmap & _ & _ & Hsame & _).
  destruct (createRule_meta_normalization TechJSON.createRule "T"
              (withMeta metaExample (AFloat64 "5")) Hin)
    as (_ & _ & _ & _ & _ & _ & Hheaders & Hpatterns & _).
  assert (NoDup ["a"; "b"; "c"]) as Hnd by compute_done.
  split; [|split; [|split; [|split; [|split]]]].
  - apply (Hmap _ "a" (AString "x") eq_refl Hnd). apply list_elem_of_here.
  - apply (Hmap _ "b" (ASlice [AString "x"; AFloat64 "5"; AString "y"]) eq_refl Hnd).
    apply list_elem_of_further, list_elem_of_here.
  - apply (Hmap _ "c" (AFloat64 "5") eq_refl Hnd).
    do 2 apply list_elem_of_further. apply list_elem_of_here.
  - apply (Hsame (AFloat64 "5")).
  - exact Hheaders.
  - exact Hpatterns.
Defined.

End MetaNormalisation.

(** ** File names *)

Section FileNames.

Lemma append_cons c s t : String c s +:+ t = String c (s +:+ t).
Proof. reflexivity. Qed.

Lemma append_nil_l t : EmptyString +:+ t = t.
Proof. reflexivity. Qed.

Lemma mapBytes_compose f g s : mapBytes g (mapBytes f s) = mapBytes (fun c => g (f c)) s.
Proof. induction s as [|c s IH]; simpl; [reflexivity | by rewrite IH]. Qed.

Lemma mapBytes_ext f g s : (forall c, f c = g c) -> mapBytes f s = mapBytes g s.
Proof. intros H. induction s as [|c s IH]; simpl; [reflexivity | by rewrite H, IH]. Qed.

Lemma mapBytes_length f s : String.length (mapBytes f s) = String.length s.
Proof. induction s as [|c s IH]; simpl; [reflexivity | by rewrite IH]. Qed.

(** Replacing one byte by another is a map over the bytes. *)
Lemma ReplaceAll_byte s a b :
  ReplaceAll s (str1 a) (str1 b) = mapBytes (fun c => if Ascii.eqb c a then b else c) s.
Proof.
  unfold ReplaceAll. induction s as [|c s IH]; [reflexivity|].
  cbn [replaceFrom mapBytes]. unfold str1 at 1. cbn [String.prefix].
  destruct (ascii_dec a c) as [->|Hne].
  - rewrite Ascii.eqb_refl. assert (String.prefix EmptyString s = true) as ->
      by (by destruct s).
    cbn [String.length str1 Nat.sub]. rewrite IH. reflexivity.
  - destruct (Ascii.eqb_spec c a) as [->|_]; [contradiction|]. by rewrite IH.
Qed.

Lemma sanitize_eq category : CatTechJSON.sanitize category = mapBytes hyphenate category.
Proof.
  unfold CatTechJSON.sanitize.
  change " " with (str1 " "%char). change "-" with (str1 "-"%char).
  change "/" with (str1 "/"%char).
  rewrite !ReplaceAll_byte, !mapBytes_compose. apply mapBytes_ext.
  intros c. unfold hyphenate.
  destruct (Ascii.eqb_spec c " "%char) as [->|H1]; [reflexivity|].
  destruct (Ascii.eqb_spec c "/"%char) as [->|H2]; [reflexivity|].
  destruct (Ascii.eqb_spec c backslash) as [->|H3]; reflexivity.
Qed.

Lemma hasByte_mapBytes_hyphenate c category :
  c ∈ [" "%char; "/"%char; backslash] -> hasByte c (mapBytes hyphenate category) = false.
Proof.
  intros Hc. induction category as [|d s IH]; [reflexivity|].
  simpl. rewrite IH, orb_false_r. unfold hyphenate.
  destruct (Ascii.eqb_spec d " "%char) as [->|H1];
    [|destruct (Ascii.eqb_spec d "/"%char) as [->|H2];
      [|destruct (Ascii.eqb_spec d backslash) as [->|H3]]]; simpl.
  1-3: repeat (apply elem_of_cons in Hc as [->|Hc]); try reflexivity;
       by apply elem_of_nil in Hc.
  apply Ascii.eqb_neq. intros ->.
  repeat (apply elem_of_cons in Hc as [Hc|Hc]); try contradiction.
  by apply elem_of_nil in Hc.
Qed.

(** A directory without a per cent sign goes through [Sprintf] unchanged. *)
Lemma Sprintf_prefix prefix format args :
  hasByte percent prefix = false ->
  Sprintf (prefix +:+ format) args = (fun r => prefix +:+ r) <$> Sprintf format args.
Proof.
  induction prefix as [|c p IH]; intros Hp.
  - rewrite append_nil_l. by destruct (Sprintf format args).
  - cbn [hasByte] in Hp. apply orb_false_elim in Hp as [Hc Hp].
    rewrite append_cons. cbn [Sprintf].
    rewrite Ascii.eqb_sym in Hc. rewrite Hc, (IH Hp).
    by destruct (Sprintf format args).
Qed.

Lemma Sprintf_detect outPath category :
  hasByte percent outPath = false ->
  Sprintf (outPath +:+ "/detect-%s-ruleset.yaml") [category]
  = Some (outPath +:+ "/detect-" +:+ category +:+ "-ruleset.yaml").
Proof. intros Hp. by rewrite (Sprintf_prefix _ _ _ Hp). Qed.

(** C8. The category-aware converter replaces each space, slash and
    backslash of the bucket key by a hyphen (every other byte is kept, and
    none of the three is left) and builds the file name from the result, the
    way the static-table converters build it from the bucket key as it is.
    For an output directory without a per cent sign (the directory is part
    of the format string) the names are spelled out. *)
Theorem filename_sanitization category :
  CatTechJSON.sanitize category = mapBytes hyphenate category
  /\ (forall c, c ∈ [" "%char; "/"%char; backslash] ->
        hasByte c (CatTechJSON.sanitize category) = false)
  /\ (forall outPath,
        CatTechJSON.filename outPath category
        = Sprintf (outPath +:+ "/detect-%s-ruleset.yaml") [mapBytes hyphenate category]
        /\ TechJSON.filename outPath category
           = Sprintf (outPath +:+ "/detect-%s-ruleset.yaml") [category]
        /\ BuiltWith.filename outPath category
           = Sprintf (outPath +:+ "/detect-%s-ruleset.yaml") [category])
  /\ (forall outPath,
        hasByte percent outPath = false ->
        CatTechJSON.filename outPath category
        = Some (outPath +:+ "/detect-" +:+ mapBytes hyphenate category +:+ "-ruleset.yaml")
        /\ TechJSON.filename outPath category
           = Some (outPath +:+ "/detect-" +:+ category +:+ "-ruleset.yaml")
        /\ BuiltWith.filename outPath category
           = Some (outPath +:+ "/detect-" +:+ category +:+ "-ruleset.yaml")).
Proof.
  split; [apply sanitize_eq|]. split; [|split].
  - intros c Hc. rewrite sanitize_eq. by apply hasByte_mapBytes_hyphenate.
  - intros outPath. unfold CatTechJSON.filename. cbv zeta. rewrite sanitize_eq.
    repeat split; reflexivity.
  - intros outPath Hp. unfold CatTechJSON.filename. cbv zeta. rewrite sanitize_eq.
    repeat split; by apply Sprintf_detect.
Qed.

Lemma filename_sanitization_witness :
  CatTechJSON.filename "out" ("Web servers/CDN" +:+ str1 backslash +:+ "x")
  = Some "out/detect-Web-servers-CDN-x-ruleset.yaml"
  /\ TechJSON.filename "out" ("Web servers/CDN" +:+ str1 backslash +:+ "x")
     = Some ("out/detect-Web servers/CDN" +:+ str1 backslash +:+ "x-ruleset.yaml").
Proof.
  destruct (filename_sanitization ("Web servers/CDN" +:+ str1 backslash +:+ "x"))
    as (_ & _ & _ & Hnames).
  destruct (Hnames "out" eq_refl) as (Hcat & Hstatic & _).
  split; [exact Hcat | exact Hstatic].
Defined.

End FileNames.

(** ** Category bucketing *)

Section Bucketing.

Lemma TechJSON_newRuleset_group now category :
  exists g, Ruleset.RuleGroups (TechJSON.newRuleset now category) = [g]
            /\ RuleGroup.DetectionRules g = [].
Proof. eexists. split; reflexivity. Qed.

Lemma CatTechJSON_newRuleset_group now category :
  exists g, Ruleset.RuleGroups (CatTechJSON.newRuleset now category) = [g]
            /\ RuleGroup.DetectionRules g = [].
Proof. eexists. split; reflexivity. Qed.

Lemma BuiltWith_newRuleset_group now category :
  exists g, Ruleset.RuleGroups (BuiltWith.newRuleset now category) = [g]
            /\ RuleGroup.DetectionRules g = [].
Proof. eexists. split; reflexivity. Qed.

Lemma TechJSON_resolve_1 : TechJSON.resolve "1" = Some "cms".
Proof. vm_compute. reflexivity. Qed.

Lemma TechJSON_resolve_3 : TechJSON.resolve "3" = Some "web_frameworks".
Proof. vm_compute. reflexivity. Qed.

(** C5. cmd/convertTechJSON, in any state [main] can be in after the
    records [earlier]: a record with the category list ["1"; "3"] is
    appended, as the one rule [createRule] returns for it, to the rules of
    the cms bucket and to those of the web_frameworks bucket, the table
    mapping 1 to cms and 3 to web_frameworks; no other bucket changes. *)
Theorem TechJSON_category_fan_out now earlier name details rulesets :
  Technology.Cats details = ["1"; "3"] ->
  TechJSON.main now earlier = Some rulesets ->
  TechJSON.categoryMappings !! "1" = Some "cms"
  /\ TechJSON.categoryMappings !! "3" = Some "web_frameworks"
  /\ exists rulesets',
       TechJSON.main now (earlier ++ [(name, details)]) = Some rulesets'
       /\ bucketRules rulesets' "cms"
          = bucketRules rulesets "cms" ++ [TechJSON.createRule name details]
       /\ bucketRules rulesets' "web_frameworks"
          = bucketRules rulesets "web_frameworks" ++ [TechJSON.createRule name details]
       /\ (forall category, category <> "cms" -> category <> "web_frameworks" ->
             rulesets' !! category = rulesets !! category).
Proof.
  intros Hcats Hearlier.
  split; [exact TechJSON_resolve_1|]. split; [exact TechJSON_resolve_3|].
  unfold TechJSON.main, Bucket.bucketAll in *.
  destruct (bucketLoop_inv TechJSON.resolve (TechJSON.newRuleset now) TechJSON.createRule
              Technology.Cats (fun _ => True) (TechJSON_newRuleset_group now)
              (fun _ _ => I) earlier ∅ (map_Forall_empty _))
    as (rs & Hrs & Hinv).
  rewrite Hearlier in Hrs. injection Hrs as <-.
  rewrite bucketLoop_app, Hearlier. simpl.
  unfold Bucket.bucketTech. simpl. rewrite Hcats.
  destruct (bucketCats_spec TechJSON.resolve (TechJSON.newRuleset now) (fun _ => True)
              (TechJSON_newRuleset_group now) (TechJSON.createRule name details)
              ["1"; "3"] rulesets I Hinv) as (rs' & Hstep & _ & Hrules & Hsame).
  rewrite Hstep. simpl. exists rs'. split; [reflexivity|].
  assert (forall category,
            hits TechJSON.resolve category ["1"; "3"]
            = ((if decide (category = "cms") then 1 else 0)
               + (if decide (category = "web_frameworks") then 1 else 0))%nat) as Hhits.
  { intros category. unfold hits. rewrite !filter_cons, filter_nil.
    rewrite TechJSON_resolve_1, TechJSON_resolve_3.
    repeat destruct (decide _); simpl; congruence. }
  split; [|split].
  - rewrite Hrules, Hhits. reflexivity.
  - rewrite Hrules, Hhits. reflexivity.
  - intros category H1 H2. apply Hsame. rewrite Hhits.
    by rewrite !decide_False by assumption.
Qed.

Lemma TechJSON_category_fan_out_witness :
  exists rulesets',
    TechJSON.main (fun _ => "2024-01-01T00:00:00Z") [("Example", fanOutExample)]
    = Some rulesets'
    /\ bucketRules rulesets' "cms" = [TechJSON.createRule "Example" fanOutExample]
    /\ bucketRules rulesets' "web_frameworks" = [TechJSON.createRule "Example" fanOutExample].
Proof.
  destruct (TechJSON_category_fan_out (fun _ => "2024-01-01T00:00:00Z") []
              "Example" fanOutExample ∅ eq_refl eq_refl)
    as (_ & _ & rulesets' & Hrun & Hcms & Hweb & _).
  exists rulesets'. split; [exact Hrun|]. split; [exact Hcms | exact Hweb].
Defined.

Lemma skipsUnresolved_holds {Cat Details R : Type}
  (resolve : Cat -> option string) (newRuleset : string -> Ruleset.t R)
  (createRule : string -> Details -> R) (cats : Details -> list Cat) :
  (forall category, exists g,
      Ruleset.RuleGroups (newRuleset category) = [g] /\ RuleGroup.DetectionRules g = []) ->
  skipsUnresolved resolve newRuleset createRule cats.
Proof.
  intros Hnew. unfold skipsUnresolved. split; [|split; [|split; [|split]]].
  - intros. by apply bucketCat_unresolved.
  - intros. by apply bucketCats_drop_unresolved.
  - intros rulesets tech Hall. unfold Bucket.bucketTech.
    by apply bucketCats_all_unresolved.
  - intros techs1 tech techs2 Hall. unfold Bucket.bucketAll.
    rewrite !bucketLoop_app.
    destruct (Bucket.bucketLoop resolve newRuleset createRule cats ∅ techs1) as [rs|];
      [|reflexivity].
    simpl. unfold Bucket.bucketTech at 1.
    by rewrite bucketCats_all_unresolved.
  - intros techs.
    destruct (bucketAll_inv resolve newRuleset createRule cats (fun _ => True) Hnew
                (fun _ _ => I) techs) as (rs & -> & _).
    by eexists.
Qed.

(** C6. In the three converters that bucket by category, a category code
    that is not in the table (or not in the categories of the input
    document) is skipped, the other codes of the record being handled as if
    it were not there; a record all of whose codes are unresolved reaches no
    bucket and creates none, so the run gives what it gives without the
    record; and the bucketing loop never fails. *)
Theorem unresolved_categories_are_skipped :
  (forall now,
      skipsUnresolved TechJSON.resolve (TechJSON.newRuleset now)
        TechJSON.createRule Technology.Cats)
  /\ (forall cat, TechJSON.resolve cat = None <-> TechJSON.categoryMappings !! cat = None)
  /\ (forall now categories,
        skipsUnresolved (CatTechJSON.resolve categories) (CatTechJSON.newRuleset now)
          CatTechJSON.createRule Technology.Cats)
  /\ (forall categories cat,
        CatTechJSON.resolve categories cat = None <-> categories !! cat = None)
  /\ (forall now,
        skipsUnresolved BuiltWith.resolve (BuiltWith.newRuleset now)
          BuiltWith.createRule BuiltWith.BuiltWithTechnology.Categories)
  /\ (forall cat, BuiltWith.resolve cat = None <-> BuiltWith.categoryMappings !! cat = None).
Proof.
  split; [|split; [|split; [|split; [|split]]]].
  - intros now. apply skipsUnresolved_holds, TechJSON_newRuleset_group.
  - reflexivity.
  - intros now categories. apply skipsUnresolved_holds, CatTechJSON_newRuleset_group.
  - intros categories cat. unfold CatTechJSON.resolve. apply fmap_None.
  - intros now. apply skipsUnresolved_holds, BuiltWith_newRuleset_group.
  - reflexivity.
Qed.

Lemma unresolved_categories_are_skipped_witness :
  TechJSON.main (fun _ => "2024-01-01T00:00:00Z") [("Example", unresolvedExample)]
  = Some ∅.
Proof.
  destruct unresolved_categories_are_skipped as (Htech & _).
  destruct (Htech (fun _ => "2024-01-01T00:00:00Z")) as (_ & _ & _ & Hdrop & _).
  apply (Hdrop [] ("Example", unresolvedExample) []).
  repeat constructor.
Defined.

(** The bucketing pass as a whole, for the three converters: it never
    fails, and at its end each bucket holds, in the order of the records, the
    rule of every record once per code of the record that resolves to the
    bucket. *)
Theorem buckets_rules :
  (forall now techs, exists rulesets,
      TechJSON.main now techs = Some rulesets
      /\ forall category,
           bucketRules rulesets category
           = concat (map (sent TechJSON.resolve TechJSON.createRule Technology.Cats
                            category) techs))
  /\ (forall now technologies, exists rulesets,
        CatTechJSON.main now technologies = Some rulesets
        /\ forall category,
             bucketRules rulesets category
             = concat (map (sent (CatTechJSON.resolve
                                    (CatTechJSON.Technologies.Categories technologies))
                              CatTechJSON.createRule Technology.Cats category)
                         (CatTechJSON.Technologies.Technologies technologies)))
  /\ (forall now techs, exists rulesets,
        BuiltWith.main now techs = Some rulesets
        /\ forall category,
             bucketRules rulesets category
             = concat (map (sent BuiltWith.resolve BuiltWith.createRule
                              BuiltWith.BuiltWithTechnology.Categories category) techs)).
Proof.
  split; [|split].
  - intros now techs.
    apply (bucketAll_rules TechJSON.resolve (TechJSON.newRuleset now) TechJSON.createRule
             Technology.Cats (fun _ => True) (TechJSON_newRuleset_group now)
             (fun _ _ => I) techs).
  - intros now technologies.
    apply (bucketAll_rules (CatTechJSON.resolve _) (CatTechJSON.newRuleset now)
             CatTechJSON.createRule Technology.Cats (fun _ => True)
             (CatTechJSON_newRuleset_group now) (fun _ _ => I)).
  - intros now techs.
    apply (bucketAll_rules BuiltWith.resolve (BuiltWith.newRuleset now)
             BuiltWith.createRule BuiltWith.BuiltWithTechnology.Categories
             (fun _ => True) (BuiltWith_newRuleset_group now) (fun _ _ => I) techs).
Qed.

End Bucketing.

(** ** The single-bucket converters: the scanning loop *)

Lemma appendRule_appendRules {R} (ruleset : Ruleset.t R) (rule : R) :
  Ruleset.RuleGroups ruleset <> [] ->
  appendRule ruleset rule = Some (appendRules ruleset [rule]).
Proof.
  unfold appendRule, appendRules. by destruct (Ruleset.RuleGroups ruleset).
Qed.

Lemma appendRules_nil {R} (ruleset : Ruleset.t R) : appendRules ruleset [] = ruleset.
Proof.
  unfold appendRules. destruct ruleset as [n v a c d [|[gn ge gr] gs]]; simpl;
    [reflexivity|]. by rewrite app_nil_r.
Qed.

Lemma appendRules_app {R} (ruleset : Ruleset.t R) (rules1 rules2 : list R) :
  appendRules (appendRules ruleset rules1) rules2 = appendRules ruleset (rules1 ++ rules2).
Proof.
  unfold appendRules. destruct (Ruleset.RuleGroups ruleset) as [|g gs] eqn:E; simpl.
  - by rewrite E.
  - by rewrite <- app_assoc.
Qed.

Lemma appendRules_groups {R} (ruleset : Ruleset.t R) (rules : list R) :
  Ruleset.RuleGroups ruleset <> [] -> Ruleset.RuleGroups (appendRules ruleset rules) <> [].
Proof.
  unfold appendRules. destruct (Ruleset.RuleGroups ruleset) eqn:E; [by rewrite E|].
  intros _. discriminate.
Qed.

Lemma rulesOf_appendRules {R} (ruleset : Ruleset.t R) (rules : list R) :
  Ruleset.RuleGroups ruleset <> [] ->
  rulesOf (appendRules ruleset rules) = rulesOf ruleset ++ rules.
Proof.
  unfold appendRules, rulesOf. by destruct (Ruleset.RuleGroups ruleset).
Qed.

Section ScanFacts.
Context {R : Type}.
Variable scanLine : Ruleset.t R -> string -> option (Ruleset.t R).

(** The rule the body of the loop appends for a line, if any. *)
Variable lineRule : string -> option R.

Hypothesis scanLine_eq : forall ruleset line,
  Ruleset.RuleGroups ruleset <> [] ->
  scanLine ruleset line = Some (appendRules ruleset (option_list (lineRule line))).

(** The loop never fails, and appends the rules of the lines in order. *)
Lemma scanLoop_eq lines : forall ruleset,
  Ruleset.RuleGroups ruleset <> [] ->
  scanLoop scanLine ruleset lines = Some (appendRules ruleset (omap lineRule lines)).
Proof.
  induction lines as [|line lines IH]; intros ruleset Hne; simpl.
  - by rewrite appendRules_nil.
  - rewrite (scanLine_eq _ _ Hne). simpl.
    rewrite IH by (by apply appendRules_groups). rewrite appendRules_app.
    by destruct (lineRule line).
Qed.

End ScanFacts.

(** ** The ModSecurity converter *)

Section ModSecurityFacts.
Import ModSecurity.

Lemma findLeftmost_Some {A} (here : string -> option A) (s : string) (x : A) :
  findLeftmost here s = Some x -> exists suffix, here suffix = Some x.
Proof.
  induction s as [|c s IH]; simpl.
  - destruct (here EmptyString) eqn:E; [|discriminate]. intros [= <-]. eauto.
  - destruct (here (String c s)) eqn:E; [intros [= <-]; eauto | exact IH].
Qed.

Lemma delimitedHere_nonempty literal q s run :
  delimitedHere literal q s = Some run -> run <> EmptyString.
Proof.
  unfold delimitedHere. destruct (stripPrefix literal s) as [rest|]; [|discriminate].
  simpl. destruct (span _ rest) as [r after].
  destruct (String.eqb_spec r EmptyString) as [->|Hne]; [discriminate|].
  destruct after; [discriminate|]. by intros [= <-].
Qed.

(** The capture of the User-Agent expression is never empty, so that the
    test [modsecRule.UserAgent != ""] is the test for a match. *)
Lemma userAgentRe_nonempty line ua : userAgentRe line = Some ua -> ua <> EmptyString.
Proof.
  unfold userAgentRe. intros H. apply findLeftmost_Some in H as [suffix H].
  by eapply delimitedHere_nonempty.
Qed.

Lemma ModSecurity_scanLine_eq ruleset line :
  Ruleset.RuleGroups ruleset <> [] ->
  ModSecurity.scanLine ruleset line
  = Some (appendRules ruleset (option_list (modsecLineRule line))).
Proof.
  intros Hne. unfold ModSecurity.scanLine, modsecLineRule.
  destruct (HasPrefix line "#" || (String.length line =? 0)%nat).
  - simpl. by rewrite appendRules_nil.
  - unfold parseModSecurityRule, createDetectionRuleFromModSecurity. simpl.
    destruct (userAgentRe line) as [ua|] eqn:Hua; simpl.
    + rewrite (nonempty_eqb ua) by (by eapply userAgentRe_nonempty).
      by apply appendRule_appendRules.
    + by rewrite appendRules_nil.
Qed.

(** The whole run: it never fails, and the rules of the ruleset are the
    rules of the lines, in order. *)
Lemma ModSecurity_main_eq now lines :
  ModSecurity.main now lines
  = Some (appendRules (ModSecurity.initialRuleset now) (omap modsecLineRule lines)).
Proof.
  unfold ModSecurity.main.
  apply (scanLoop_eq ModSecurity.scanLine modsecLineRule ModSecurity_scanLine_eq).
  discriminate.
Qed.

End ModSecurityFacts.

Section ModSecurityClaims.
Import ModSecurity.

(** C3, as stated, fails: a commented-out rule holds both fragments and the
    converter emits no rule for it; a line whose identifier is 123456 holds
    both fragments too and gives the rule of 123456; and a line with an
    earlier User-Agent fragment gives a rule for that one. *)
Lemma modsec_fragments_counterexample :
  Contains commentedBadBotLine idFragment = true
  /\ Contains commentedBadBotLine badBotFragment = true
  /\ ModSecurity.main "2024-01-01T00:00:00Z" [commentedBadBotLine]
     = Some (ModSecurity.initialRuleset "2024-01-01T00:00:00Z")
  /\ Contains longerIdLine idFragment = true
  /\ Contains longerIdLine badBotFragment = true
  /\ (rulesOf <$> ModSecurity.main "2024-01-01T00:00:00Z" [longerIdLine])
     = Some [ModSecurity.DetectionRule.mk "detect_modsec_rule_123456"
               "ModSecurity Rule 123456"
               [HTTPHeaderField.mk "User-Agent" ["BadBot"] 10]]
  /\ Contains earlierAgentLine idFragment = true
  /\ Contains earlierAgentLine badBotFragment = true
  /\ (rulesOf <$> ModSecurity.main "2024-01-01T00:00:00Z" [earlierAgentLine])
     = Some [ModSecurity.DetectionRule.mk "detect_modsec_rule_12345"
               "ModSecurity Rule 12345"
               [HTTPHeaderField.mk "User-Agent" ["GoodBot"] 10]].
Proof. repeat split; vm_compute; reflexivity. Qed.

(** C3, amended.  For a line that is not a comment: when the leftmost
    match of the User-Agent expression captures BadBot and the leftmost
    match of the identifier expression captures 12345, the loop body appends
    exactly the rule detect_modsec_rule_12345 with the one header field
    User-Agent, [BadBot], 10 (to a ruleset that has its first group, as the
    one of [main] has), and so does a run that ends with this line.  For any
    line without a User-Agent match nothing is appended. *)
Theorem modsec_badbot_rule line :
  (HasPrefix line "#" = false ->
   userAgentRe line = Some "BadBot" -> idRe line = Some "12345" ->
   (forall ruleset, Ruleset.RuleGroups ruleset <> [] ->
      ModSecurity.scanLine ruleset line = Some (appendRules ruleset [rule12345]))
   /\ (forall now before,
         ModSecurity.main now (before ++ [line])
         = (fun ruleset => appendRules ruleset [rule12345])
             <$> ModSecurity.main now before))
  /\ (userAgentRe line = None ->
      (forall ruleset, ModSecurity.scanLine ruleset line = Some ruleset)
      /\ (forall now before,
            ModSecurity.main now (before ++ [line]) = ModSecurity.main now before)).
Proof.
  split.
  - intros Hcomment Hua Hid.
    assert (modsecLineRule line = Some rule12345) as Hrule.
    { unfold modsecLineRule. rewrite Hcomment, Hua, Hid.
      destruct line; [discriminate Hua | reflexivity]. }
    split.
    + intros ruleset Hne. by rewrite (ModSecurity_scanLine_eq _ _ Hne), Hrule.
    + intros now before. rewrite !ModSecurity_main_eq, omap_app. simpl.
      by rewrite Hrule, appendRules_app.
  - intros Hua.
    assert (modsecLineRule line = None) as Hrule.
    { unfold modsecLineRule. rewrite Hua. by destruct (_ || _). }
    split.
    + intros ruleset. unfold ModSecurity.scanLine, parseModSecurityRule. simpl.
      rewrite Hua. by destruct (_ || _).
    + intros now before. rewrite !ModSecurity_main_eq, omap_app. simpl.
      by rewrite Hrule, app_nil_r.
Qed.

Lemma modsec_badbot_rule_witness :
  ModSecurity.main "2024-01-01T00:00:00Z" ["# rules"; badBotLine]
  = Some (appendRules (ModSecurity.initialRuleset "2024-01-01T00:00:00Z") [rule12345])
  /\ ModSecurity.scanLine (ModSecurity.initialRuleset "2024-01-01T00:00:00Z")
       "SecRule ARGS attack id:7"
     = Some (ModSecurity.initialRuleset "2024-01-01T00:00:00Z").
Proof.
  split.
  - destruct (modsec_badbot_rule badBotLine) as (Hrule & _).
    destruct (Hrule eq_refl eq_refl eq_refl) as (_ & Hrun).
    exact (Hrun "2024-01-01T00:00:00Z" ["# rules"]).
  - destruct (modsec_badbot_rule "SecRule ARGS attack id:7") as (_ & Hnone).
    destruct (Hnone eq_refl) as (Hbody & _).
    exact (Hbody (ModSecurity.initialRuleset "2024-01-01T00:00:00Z")).
Defined.

(** C9, as stated, fails on a commented-out rule: it has an extractable
    User-Agent and no identifier, and no rule is kept for it. *)
Lemma modsec_no_id_counterexample :
  userAgentRe commentedNoIdLine = Some "BadBot"
  /\ idRe commentedNoIdLine = None
  /\ ModSecurity.main "2024-01-01T00:00:00Z" [commentedNoIdLine]
     = Some (ModSecurity.initialRuleset "2024-01-01T00:00:00Z").
Proof. repeat split; vm_compute; reflexivity. Qed.

(** C9, amended.  For a line that is not a comment, with a User-Agent
    match and no identifier match: the identifier is the empty string, and
    the loop body appends the rule named detect_modsec_rule_ with the object
    name that ends in a space (to a ruleset that has its first group), and
    so does a run that ends with this line.  Among the lines that are not
    comments, the User-Agent match alone decides whether a rule is kept. *)
Theorem modsec_rule_without_id line :
  HasPrefix line "#" = false ->
  (forall ua,
      userAgentRe line = Some ua -> idRe line = None ->
      let rule := ModSecurity.DetectionRule.mk "detect_modsec_rule_" "ModSecurity Rule "
                    [HTTPHeaderField.mk "User-Agent" [ua] 10] in
      ModSecurityRule.ID (parseModSecurityRule line) = EmptyString
      /\ (forall ruleset, Ruleset.RuleGroups ruleset <> [] ->
            ModSecurity.scanLine ruleset line = Some (appendRules ruleset [rule]))
      /\ (forall now before,
            ModSecurity.main now (before ++ [line])
            = (fun ruleset => appendRules ruleset [rule])
                <$> ModSecurity.main now before))
  /\ (forall ua ruleset,
        userAgentRe line = Some ua -> Ruleset.RuleGroups ruleset <> [] ->
        exists rule, ModSecurity.scanLine ruleset line = Some (appendRules ruleset [rule]))
  /\ (userAgentRe line = None ->
      forall ruleset, ModSecurity.scanLine ruleset line = Some ruleset).
Proof.
  intros Hcomment. split; [|split].
  - intros ua Hua Hid rule.
    assert (modsecLineRule line = Some rule) as Hrule.
    { unfold modsecLineRule. rewrite Hcomment, Hua, Hid.
      destruct line; [discriminate Hua | reflexivity]. }
    split; [|split].
    + unfold parseModSecurityRule. simpl. by rewrite Hid.
    + intros ruleset Hne. by rewrite (ModSecurity_scanLine_eq _ _ Hne), Hrule.
    + intros now before. rewrite !ModSecurity_main_eq, omap_app. simpl.
      by rewrite Hrule, appendRules_app.
  - intros ua ruleset Hua Hne. rewrite (ModSecurity_scanLine_eq _ _ Hne).
    unfold modsecLineRule. rewrite Hcomment, Hua.
    destruct line; [discriminate Hua|]. simpl. eauto.
  - intros Hua ruleset. unfold ModSecurity.scanLine, parseModSecurityRule. simpl.
    rewrite Hua. by destruct (_ || _).
Qed.

Lemma modsec_rule_without_id_witness :
  ModSecurity.main "2024-01-01T00:00:00Z" [noIdLine]
  = Some (appendRules (ModSecurity.initialRuleset "2024-01-01T00:00:00Z")
            [ModSecurity.DetectionRule.mk "detect_modsec_rule_" "ModSecurity Rule "
               [HTTPHeaderField.mk "User-Agent" ["BadBot"] 10]]).
Proof.
  destruct (modsec_rule_without_id noIdLine eq_refl) as (Hrule & _).
  destruct (Hrule "BadBot" eq_refl eq_refl) as (_ & _ & Hrun).
  exact (Hrun "2024-01-01T00:00:00Z" []).
Defined.

End ModSecurityClaims.

(** ** The favicon converter *)

Section FaviconFacts.
Import Favicon.

Lemma Favicon_scanLine_eq ruleset line :
  Ruleset.RuleGroups ruleset <> [] ->
  Favicon.scanLine ruleset line
  = Some (appendRules ruleset (option_list (faviconLineRule line))).
Proof.
  intros Hne. unfold Favicon.scanLine, faviconLineRule.
  destruct (HasPrefix line "#" || (String.length line =? 0)%nat).
  - simpl. by rewrite appendRules_nil.
  - destruct (CSV.Read line) as [[|f0 [|f1 [|f2 [|f3 fs]]]]|]; simpl;
      try (by rewrite appendRules_nil).
    by apply appendRule_appendRules.
Qed.

(** The whole run: it never fails; the first line is dropped, and the
    rules of the ruleset are the rules of the other lines, in order. *)
Lemma Favicon_main_eq now lines :
  Favicon.main now lines
  = Some (appendRules (Favicon.initialRuleset now) (omap faviconLineRule (tail lines))).
Proof.
  unfold Favicon.main.
  destruct lines as [|header lines]; cbv zeta;
    apply (scanLoop_eq Favicon.scanLine faviconLineRule Favicon_scanLine_eq);
    discriminate.
Qed.

(** C4. For the row with the fields 1, abc123 and Drupal, each in double
    quotes: the loop body appends exactly one rule, named detect_drupal, with
    the object name Drupal, one page-content signature whose MD5 list is
    [abc123] (confidence 10, nothing else set) and every other list empty;
    a file made of any header line and this row gives a ruleset whose rules
    are this one rule, and after any other rows the row adds this rule. *)
Theorem favicon_drupal_row :
  createFaviconRule "1" "abc123" "Drupal" = drupalRule
  /\ (forall ruleset, Ruleset.RuleGroups ruleset <> [] ->
        Favicon.scanLine ruleset drupalRow = Some (appendRules ruleset [drupalRule]))
  /\ (forall now header,
        Favicon.main now [header; drupalRow]
        = Some (appendRules (Favicon.initialRuleset now) [drupalRule]))
  /\ (forall now header,
        rulesOf <$> Favicon.main now [header; drupalRow] = Some [drupalRule])
  /\ (forall now header rows,
        Favicon.main now (header :: rows ++ [drupalRow])
        = (fun ruleset => appendRules ruleset [drupalRule])
            <$> Favicon.main now (header :: rows)).
Proof.
  assert (faviconLineRule drupalRow = Some drupalRule) as Hrow by reflexivity.
  split; [reflexivity|]. split; [|split; [|split]].
  - intros ruleset Hne. by rewrite (Favicon_scanLine_eq _ _ Hne), Hrow.
  - intros now header. rewrite Favicon_main_eq. reflexivity.
  - intros now header. rewrite Favicon_main_eq. reflexivity.
  - intros now header rows. rewrite !Favicon_main_eq. cbn [tail].
    rewrite omap_app. cbn [omap list_omap fmap option_fmap option_map].
    by rewrite Hrow, appendRules_app.
Qed.

Lemma favicon_drupal_row_witness :
  Favicon.scanLine (Favicon.initialRuleset "2024-01-01T00:00:00Z") drupalRow
  = Some (appendRules (Favicon.initialRuleset "2024-01-01T00:00:00Z") [drupalRule]).
Proof.
  destruct favicon_drupal_row as (_ & Hbody & _).
  apply Hbody. discriminate.
Defined.

(** C10. The first line never gives a rule, whatever it holds: the run
    gives what the loop gives on the other lines.  In particular a first
    line that is a well-formed row of three fields (the loop body would
    append its rule, were it met in the loop) is lost: the rules of the run
    are the rules of the lines after it, and a file with this line alone
    gives no rule. *)
Theorem favicon_first_line_discarded now first rest :
  Favicon.main now (first :: rest)
  = scanLoop Favicon.scanLine (Favicon.initialRuleset now) rest
  /\ (forall other, Favicon.main now (first :: rest) = Favicon.main now (other :: rest))
  /\ (forall f0 f1 f2,
        HasPrefix first "#" = false -> CSV.Read first = Some [f0; f1; f2] ->
        let rule := createFaviconRule (Trim f0 (str1 dquote)) (Trim f1 (str1 dquote))
                      (Trim f2 (str1 dquote)) in
        (forall ruleset, Ruleset.RuleGroups ruleset <> [] ->
           Favicon.scanLine ruleset first = Some (appendRules ruleset [rule]))
        /\ (rulesOf <$> Favicon.main now (first :: rest))
           = Some (omap faviconLineRule rest)
        /\ Favicon.main now [first] = Some (Favicon.initialRuleset now)).
Proof.
  split; [reflexivity|]. split; [reflexivity|].
  intros f0 f1 f2 Hcomment Hread rule. split; [|split].
  - intros ruleset Hne. rewrite (Favicon_scanLine_eq _ _ Hne).
    unfold faviconLineRule. rewrite Hcomment, Hread.
    destruct first; [discriminate Hread | reflexivity].
  - rewrite Favicon_main_eq. simpl. by rewrite rulesOf_appendRules by discriminate.
  - reflexivity.
Qed.

Lemma favicon_first_line_discarded_witness :
  (forall ruleset, Ruleset.RuleGroups ruleset <> [] ->
     Favicon.scanLine ruleset drupalRow = Some (appendRules ruleset [drupalRule]))
  /\ Favicon.main "2024-01-01T00:00:00Z" [drupalRow]
     = Some (Favicon.initialRuleset "2024-01-01T00:00:00Z")
  /\ (rulesOf <$> Favicon.main "2024-01-01T00:00:00Z" [drupalRow; drupalRow])
     = Some [drupalRule].
Proof.
  destruct (favicon_first_line_discarded "2024-01-01T00:00:00Z" drupalRow [])
    as (_ & _ & Hrow).
  destruct (Hrow "1" "abc123" "Drupal" eq_refl eq_refl) as (Hbody & _ & Halone).
  destruct (favicon_first_line_discarded "2024-01-01T00:00:00Z" drupalRow [drupalRow])
    as (_ & _ & Hrow').
  destruct (Hrow' "1" "abc123" "Drupal" eq_refl eq_refl) as (_ & Hrules & _).
  split; [exact Hbody|]. split; [exact Halone | exact Hrules].
Defined.

(** The two single-bucket converters as a whole: the run never fails, the
    ruleset keeps the name, version, author, time, description and group of
    the initial one, and its rules are the rules of the lines in order, the
    favicon converter leaving out its first line. *)
Theorem single_bucket_runs now lines :
  ModSecurity.main now lines
  = Some (appendRules (ModSecurity.initialRuleset now) (omap modsecLineRule lines))
  /\ (rulesOf <$> ModSecurity.main now lines) = Some (omap modsecLineRule lines)
  /\ Favicon.main now lines
     = Some (appendRules (Favicon.initialRuleset now) (omap faviconLineRule (tail lines)))
  /\ (rulesOf <$> Favicon.main now lines) = Some (omap faviconLineRule (tail lines)).
Proof.
  rewrite ModSecurity_main_eq, Favicon_main_eq. repeat split.
Qed.

End FaviconFacts.

(** ** The confidence of a signature *)

Section Confidence.

Lemma Forall_map_const {A B} (P : B -> Prop) (f : A -> B) (l : list A) :
  (forall x, P (f x)) -> Forall P (map f l).
Proof.
  intros H. apply Forall_forall. intros y Hy.
  apply list_elem_of_fmap in Hy as (x & -> & _). apply H.
Qed.

Lemma metaTagsOf_confidence meta :
  Forall (fun x => MetaTag.Confidence x = 10) (metaTagsOf meta).
Proof.
  destruct meta as [| | | | |entries|entries]; simpl; try constructor.
  - induction entries as [|[k v] entries IH]; [constructor|].
    simpl. unfold metaTagOf at 1. simpl. destruct v; try exact IH; by constructor.
  - by apply Forall_map_const.
Qed.

Lemma beforeWebsite_confidence name details :
  confidence10 (TechRule.beforeWebsite name details).
Proof.
  rewrite beforeWebsite_eq. unfold confidence10. simpl.
  repeat split; rewrite ?Forall_app; repeat split;
    first [ by apply Forall_map_const | apply metaTagsOf_confidence | constructor ].
Qed.

Lemma TechJSON_createRule_confidence name details :
  confidence10 (TechJSON.createRule name details).
Proof.
  pose proof (beforeWebsite_confidence name details) as (Hh & Hm & Hp & Hs & Hu).
  rewrite TechJSON_createRule_eq. cbv zeta.
  destruct (decide _); [by repeat split|].
  unfold confidence10. simpl. repeat split; try assumption;
    apply Forall_app; (split; [assumption|]); by repeat constructor.
Qed.

Lemma CatTechJSON_createRule_confidence name details :
  confidence10 (CatTechJSON.createRule name details).
Proof.
  pose proof (beforeWebsite_confidence name details) as (Hh & Hm & Hp & Hs & Hu).
  rewrite CatTechJSON_createRule_eq. cbv zeta.
  destruct (decide _); [by repeat split|].
  unfold confidence10. simpl. repeat split; try assumption;
    apply Forall_app; (split; [assumption|]); by repeat constructor.
Qed.

Lemma BuiltWith_headers_eq entries : forall rule,
  foldl (fun rule kv =>
           BuiltWith.DetectionRule.appendHTTPHeaderField rule
             (HTTPHeaderField.mk kv.1 [kv.2] 10)) rule entries
  = BuiltWith.DetectionRule.mk
      (BuiltWith.DetectionRule.RuleName rule) (BuiltWith.DetectionRule.ObjectName rule)
      (BuiltWith.DetectionRule.Implies rule)
      (BuiltWith.DetectionRule.HTTPHeaderFields rule ++ map headerField entries)
      (BuiltWith.DetectionRule.MetaTags rule)
      (BuiltWith.DetectionRule.PageContentPatterns rule)
      (BuiltWith.DetectionRule.URLPatterns rule).
Proof.
  induction entries as [|kv entries IH]; intros rule.
  - simpl. rewrite app_nil_r. by destruct rule.
  - simpl. rewrite IH. simpl. by rewrite <- app_assoc.
Qed.

Lemma BuiltWith_createRule_confidence name details :
  builtWithConfidence10 (BuiltWith.createRule name details).
Proof.
  unfold BuiltWith.createRule. cbv zeta. rewrite BuiltWith_headers_eq.
  unfold builtWithConfidence10.
  destruct (negb _); destruct (negb _); simpl;
    repeat split; repeat constructor; by apply Forall_map_const.
Qed.

Lemma createFaviconRule_confidence id md5hash description :
  faviconConfidence10 (Favicon.createFaviconRule id md5hash description).
Proof. unfold faviconConfidence10. simpl. by repeat constructor. Qed.

Lemma modsec_createRule_confidence modsecRule :
  modsecConfidence10 (ModSecurity.createDetectionRuleFromModSecurity modsecRule).
Proof. unfold modsecConfidence10. simpl. by repeat constructor. Qed.

Lemma rulesetForall_appendRules {R} (P : R -> Prop) (ruleset : Ruleset.t R) rules :
  rulesetForall P ruleset -> Forall P rules -> rulesetForall P (appendRules ruleset rules).
Proof.
  unfold rulesetForall, appendRules. intros Hall Hrules.
  destruct (Ruleset.RuleGroups ruleset) as [|g gs] eqn:E; [by rewrite E|].
  simpl. inversion Hall; subst. constructor; [|assumption].
  simpl. apply Forall_app. by split.
Qed.

Lemma Forall_omap_lineRule {R} (P : R -> Prop) (lineRule : string -> option R) lines :
  (forall line rule, lineRule line = Some rule -> P rule) ->
  Forall P (omap lineRule lines).
Proof.
  intros H. induction lines as [|line lines IH]; [constructor|].
  simpl. destruct (lineRule line) eqn:E; [constructor; eauto | exact IH].
Qed.

Lemma faviconLineRule_confidence line rule :
  faviconLineRule line = Some rule -> faviconConfidence10 rule.
Proof.
  unfold faviconLineRule. destruct (_ || _); [discriminate|].
  destruct (CSV.Read line) as [[|f0 [|f1 [|f2 [|f3 fs]]]]|]; try discriminate.
  intros [= <-]. apply createFaviconRule_confidence.
Qed.

Lemma modsecLineRule_confidence line rule :
  modsecLineRule line = Some rule -> modsecConfidence10 rule.
Proof.
  unfold modsecLineRule. destruct (_ || _); [discriminate|].
  destruct (ModSecurity.userAgentRe line); [|discriminate].
  intros [= <-]. unfold modsecConfidence10. simpl. by repeat constructor.
Qed.

(** The rules of every bucket of a finished bucketing pass satisfy what
    [createRule] guarantees. *)
Lemma buckets_Forall {Cat Details R : Type}
  (resolve : Cat -> option string) (newRuleset : string -> Ruleset.t R)
  (createRule : string -> Details -> R) (cats : Details -> list Cat) (P : R -> Prop)
  techs rulesets :
  (forall category, exists g,
      Ruleset.RuleGroups (newRuleset category) = [g] /\ RuleGroup.DetectionRules g = []) ->
  (forall name details, P (createRule name details)) ->
  Bucket.bucketAll resolve newRuleset createRule cats techs = Some rulesets ->
  map_Forall (fun _ ruleset => rulesetForall P ruleset) rulesets.
Proof.
  intros Hnew HP Hrun.
  destruct (bucketAll_inv resolve newRuleset createRule cats P Hnew HP techs)
    as (rs & Hrs & Hinv).
  rewrite Hrun in Hrs. injection Hrs as <-.
  intros category ruleset Hlook. by destruct (Hinv _ _ Hlook).
Qed.

(** C7. Every signature of every rule a converter builds has confidence
    10: for the rule of one record or line, and for every rule of every
    ruleset at the end of a run. *)
Theorem every_confidence_is_10 :
  (forall name details, confidence10 (TechJSON.createRule name details))
  /\ (forall name details, confidence10 (CatTechJSON.createRule name details))
  /\ (forall name details, builtWithConfidence10 (BuiltWith.createRule name details))
  /\ (forall id md5hash description,
        faviconConfidence10 (Favicon.createFaviconRule id md5hash description))
  /\ (forall modsecRule,
        modsecConfidence10 (ModSecurity.createDetectionRuleFromModSecurity modsecRule))
  /\ (forall now techs rulesets,
        TechJSON.main now techs = Some rulesets ->
        map_Forall (fun _ ruleset => rulesetForall confidence10 ruleset) rulesets)
  /\ (forall now technologies rulesets,
        CatTechJSON.main now technologies = Some rulesets ->
        map_Forall (fun _ ruleset => rulesetForall confidence10 ruleset) rulesets)
  /\ (forall now techs rulesets,
        BuiltWith.main now techs = Some rulesets ->
        map_Forall (fun _ ruleset => rulesetForall builtWithConfidence10 ruleset) rulesets)
  /\ (forall now lines ruleset,
        Favicon.main now lines = Some ruleset ->
        rulesetForall faviconConfidence10 ruleset)
  /\ (forall now lines ruleset,
        ModSecurity.main now lines = Some ruleset ->
        rulesetForall modsecConfidence10 ruleset).
Proof.
  repeat apply conj.
  - apply TechJSON_createRule_confidence.
  - apply CatTechJSON_createRule_confidence.
  - apply BuiltWith_createRule_confidence.
  - apply createFaviconRule_confidence.
  - apply modsec_createRule_confidence.
  - intros now techs rulesets. apply buckets_Forall.
    + apply TechJSON_newRuleset_group.
    + apply TechJSON_createRule_confidence.
  - intros now technologies rulesets. apply buckets_Forall.
    + apply CatTechJSON_newRuleset_group.
    + apply CatTechJSON_createRule_confidence.
  - intros now techs rulesets. apply buckets_Forall.
    + apply BuiltWith_newRuleset_group.
    + apply BuiltWith_createRule_confidence.
  - intros now lines ruleset. rewrite Favicon_main_eq. intros [= <-].
    apply rulesetForall_appendRules.
    + repeat constructor.
    + apply Forall_omap_lineRule, faviconLineRule_confidence.
  - intros now lines ruleset. rewrite ModSecurity_main_eq. intros [= <-].
    apply rulesetForall_appendRules.
    + repeat constructor.
    + apply Forall_omap_lineRule, modsecLineRule_confidence.
Qed.

Lemma every_confidence_is_10_witness :
  rulesetForall modsecConfidence10
    (appendRules (ModSecurity.initialRuleset "2024-01-01T00:00:00Z") [rule12345]).
Proof.
  destruct every_confidence_is_10 as (_ & _ & _ & _ & _ & _ & _ & _ & _ & Hmodsec).
  apply (Hmodsec "2024-01-01T00:00:00Z" [badBotLine]). reflexivity.
Defined.

End Confidence.

(** ** The whole map of buckets *)

Section BucketMapFacts.
Context {Cat Details R : Type}.
Variable resolve : Cat -> option string.
Variable newRuleset : string -> Ruleset.t R.
Variable createRule : string -> Details -> R.
Variable cats : Details -> list Cat.

Hypothesis newRuleset_group :
  forall category, exists g,
    Ruleset.RuleGroups (newRuleset category) = [g] /\ RuleGroup.DetectionRules g = [].

Lemma newRuleset_groups_ne category : Ruleset.RuleGroups (newRuleset category) <> [].
Proof. destruct (newRuleset_group category) as (g & -> & _). discriminate. Qed.

Lemma bucketSpec_snoc category rules rule :
  bucketSpec newRuleset category (rules ++ [rule])
  = Some (appendRules (newRuleset category) (rules ++ [rule])).
Proof. unfold bucketSpec. by destruct rules. Qed.

(** One resolved code: the bucket gets the rule at its end, being created
    first when it is not there. *)
Lemma bucketCat_bucketsAre rule rulesets received cat category :
  bucketsAre newRuleset rulesets received -> resolve cat = Some category ->
  exists rulesets',
    Bucket.bucketCat resolve newRuleset rule rulesets cat = Some rulesets'
    /\ bucketsAre newRuleset rulesets'
         (fun c => if decide (c = category) then received c ++ [rule] else received c).
Proof.
  intros Hare Hres. unfold Bucket.bucketCat. rewrite Hres.
  pose proof (Hare category) as Hcat. unfold bucketSpec in Hcat.
  destruct (received category) as [|r0 rs0] eqn:Hrec.
  - rewrite Hcat, lookup_insert_eq. simpl.
    rewrite (appendRule_appendRules _ _ (newRuleset_groups_ne category)). simpl.
    eexists. split; [reflexivity|]. intros c.
    destruct (decide (c = category)) as [->|Hne].
    + rewrite lookup_insert_eq, Hrec. reflexivity.
    + rewrite !lookup_insert_ne by congruence. apply Hare.
  - rewrite Hcat. simpl. rewrite Hcat. simpl.
    rewrite appendRule_appendRules
      by (apply appendRules_groups, newRuleset_groups_ne).
    simpl. eexists. split; [reflexivity|]. intros c.
    destruct (decide (c = category)) as [->|Hne].
    + rewrite lookup_insert_eq, Hrec, appendRules_app. reflexivity.
    + rewrite lookup_insert_ne by congruence. apply Hare.
Qed.

Lemma bucketCats_bucketsAre rule cs : forall rulesets received,
  bucketsAre newRuleset rulesets received ->
  exists rulesets',
    Bucket.bucketCats resolve newRuleset rule rulesets cs = Some rulesets'
    /\ bucketsAre newRuleset rulesets'
         (fun c => received c ++ replicate (hits resolve c cs) rule).
Proof.
  induction cs as [|cat cs IH]; intros rulesets received Hare; simpl.
  - exists rulesets. split; [reflexivity|]. intros c. rewrite app_nil_r. apply Hare.
  - destruct (resolve cat) as [category|] eqn:Hres.
    + destruct (bucketCat_bucketsAre rule rulesets received cat category Hare Hres)
        as (rs1 & Hstep & Hare1).
      rewrite Hstep. simpl. destruct (IH _ _ Hare1) as (rs2 & Hrest & Hare2).
      exists rs2. split; [exact Hrest|]. intros c. rewrite (Hare2 c).
      f_equal. unfold hits. rewrite filter_cons.
      destruct (decide (c = category)) as [->|Hne].
      * rewrite decide_True by assumption. simpl. by rewrite <- app_assoc.
      * rewrite decide_False by congruence. reflexivity.
    + rewrite (bucketCat_unresolved resolve newRuleset _ _ _ Hres). simpl.
      destruct (IH _ _ Hare) as (rs2 & Hrest & Hare2).
      exists rs2. split; [exact Hrest|]. intros c. rewrite (Hare2 c).
      f_equal. unfold hits. rewrite filter_cons.
      by rewrite decide_False by congruence.
Qed.

Lemma bucketLoop_bucketsAre techs : forall rulesets received,
  bucketsAre newRuleset rulesets received ->
  exists rulesets',
    Bucket.bucketLoop resolve newRuleset createRule cats rulesets techs = Some rulesets'
    /\ bucketsAre newRuleset rulesets'
         (fun c => received c ++ concat (map (sent resolve createRule cats c) techs)).
Proof.
  induction techs as [|tech techs IH]; intros rulesets received Hare; simpl.
  - exists rulesets. split; [reflexivity|]. intros c. rewrite app_nil_r. apply Hare.
  - unfold Bucket.bucketTech at 1.
    destruct (bucketCats_bucketsAre (createRule tech.1 tech.2) (cats tech.2) _ _ Hare)
      as (rs1 & Hstep & Hare1).
    rewrite Hstep. simpl. destruct (IH _ _ Hare1) as (rs2 & Hrest & Hare2).
    exists rs2. split; [exact Hrest|]. intros c. rewrite (Hare2 c).
    f_equal. by rewrite <- app_assoc.
Qed.

Lemma bucketAll_bucketsAre techs :
  exists rulesets,
    Bucket.bucketAll resolve newRuleset createRule cats techs = Some rulesets
    /\ bucketsAre newRuleset rulesets
         (fun c => concat (map (sent resolve createRule cats c) techs)).
Proof.
  apply (bucketLoop_bucketsAre techs ∅ (fun _ => [])).
  intros c. by rewrite lookup_empty.
Qed.

Lemma sent_Permutation techs1 techs2 category :
  techs1 ≡ₚ techs2 ->
  concat (map (sent resolve createRule cats category) techs1)
  ≡ₚ concat (map (sent resolve createRule cats category) techs2).
Proof.
  induction 1 as [|tech l1 l2 _ IH|t1 t2 l|l1 l2 l3 _ IH1 _ IH2]; simpl.
  - reflexivity.
  - by rewrite IH.
  - rewrite !app_assoc. f_equiv. apply Permutation_app_comm.
  - by rewrite IH1.
Qed.

End BucketMapFacts.

(** The [rulesets] map at the end of the bucketing pass, for the three
    converters: a bucket exists exactly when some code of some record
    resolves to it, and it is then the ruleset built at its first use (name,
    version, author, time, description, one enabled group) with, in its one
    group, the rules the records send to it in the order of the records. *)
Theorem buckets_map :
  (forall now techs, exists rulesets,
      TechJSON.main now techs = Some rulesets
      /\ forall category,
           rulesets !! category
           = bucketSpec (TechJSON.newRuleset now) category
               (concat (map (sent TechJSON.resolve TechJSON.createRule Technology.Cats
                               category) techs)))
  /\ (forall now technologies, exists rulesets,
        CatTechJSON.main now technologies = Some rulesets
        /\ forall category,
             rulesets !! category
             = bucketSpec (CatTechJSON.newRuleset now) category
                 (concat (map (sent (CatTechJSON.resolve
                                       (CatTechJSON.Technologies.Categories technologies))
                                 CatTechJSON.createRule Technology.Cats category)
                            (CatTechJSON.Technologies.Technologies technologies))))
  /\ (forall now techs, exists rulesets,
        BuiltWith.main now techs = Some rulesets
        /\ forall category,
             rulesets !! category
             = bucketSpec (BuiltWith.newRuleset now) category
                 (concat (map (sent BuiltWith.resolve BuiltWith.createRule
                                 BuiltWith.BuiltWithTechnology.Categories category)
                            techs))).
Proof.
  split; [|split].
  - intros now techs. apply bucketAll_bucketsAre, TechJSON_newRuleset_group.
  - intros now technologies. apply bucketAll_bucketsAre, CatTechJSON_newRuleset_group.
  - intros now techs. apply bucketAll_bucketsAre, BuiltWith_newRuleset_group.
Qed.

(** ** Two runs on one input *)

Section Reordering.
Context {Cat Details R : Type}.
Variable resolve : Cat -> option string.
Variables newRuleset1 newRuleset2 : string -> Ruleset.t R.
Variable createRule : string -> Details -> R.
Variable cats : Details -> list Cat.
Variable sameDetails : Details -> Details -> Prop.
Variable sameRule : R -> R -> Prop.

Hypothesis newRuleset1_group :
  forall category, exists g,
    Ruleset.RuleGroups (newRuleset1 category) = [g] /\ RuleGroup.DetectionRules g = [].
Hypothesis newRuleset2_group :
  forall category, exists g,
    Ruleset.RuleGroups (newRuleset2 category) = [g] /\ RuleGroup.DetectionRules g = [].
Hypothesis same_cats : forall d1 d2, sameDetails d1 d2 -> cats d1 = cats d2.
Hypothesis same_rule :
  forall name d1 d2, sameDetails d1 d2 -> sameRule (createRule name d1) (createRule name d2).

Lemma sent_Forall2 category techs1 techs2 :
  Forall2 (fun t1 t2 => t1.1 = t2.1 /\ sameDetails t1.2 t2.2) techs1 techs2 ->
  Forall2 sameRule
    (concat (map (sent resolve createRule cats category) techs1))
    (concat (map (sent resolve createRule cats category) techs2)).
Proof.
  induction 1 as [|[n1 d1] [n2 d2] techs1 techs2 [Hname Hsame] _ IH]; simpl.
  - constructor.
  - apply Forall2_app; [|exact IH]. simpl in Hname, Hsame. subst n2.
    unfold sent. simpl. rewrite (same_cats _ _ Hsame).
    apply Forall2_replicate. by apply same_rule.
Qed.

Lemma sameRules_nil (rules1 rules2 : list R) :
  sameRules sameRule rules1 rules2 -> rules1 = [] <-> rules2 = [].
Proof.
  intros (rules & Hperm & Hall).
  apply Permutation_length in Hperm. apply Forall2_length in Hall.
  destruct rules1, rules2; simpl in *; split; intros; (congruence || lia).
Qed.

Lemma bucketSpec_is_Some (newRuleset : string -> Ruleset.t R) category rules :
  is_Some (bucketSpec newRuleset category rules) <-> rules <> [].
Proof.
  destruct rules; simpl; split.
  - by intros [? ?].
  - done.
  - done.
  - intros _. by eexists.
Qed.

(** The order of the visit, of the records and inside the records, only
    shows in the order of the rules inside the buckets and in the rules up
    to [sameRule]. *)
Lemma bucketAll_reordered techs1 techs2 :
  reordered sameDetails techs1 techs2 ->
  exists rulesets1 rulesets2,
    Bucket.bucketAll resolve newRuleset1 createRule cats techs1 = Some rulesets1
    /\ Bucket.bucketAll resolve newRuleset2 createRule cats techs2 = Some rulesets2
    /\ forall category,
         (is_Some (rulesets1 !! category) <-> is_Some (rulesets2 !! category))
         /\ exists rules1 rules2,
              rulesets1 !! category = bucketSpec newRuleset1 category rules1
              /\ rulesets2 !! category = bucketSpec newRuleset2 category rules2
              /\ sameRules sameRule rules1 rules2.
Proof.
  intros (techs & Hperm & Hall).
  destruct (bucketAll_bucketsAre resolve newRuleset1 createRule cats newRuleset1_group techs1)
    as (rs1 & Hrun1 & Hare1).
  destruct (bucketAll_bucketsAre resolve newRuleset2 createRule cats newRuleset2_group techs2)
    as (rs2 & Hrun2 & Hare2).
  exists rs1, rs2. split; [exact Hrun1|]. split; [exact Hrun2|].
  intros category.
  assert (sameRules sameRule
            (concat (map (sent resolve createRule cats category) techs1))
            (concat (map (sent resolve createRule cats category) techs2))) as Hsame.
  { exists (concat (map (sent resolve createRule cats category) techs)).
    split; [by apply sent_Permutation | by apply sent_Forall2]. }
  split.
  - rewrite (Hare1 category), (Hare2 category), !bucketSpec_is_Some.
    by rewrite (sameRules_nil _ _ Hsame).
  - eexists _, _. split; [apply Hare1|]. split; [apply Hare2 | exact Hsame].
Qed.

End Reordering.

Section SameInput.
Import DetectionRule.

Lemma metaTagsOf_same m1 m2 : sameMeta m1 m2 -> metaTagsOf m1 ≡ₚ metaTagsOf m2.
Proof.
  destruct m1, m2; simpl; intros H; try discriminate H; try (by inversion H);
    try reflexivity.
  - by apply omap_Permutation.
  - by apply Permutation_map.
Qed.

Lemma beforeWebsite_same name d1 d2 :
  sameObject d1 d2 ->
  sameSignatures (TechRule.beforeWebsite name d1) (TechRule.beforeWebsite name d2).
Proof.
  intros (Hcats & Hcookies & Hheaders & Hmeta & Hhtml & Hscripts & Hurl & Hweb & Himp).
  rewrite !beforeWebsite_eq. unfold sameSignatures. simpl.
  rewrite Hhtml, Hscripts, Hurl, Himp. repeat split.
  - apply Permutation_app; by apply Permutation_map.
  - by apply metaTagsOf_same.
Qed.

Lemma TechJSON_createRule_same name d1 d2 :
  sameObject d1 d2 ->
  sameSignatures (TechJSON.createRule name d1) (TechJSON.createRule name d2).
Proof.
  intros Hsame. pose proof (beforeWebsite_same name _ _ Hsame) as Hbefore.
  destruct Hsame as (_ & _ & _ & _ & _ & _ & _ & Hweb & _).
  destruct Hbefore as (H1 & H2 & H3 & H4 & H5 & H6 & H7 & H8).
  rewrite !TechJSON_createRule_eq. cbv zeta. rewrite Hweb.
  destruct (decide _); [by repeat split|].
  unfold sameSignatures. simpl. rewrite H1, H2, H3, H6, H7, H8. by repeat split.
Qed.

Lemma CatTechJSON_createRule_same name d1 d2 :
  sameObject d1 d2 ->
  sameSignatures (CatTechJSON.createRule name d1) (CatTechJSON.createRule name d2).
Proof.
  intros Hsame. pose proof (beforeWebsite_same name _ _ Hsame) as Hbefore.
  destruct Hsame as (_ & _ & _ & _ & _ & _ & _ & Hweb & _).
  destruct Hbefore as (H1 & H2 & H3 & H4 & H5 & H6 & H7 & H8).
  rewrite !CatTechJSON_createRule_eq. cbv zeta. rewrite Hweb.
  destruct (decide _); [by repeat split|].
  unfold sameSignatures. simpl. rewrite H1, H2, H3, H6, H7, H8. by repeat split.
Qed.

Lemma BuiltWith_createRule_same name d1 d2 :
  sameBuiltWith d1 d2 ->
  sameBuiltWithSignatures (BuiltWith.createRule name d1) (BuiltWith.createRule name d2).
Proof.
  intros (_ & Himp & Hurl & Hhtml & Hheaders).
  unfold BuiltWith.createRule. cbv zeta. rewrite !BuiltWith_headers_eq.
  rewrite Himp, Hurl, Hhtml. unfold sameBuiltWithSignatures.
  destruct (negb _); destruct (negb _); simpl; repeat split; by apply Permutation_map.
Qed.

End SameInput.

(** Go visits the entries of a map in an order it does not fix, and reads
    the clock in every run.  Two runs of a converter on one input, each
    visiting the records, and the headers, cookies and meta entries of each
    record, in an order of its own, end with the same set of buckets; a
    bucket is in each run the ruleset built at its first use, the same in
    both up to the time of creation, with the same rules in some order, a
    rule being the same up to the order of its header fields and of its
    meta tags. *)
Theorem buckets_order_independent :
  (forall now1 now2 techs1 techs2,
      reordered sameObject techs1 techs2 ->
      exists rulesets1 rulesets2,
        TechJSON.main now1 techs1 = Some rulesets1
        /\ TechJSON.main now2 techs2 = Some rulesets2
        /\ forall category,
             (is_Some (rulesets1 !! category) <-> is_Some (rulesets2 !! category))
             /\ sameButCreatedAt (TechJSON.newRuleset now1 category)
                  (TechJSON.newRuleset now2 category)
             /\ exists rules1 rules2,
                  rulesets1 !! category
                  = bucketSpec (TechJSON.newRuleset now1) category rules1
                  /\ rulesets2 !! category
                     = bucketSpec (TechJSON.newRuleset now2) category rules2
                  /\ sameRules sameSignatures rules1 rules2)
  /\ (forall now1 now2 categories techs1 techs2,
        reordered sameObject techs1 techs2 ->
        exists rulesets1 rulesets2,
          CatTechJSON.main now1 (CatTechJSON.Technologies.mk techs1 categories)
          = Some rulesets1
          /\ CatTechJSON.main now2 (CatTechJSON.Technologies.mk techs2 categories)
             = Some rulesets2
          /\ forall category,
               (is_Some (rulesets1 !! category) <-> is_Some (rulesets2 !! category))
               /\ sameButCreatedAt (CatTechJSON.newRuleset now1 category)
                    (CatTechJSON.newRuleset now2 category)
               /\ exists rules1 rules2,
                    rulesets1 !! category
                    = bucketSpec (CatTechJSON.newRuleset now1) category rules1
                    /\ rulesets2 !! category
                       = bucketSpec (CatTechJSON.newRuleset now2) category rules2
                    /\ sameRules sameSignatures rules1 rules2)
  /\ (forall now1 now2 techs1 techs2,
        reordered sameBuiltWith techs1 techs2 ->
        exists rulesets1 rulesets2,
          BuiltWith.main now1 techs1 = Some rulesets1
          /\ BuiltWith.main now2 techs2 = Some rulesets2
          /\ forall category,
               (is_Some (rulesets1 !! category) <-> is_Some (rulesets2 !! category))
               /\ sameButCreatedAt (BuiltWith.newRuleset now1 category)
                    (BuiltWith.newRuleset now2 category)
               /\ exists rules1 rules2,
                    rulesets1 !! category
                    = bucketSpec (BuiltWith.newRuleset now1) category rules1
                    /\ rulesets2 !! category
                       = bucketSpec (BuiltWith.newRuleset now2) category rules2
                    /\ sameRules sameBuiltWithSignatures rules1 rules2).
Proof.
  split; [|split].
  - intros now1 now2 techs1 techs2 Hre.
    destruct (bucketAll_reordered TechJSON.resolve (TechJSON.newRuleset now1)
                (TechJSON.newRuleset now2) TechJSON.createRule Technology.Cats
                sameObject sameSignatures
                (TechJSON_newRuleset_group now1) (TechJSON_newRuleset_group now2)
                (fun d1 d2 H => proj1 H) TechJSON_createRule_same techs1 techs2 Hre)
      as (rs1 & rs2 & H1 & H2 & Hall).
    exists rs1, rs2. split; [exact H1|]. split; [exact H2|]. intros category.
    destruct (Hall category) as (Hsome & Hrules).
    split; [exact Hsome|]. split; [by repeat split | exact Hrules].
  - intros now1 now2 categories techs1 techs2 Hre.
    destruct (bucketAll_reordered (CatTechJSON.resolve categories)
                (CatTechJSON.newRuleset now1) (CatTechJSON.newRuleset now2)
                CatTechJSON.createRule Technology.Cats sameObject sameSignatures
                (CatTechJSON_newRuleset_group now1) (CatTechJSON_newRuleset_group now2)
                (fun d1 d2 H => proj1 H) CatTechJSON_createRule_same techs1 techs2 Hre)
      as (rs1 & rs2 & H1 & H2 & Hall).
    exists rs1, rs2. split; [exact H1|]. split; [exact H2|]. intros category.
    destruct (Hall category) as (Hsome & Hrules).
    split; [exact Hsome|]. split; [by repeat split | exact Hrules].
  - intros now1 now2 techs1 techs2 Hre.
    destruct (bucketAll_reordered BuiltWith.resolve (BuiltWith.newRuleset now1)
                (BuiltWith.newRuleset now2) BuiltWith.createRule
                BuiltWith.BuiltWithTechnology.Categories sameBuiltWith
                sameBuiltWithSignatures
                (BuiltWith_newRuleset_group now1) (BuiltWith_newRuleset_group now2)
                (fun d1 d2 H => proj1 H) BuiltWith_createRule_same techs1 techs2 Hre)
      as (rs1 & rs2 & H1 & H2 & Hall).
    exists rs1, rs2. split; [exact H1|]. split; [exact H2|]. intros category.
    destruct (Hall category) as (Hsome & Hrules).
    split; [exact Hsome|]. split; [by repeat split | exact Hrules].
Qed.

Lemma buckets_order_independent_witness :
  exists rulesets1 rulesets2,
    TechJSON.main (fun _ => "2024-01-01T00:00:00Z")
      [("A", orderedAB); ("B", websiteTwice)] = Some rulesets1
    /\ TechJSON.main (fun _ => "2024-06-30T12:00:00Z")
         [("B", websiteTwice); ("A", orderedBA)] = Some rulesets2
    /\ exists rules1 rules2,
         rulesets1 !! "cms"
         = bucketSpec (TechJSON.newRuleset (fun _ => "2024-01-01T00:00:00Z")) "cms" rules1
         /\ rulesets2 !! "cms"
            = bucketSpec (TechJSON.newRuleset (fun _ => "2024-06-30T12:00:00Z")) "cms" rules2
         /\ sameRules sameSignatures rules1 rules2.
Proof.
  destruct buckets_order_independent as (Htech & _).
  destruct (Htech (fun _ => "2024-01-01T00:00:00Z") (fun _ => "2024-06-30T12:00:00Z")
              [("A", orderedAB); ("B", websiteTwice)]
              [("B", websiteTwice); ("A", orderedBA)])
    as (rs1 & rs2 & H1 & H2 & Hall).
  { exists [("B", websiteTwice); ("A", orderedAB)]. split; [apply Permutation_swap|].
    repeat constructor; simpl; try reflexivity; apply Permutation_swap. }
  exists rs1, rs2. split; [exact H1|]. split; [exact H2|].
  destruct (Hall "cms") as (_ & _ & Hrules). exact Hrules.
Defined.

(** ** The rule of a record, field by field *)

Section RuleFields.

(** The rule [createRule] returns for a technologies.json record, in both
    converters: the header entries and then the cookie entries, one header
    field each and nothing to tell them apart; the meta tags of the [Meta]
    field; one pattern with key html per html entry, then one with key
    script per script entry, then the website patterns; one URL signature
    per url entry, then the website; never an SSL signature; the name of the
    technology as object name and its implied technologies as they are; and
    for an ASCII name, the rule name is detect_ and the name in lower case
    with an underscore for each space. *)
Theorem createRule_fields name details :
  let website := Technology.Website details in
  let common (rule : DetectionRule.t) :=
    (isASCII name = true ->
     DetectionRule.RuleName rule = "detect_" +:+ ToLower (ReplaceAll name " " "_"))
    /\ DetectionRule.ObjectName rule = name
    /\ DetectionRule.Implies rule = Technology.Implies details
    /\ DetectionRule.HTTPHeaderFields rule
       = map headerField (Technology.Headers details)
         ++ map headerField (Technology.Cookies details)
    /\ DetectionRule.MetaTags rule = metaTagsOf (Technology.Meta details)
    /\ DetectionRule.SSLSignatures rule = []
    /\ DetectionRule.URLPatterns rule
       = map urlSignature (Technology.URL details) ++ websiteURL website in
  (common (TechJSON.createRule name details)
   /\ DetectionRule.PageContentPatterns (TechJSON.createRule name details)
      = map (pattern "html") (Technology.Html details)
        ++ map (pattern "script") (Technology.Scripts details)
        ++ websiteAnchor website)
  /\ (common (CatTechJSON.createRule name details)
      /\ DetectionRule.PageContentPatterns (CatTechJSON.createRule name details)
         = map (pattern "html") (Technology.Html details)
           ++ map (pattern "script") (Technology.Scripts details)
           ++ websiteTags website).
Proof.
  intros website common. subst common. cbv beta.
  rewrite TechJSON_createRule_eq, CatTechJSON_createRule_eq, beforeWebsite_eq.
  unfold websiteURL, websiteAnchor, websiteTags. cbv zeta. fold website.
  destruct (decide (website = EmptyString)); simpl;
    rewrite ?app_nil_r, <- ?app_assoc; repeat split; try reflexivity;
    intros _; reflexivity.
Qed.

Lemma createRule_fields_witness :
  DetectionRule.RuleName (TechJSON.createRule "Google Analytics" websiteTwice)
  = "detect_google_analytics"
  /\ DetectionRule.RuleName (CatTechJSON.createRule "Google Analytics" websiteTwice)
     = "detect_google_analytics".
Proof.
  pose proof (createRule_fields "Google Analytics" websiteTwice) as Hfields.
  cbv zeta beta in Hfields.
  destruct Hfields as (((Htech & _) & _) & ((Hcat & _) & _)).
  split; [exact (Htech eq_refl) | exact (Hcat eq_refl)].
Defined.

(** The rule [createRule] returns for a BuiltWith record: the name as
    object name, the implied technologies as they are, one header field per
    header entry, no meta tag, one page-content signature with key body and
    the html pattern as its text when there is one, one URL signature when
    there is a url pattern; and for an ASCII name, the rule name is detect_
    and the name in lower case with an underscore for each space. *)
Theorem BuiltWith_createRule_fields name details :
  let patterns := BuiltWith.BuiltWithTechnology.Patterns details in
  let html := BuiltWith.BuiltWithPatterns.HTML patterns in
  let url := BuiltWith.BuiltWithPatterns.URL patterns in
  let rule := BuiltWith.createRule name details in
  rule
  = BuiltWith.DetectionRule.mk
      (BuiltWith.DetectionRule.RuleName rule) name
      (BuiltWith.BuiltWithTechnology.Implies details)
      (map headerField (BuiltWith.BuiltWithPatterns.Headers patterns))
      []
      (if decide (html = EmptyString) then []
       else [PageContentSignature.mk "body" EmptyString [] [html] 10])
      (if decide (url = EmptyString) then [] else [URLMicroSignature.mk url 10])
  /\ (isASCII name = true ->
      BuiltWith.DetectionRule.RuleName rule
      = "detect_" +:+ ToLower (ReplaceAll name " " "_")).
Proof.
  intros patterns html url rule. subst rule. unfold BuiltWith.createRule. cbv zeta.
  rewrite BuiltWith_headers_eq. fold patterns. fold html. fold url.
  destruct (String.eqb_spec html EmptyString) as [E1|E1];
    destruct (decide (html = EmptyString)); try contradiction;
    destruct (String.eqb_spec url EmptyString) as [E2|E2];
    destruct (decide (url = EmptyString)); try contradiction;
    (split; [reflexivity | intros _; reflexivity]).
Qed.

Lemma BuiltWith_createRule_fields_witness :
  BuiltWith.DetectionRule.RuleName
    (BuiltWith.createRule "Ruby on Rails"
       (BuiltWith.BuiltWithTechnology.mk [2%Z]
          (BuiltWith.BuiltWithPatterns.mk EmptyString EmptyString []) []))
  = "detect_ruby_on_rails".
Proof.
  destruct (BuiltWith_createRule_fields "Ruby on Rails"
              (BuiltWith.BuiltWithTechnology.mk [2%Z]
                 (BuiltWith.BuiltWithPatterns.mk EmptyString EmptyString []) []))
    as (_ & Hname).
  exact (Hname eq_refl).
Defined.

Lemma ToLower_mapBytes s : ToLower s = mapBytes lowerByte s.
Proof. induction s as [|c s IH]; simpl; [reflexivity | by rewrite IH]. Qed.

Lemma allBytes_mapBytes p f s :
  (forall c, p (f c) = true) -> allBytes p (mapBytes f s) = true.
Proof. intros H. induction s as [|c s IH]; simpl; [reflexivity | by rewrite H, IH]. Qed.

Lemma slug_byte c :
  let d := lowerByte (if Ascii.eqb c " "%char then "_"%char else c) in
  negb (Ascii.eqb d " "%char) && negb (isUpper d) = true.
Proof. destruct c as [[] [] [] [] [] [] [] []]; reflexivity. Qed.

Lemma slugName_detect name : slugName ("detect_" +:+ ToLower (ReplaceAll name " " "_")).
Proof.
  exists (ToLower (ReplaceAll name " " "_")). split; [reflexivity|].
  change " " with (str1 " "%char). change "_" with (str1 "_"%char).
  rewrite ReplaceAll_byte, ToLower_mapBytes, mapBytes_compose.
  apply allBytes_mapBytes. intros c. apply slug_byte.
Qed.

(** The name of every rule built from an ASCII technology name or favicon
    description is detect_ followed by a string without space and without
    upper-case letter; the object name is the name as it was given, ASCII or
    not. *)
Theorem rule_names_are_slugs :
  (forall name details,
      (isASCII name = true ->
       slugName (DetectionRule.RuleName (TechJSON.createRule name details)))
      /\ DetectionRule.ObjectName (TechJSON.createRule name details) = name)
  /\ (forall name details,
        (isASCII name = true ->
         slugName (DetectionRule.RuleName (CatTechJSON.createRule name details)))
        /\ DetectionRule.ObjectName (CatTechJSON.createRule name details) = name)
  /\ (forall name details,
        (isASCII name = true ->
         slugName (BuiltWith.DetectionRule.RuleName (BuiltWith.createRule name details)))
        /\ BuiltWith.DetectionRule.ObjectName (BuiltWith.createRule name details) = name)
  /\ (forall id md5hash description,
        (isASCII description = true ->
         slugName (Favicon.DetectionRule.RuleName
                     (Favicon.createFaviconRule id md5hash description)))
        /\ Favicon.DetectionRule.ObjectName
             (Favicon.createFaviconRule id md5hash description) = description).
Proof.
  split; [|split; [|split]].
  - intros name details. rewrite TechJSON_createRule_eq, beforeWebsite_eq. cbv zeta.
    destruct (decide _); simpl; (split; [intros _; apply slugName_detect | reflexivity]).
  - intros name details. rewrite CatTechJSON_createRule_eq, beforeWebsite_eq. cbv zeta.
    destruct (decide _); simpl; (split; [intros _; apply slugName_detect | reflexivity]).
  - intros name details.
    pose proof (BuiltWith_headers_eq) as Hh. unfold BuiltWith.createRule. cbv zeta.
    rewrite Hh. destruct (negb _); destruct (negb _); simpl;
      (split; [intros _; apply slugName_detect | reflexivity]).
  - intros id md5hash description. simpl.
    split; [intros _; apply slugName_detect | reflexivity].
Qed.

Lemma rule_names_are_slugs_witness :
  slugName (DetectionRule.RuleName (TechJSON.createRule "Google Analytics" websiteTwice))
  /\ slugName (Favicon.DetectionRule.RuleName
                 (Favicon.createFaviconRule "7" "d41d8cd98f00b204e9800998ecf8427e"
                    "Apache Tomcat")).
Proof.
  destruct rule_names_are_slugs as (Htech & _ & _ & Hfavicon).
  split.
  - exact (proj1 (Htech "Google Analytics" websiteTwice) eq_refl).
  - exact (proj1 (Hfavicon "7" "d41d8cd98f00b204e9800998ecf8427e" "Apache Tomcat") eq_refl).
Defined.

End RuleFields.

(** ** What the regular expressions of the ModSecurity converter capture *)

Section RegexFacts.
Import ModSecurity.

Lemma append_assoc (s t u : string) : (s +:+ t) +:+ u = s +:+ t +:+ u.
Proof. induction s as [|c s IH]; [reflexivity|]. by rewrite !append_cons, IH. Qed.

Local Ltac in_list := by repeat first [apply list_elem_of_here | apply list_elem_of_further].

Lemma span_spec p s run rest :
  span p s = (run, rest) ->
  s = run +:+ rest /\ allBytes p run = true
  /\ match rest with String c _ => p c = false | EmptyString => True end.
Proof.
  revert run rest. induction s as [|c s IH]; intros run rest; simpl.
  - intros [= <- <-]. by repeat split.
  - destruct (p c) eqn:Hp.
    + destruct (span p s) as [run' rest'] eqn:Hs. intros [= <- <-].
      destruct (IH _ _ eq_refl) as (-> & Hall & Hrest).
      repeat split; [|exact Hrest]. simpl. by rewrite Hp, Hall.
    + intros [= <- <-]. by repeat split.
Qed.

Lemma stripPrefix_spec prefix s rest :
  stripPrefix prefix s = Some rest <-> s = prefix +:+ rest.
Proof.
  revert s. induction prefix as [|a p IH]; intros s; simpl.
  - split; [by intros [= ->] | by intros ->].
  - destruct s as [|b s]; [split; discriminate|].
    destruct (Ascii.eqb_spec a b) as [->|Hne].
    + rewrite IH. rewrite append_cons. split; [by intros -> | by intros [= ->]].
    + split; [discriminate|]. rewrite append_cons. intros [= E _]. by destruct Hne.
Qed.

Lemma digitsHere_spec literal s run :
  digitsHere literal s = Some run ->
  run <> EmptyString /\ allBytes isDigit run = true
  /\ exists rest, s = literal +:+ run +:+ rest.
Proof.
  unfold digitsHere. destruct (stripPrefix literal s) as [r|] eqn:Hs; [|discriminate].
  simpl. destruct (span isDigit r) as [run' rest] eqn:Hspan.
  destruct (String.eqb_spec run' EmptyString) as [->|Hne]; [discriminate|].
  intros [= <-]. destruct (span_spec _ _ _ _ Hspan) as (-> & Hall & _).
  apply stripPrefix_spec in Hs. split; [assumption|]. split; [assumption|]. eauto.
Qed.

Lemma allBytes_hasByte q s :
  allBytes (fun c => negb (Ascii.eqb c q)) s = true -> hasByte q s = false.
Proof.
  induction s as [|c s IH]; simpl; [reflexivity|].
  intros H. apply andb_prop in H as [Hc Hs]. rewrite (IH Hs), orb_false_r.
  rewrite Ascii.eqb_sym. by apply negb_true_iff.
Qed.

Lemma hasByte_allBytes q s :
  hasByte q s = false -> allBytes (fun c => negb (Ascii.eqb c q)) s = true.
Proof.
  induction s as [|c s IH]; simpl; [reflexivity|].
  intros H. apply orb_false_elim in H as [Hc Hs]. rewrite (IH Hs), andb_true_r.
  rewrite Ascii.eqb_sym. by apply negb_true_iff.
Qed.

Lemma delimitedHere_spec literal q s run :
  delimitedHere literal q s = Some run ->
  run <> EmptyString /\ hasByte q run = false
  /\ exists rest, s = literal +:+ run +:+ String q rest.
Proof.
  unfold delimitedHere. destruct (stripPrefix literal s) as [r|] eqn:Hs; [|discriminate].
  simpl. destruct (span _ r) as [run' after] eqn:Hspan.
  destruct (String.eqb_spec run' EmptyString) as [->|Hne]; [discriminate|].
  destruct after as [|c after]; [discriminate|]. intros [= <-].
  destruct (span_spec _ _ _ _ Hspan) as (-> & Hall & Hc).
  apply stripPrefix_spec in Hs. split; [assumption|].
  split; [by apply allBytes_hasByte|].
  apply negb_false_iff, Ascii.eqb_eq in Hc as ->. eauto.
Qed.

Lemma span_app p run c rest :
  allBytes p run = true -> p c = false -> span p (run +:+ String c rest) = (run, String c rest).
Proof.
  intros Hall Hc. induction run as [|d run IH]; simpl in *.
  - rewrite ?append_nil_l. simpl. by rewrite Hc.
  - apply andb_prop in Hall as [Hd Hall]. rewrite ?append_cons. simpl.
    by rewrite Hd, (IH Hall).
Qed.

Lemma delimitedHere_complete literal q run rest :
  run <> EmptyString -> hasByte q run = false ->
  delimitedHere literal q (literal +:+ run +:+ String q rest) = Some run.
Proof.
  intros Hne Hq. unfold delimitedHere.
  assert (stripPrefix literal (literal +:+ run +:+ String q rest)
          = Some (run +:+ String q rest)) as -> by (by apply stripPrefix_spec).
  simpl. rewrite span_app; [| by apply hasByte_allBytes | by rewrite Ascii.eqb_refl].
  by destruct (String.eqb_spec run EmptyString).
Qed.

(** A match of [here] somewhere in the text: the leftmost finder returns
    one too (this one or an earlier one). *)
Lemma findLeftmost_app {A} (here : string -> option A) pre s :
  is_Some (here s) -> is_Some (findLeftmost here (pre +:+ s)).
Proof.
  intros Hs. induction pre as [|c pre IH].
  - rewrite append_nil_l. destruct s; simpl; destruct Hs as [x ->]; eauto.
  - rewrite append_cons. simpl. destruct (here (String c (pre +:+ s))); eauto.
Qed.

(** What a leftmost match returns is matched at some position of the text. *)
Lemma findLeftmost_position {A} (here : string -> option A) s x :
  findLeftmost here s = Some x -> exists pre suffix, s = pre +:+ suffix /\ here suffix = Some x.
Proof.
  induction s as [|c s IH]; simpl.
  - destruct (here EmptyString) eqn:E; [|discriminate]. intros [= <-].
    exists EmptyString, EmptyString. by split.
  - destruct (here (String c s)) eqn:E.
    + intros [= <-]. exists EmptyString, (String c s). by split.
    + intros H. destruct (IH H) as (pre & suffix & -> & Hhere).
      exists (String c pre), suffix. by split.
Qed.

Lemma actionFrom_values prev s a :
  actionFrom prev s = Some a -> a ∈ ["deny"; "allow"; "log"].
Proof.
  revert prev. induction s as [|c s IH]; intros prev; simpl.
  - destruct prev; [discriminate|]. unfold actionHere.
    repeat (destruct (wordHere _ _); [intros [= <-]; in_list|]). discriminate.
  - destruct (if prev then None else actionHere (String c s)) as [a'|] eqn:E.
    + intros [= <-]. destruct prev; [discriminate|]. unfold actionHere in E.
      repeat (destruct (wordHere _ _); [injection E as <-; in_list|]). discriminate.
    + apply IH.
Qed.

Lemma digits_capture literal line :
  allBytes isDigit (default EmptyString (findLeftmost (digitsHere literal) line)) = true.
Proof.
  destruct (findLeftmost _ line) as [run|] eqn:E; [|reflexivity].
  apply findLeftmost_Some in E as [suffix E].
  by destruct (digitsHere_spec _ _ _ E) as (_ & Hall & _).
Qed.

Lemma delimited_capture literal q line :
  hasByte q (default EmptyString (findLeftmost (delimitedHere literal q) line)) = false.
Proof.
  destruct (findLeftmost _ line) as [run|] eqn:E; [|reflexivity].
  apply findLeftmost_Some in E as [suffix E].
  by destruct (delimitedHere_spec _ _ _ _ E) as (_ & Hq & _).
Qed.

(** The fields [parseModSecurityRule] extracts, for any line: identifier,
    phase and status are strings of digits (empty without a match); the
    action is deny, allow, log or empty; the message holds no single quote
    and the User-Agent no double quote; the header map stays empty. *)
Theorem parseModSecurityRule_fields line :
  let rule := parseModSecurityRule line in
  allBytes isDigit (ModSecurityRule.ID rule) = true
  /\ allBytes isDigit (ModSecurityRule.Phase rule) = true
  /\ allBytes isDigit (ModSecurityRule.Status rule) = true
  /\ ModSecurityRule.Action rule ∈ [EmptyString; "deny"; "allow"; "log"]
  /\ hasByte squote (ModSecurityRule.Message rule) = false
  /\ hasByte dquote (ModSecurityRule.UserAgent rule) = false
  /\ ModSecurityRule.Headers rule = [].
Proof.
  unfold parseModSecurityRule. simpl.
  repeat split; try apply digits_capture; try apply delimited_capture.
  unfold actionRe. destruct (actionFrom false line) as [a|] eqn:E; simpl.
  - apply actionFrom_values in E. by apply list_elem_of_further.
  - apply list_elem_of_here.
Qed.

Lemma modsecLineRule_shape line rule :
  modsecLineRule line = Some rule -> modsecRuleShape rule.
Proof.
  unfold modsecLineRule. destruct (_ || _); [discriminate|].
  destruct (userAgentRe line) as [ua|] eqn:Hua; [|discriminate]. intros [= <-].
  exists (default EmptyString (idRe line)), ua.
  split; [apply digits_capture|]. split; [by eapply userAgentRe_nonempty|].
  split; [|reflexivity].
  unfold userAgentRe in Hua. apply findLeftmost_Some in Hua as [suffix Hua].
  by destruct (delimitedHere_spec _ _ _ _ Hua) as (_ & Hq' & _).
Qed.

(** Every rule of the ruleset a run of the ModSecurity converter ends with
    has the one shape: names made of the prefix and an identifier of digits,
    and the single header field User-Agent with one value, not empty and
    without double quote. *)
Theorem ModSecurity_rules_shape now lines ruleset :
  ModSecurity.main now lines = Some ruleset ->
  rulesetForall modsecRuleShape ruleset.
Proof.
  rewrite ModSecurity_main_eq. intros [= <-].
  apply rulesetForall_appendRules; [repeat constructor|].
  apply Forall_omap_lineRule, modsecLineRule_shape.
Qed.

Lemma ModSecurity_rules_shape_witness :
  rulesetForall modsecRuleShape
    (appendRules (ModSecurity.initialRuleset "2024-01-01T00:00:00Z") [rule12345]).
Proof.
  apply (ModSecurity_rules_shape "2024-01-01T00:00:00Z" [badBotLine]). reflexivity.
Defined.

(** A line has a User-Agent match exactly when it holds, somewhere, the
    literal REQUEST_HEADERS:User-Agent, a space and a value between double
    quotes that is not empty and has no double quote in it; the capture is
    such a value of the line. *)
Theorem userAgentRe_matches line :
  (forall ua,
      userAgentRe line = Some ua ->
      ua <> EmptyString /\ hasByte dquote ua = false
      /\ exists pre post, line = pre +:+ userAgentFragment ua +:+ post)
  /\ (forall pre ua post,
        ua <> EmptyString -> hasByte dquote ua = false ->
        line = pre +:+ userAgentFragment ua +:+ post ->
        is_Some (userAgentRe line)).
Proof.
  unfold userAgentRe, userAgentFragment, quoted. split.
  - intros ua Hua. apply findLeftmost_position in Hua as (pre & suffix & -> & Hhere).
    destruct (delimitedHere_spec _ _ _ _ Hhere) as (Hne & Hq & rest & ->).
    split; [assumption|]. split; [assumption|]. exists pre, rest.
    f_equal. rewrite !append_assoc. reflexivity.
  - intros pre ua post Hne Hq ->. apply findLeftmost_app.
    exists ua.
    rewrite <- (delimitedHere_complete ("REQUEST_HEADERS:User-Agent " +:+ str1 dquote)
                  dquote ua post Hne Hq).
    f_equal. rewrite !append_assoc. reflexivity.
Qed.

Lemma userAgentRe_matches_witness :
  is_Some (userAgentRe badBotLine).
Proof.
  destruct (userAgentRe_matches badBotLine) as (_ & Hsome).
  apply (Hsome "SecRule " "BadBot" (" " +:+ quoted "id:12345,phase:1,deny,status:403"));
    [discriminate | reflexivity | reflexivity].
Defined.

End RegexFacts.

(** ** The scanning loops as functions of the input *)

Section ScannerFacts.

Lemma modsecLineRule_skipped line : skipped line = true -> modsecLineRule line = None.
Proof. unfold skipped, modsecLineRule. by intros ->. Qed.

Lemma faviconLineRule_skipped line : skipped line = true -> faviconLineRule line = None.
Proof. unfold skipped, faviconLineRule. by intros ->. Qed.

Lemma omap_filter_kept {A} (lineRule : string -> option A) (lines : list string) :
  (forall line, skipped line = true -> lineRule line = None) ->
  omap lineRule (filter (fun line => skipped line = false) lines) = omap lineRule lines.
Proof.
  intros Hskip. induction lines as [|line lines IH]; [reflexivity|].
  rewrite filter_cons. destruct (skipped line) eqn:E.
  - rewrite decide_False by discriminate. cbn [omap list_omap].
    rewrite (Hskip _ E). exact IH.
  - rewrite decide_True by reflexivity. cbn [omap list_omap].
    destruct (lineRule line); [f_equal|]; exact IH.
Qed.

Lemma length_omap_le {A B} (f : A -> option B) (l : list A) : (length (omap f l) <= length l)%nat.
Proof.
  induction l as [|x l IH]; [reflexivity|].
  cbn [omap list_omap]. destruct (f x); cbn [length]; lia.
Qed.

(** Comment lines and empty lines do not count: a run of either scanning
    converter gives the same ruleset when they are taken out of the input
    (for the favicon converter, out of the lines after the first). *)
Theorem skipped_lines_do_not_count now lines :
  ModSecurity.main now (filter (fun line => skipped line = false) lines)
  = ModSecurity.main now lines
  /\ (forall header,
        Favicon.main now (header :: filter (fun line => skipped line = false) lines)
        = Favicon.main now (header :: lines)).
Proof.
  split.
  - rewrite !ModSecurity_main_eq.
    by rewrite (omap_filter_kept modsecLineRule lines modsecLineRule_skipped).
  - intros header. rewrite !Favicon_main_eq. cbn [tail].
    by rewrite (omap_filter_kept faviconLineRule lines faviconLineRule_skipped).
Qed.

(** The scanning loops treat each line on its own, but the favicon
    converter drops one line only, the first of what it reads.  For the
    ModSecurity converter the rules of a run on two inputs put one after the
    other are the rules of the first followed by the rules of the second.
    For the favicon converter, between the rules of the first input and
    those of the second comes what the header line of the second input
    gives as a data line: the rule of a run whose only data line it is.  No
    run gives more rules than it has lines (lines after the first, for the
    favicon converter). *)
Theorem runs_compose now lines1 lines2 :
  (exists rules1 rules2,
      rulesOf <$> ModSecurity.main now lines1 = Some rules1
      /\ rulesOf <$> ModSecurity.main now lines2 = Some rules2
      /\ rulesOf <$> ModSecurity.main now (lines1 ++ lines2) = Some (rules1 ++ rules2)
      /\ (length rules1 <= length lines1)%nat)
  /\ (forall header1 header2, exists rules1 rulesHeader rules2,
        rulesOf <$> Favicon.main now (header1 :: lines1) = Some rules1
        /\ rulesOf <$> Favicon.main now [header1; header2] = Some rulesHeader
        /\ rulesOf <$> Favicon.main now (header2 :: lines2) = Some rules2
        /\ rulesOf <$> Favicon.main now ((header1 :: lines1) ++ (header2 :: lines2))
           = Some (rules1 ++ rulesHeader ++ rules2)
        /\ (length rules1 <= length lines1)%nat
        /\ (length rulesHeader <= 1)%nat).
Proof.
  split.
  - exists (omap modsecLineRule lines1), (omap modsecLineRule lines2).
    rewrite !ModSecurity_main_eq. simpl.
    rewrite !rulesOf_appendRules by discriminate. simpl.
    repeat split; [by rewrite omap_app | apply length_omap_le].
  - intros header1 header2.
    exists (omap faviconLineRule lines1), (omap faviconLineRule [header2]),
      (omap faviconLineRule lines2).
    rewrite !Favicon_main_eq. cbn [app tail fmap option_fmap option_map].
    rewrite !rulesOf_appendRules by discriminate. simpl.
    repeat split.
    + rewrite omap_app. cbn [omap list_omap].
      destruct (faviconLineRule header2); reflexivity.
    + apply length_omap_le.
    + apply (length_omap_le faviconLineRule [header2]).
Qed.

End ScannerFacts.

(** ** Favicon rows in general *)

Section FaviconRows.
Import CSV.

Lemma fields_quoted field : forall acc record rest,
  hasByte dquote field = false ->
  fields InQuoted acc record (field +:+ String dquote rest)
  = match rest with
    | EmptyString => Some (record ++ [acc +:+ field])
    | String d rest' =>
        if Ascii.eqb d dquote
        then fields InQuoted ((acc +:+ field) +:+ str1 dquote) record rest'
        else if Ascii.eqb d ","%char
             then fields FieldStart EmptyString (record ++ [acc +:+ field]) rest'
             else None
    end.
Proof.
  induction field as [|c field IH]; intros acc record rest Hq.
  - rewrite append_nil_l. cbn [fields]. rewrite Ascii.eqb_refl.
    assert (acc +:+ EmptyString = acc) as ->
      by (clear; induction acc as [|a acc IHa]; [reflexivity | by rewrite append_cons, IHa]).
    reflexivity.
  - cbn [hasByte] in Hq. apply orb_false_elim in Hq as [Hc Hq].
    rewrite append_cons. cbn [fields]. rewrite Ascii.eqb_sym in Hc. rewrite Hc.
    rewrite (IH _ _ _ Hq).
    assert ((acc +:+ str1 c) +:+ field = acc +:+ String c field) as ->
      by (by rewrite append_assoc).
    reflexivity.
Qed.

Lemma Trim_plain field : hasByte dquote field = false -> Trim field (str1 dquote) = field.
Proof.
  intros Hq. unfold Trim.
  assert (TrimLeft field (str1 dquote) = field) as ->.
  { destruct field as [|c field]; [reflexivity|]. cbn [hasByte] in Hq.
    apply orb_false_elim in Hq as [Hc _]. cbn [TrimLeft inCutset str1].
    rewrite Ascii.eqb_sym in Hc. by rewrite Hc. }
  induction field as [|c field IH]; [reflexivity|].
  cbn [hasByte] in Hq. apply orb_false_elim in Hq as [Hc Hq].
  cbn [TrimRight]. rewrite (IH Hq). cbn [inCutset str1].
  rewrite Ascii.eqb_sym in Hc. rewrite Hc. by destruct field.
Qed.

Lemma fields_quoted_comma field record rest :
  hasByte dquote field = false ->
  fields FieldStart EmptyString record
    (String dquote (field +:+ String dquote (String ","%char rest)))
  = fields FieldStart EmptyString (record ++ [field]) rest.
Proof.
  intros Hq. cbn [fields]. rewrite Ascii.eqb_refl.
  rewrite (fields_quoted field _ _ _ Hq). reflexivity.
Qed.

Lemma fields_quoted_end field record :
  hasByte dquote field = false ->
  fields FieldStart EmptyString record (String dquote (field +:+ str1 dquote))
  = Some (record ++ [field]).
Proof.
  intros Hq. cbn [fields]. rewrite Ascii.eqb_refl.
  unfold str1. rewrite (fields_quoted field _ _ _ Hq). reflexivity.
Qed.

Lemma quotedRow_eq id md5hash description :
  quotedRow id md5hash description
  = String dquote
      (id +:+ String dquote (String ","%char (String dquote
         (md5hash +:+ String dquote (String ","%char (String dquote
            (description +:+ str1 dquote))))))).
Proof. unfold quotedRow, quoted. rewrite !append_assoc. reflexivity. Qed.

Lemma dropFinalCR_keeps s c : c <> CR -> dropFinalCR (s +:+ str1 c) = s +:+ str1 c.
Proof.
  intros Hc. induction s as [|d s IH].
  - rewrite append_nil_l. unfold str1. cbn [dropFinalCR].
    by destruct (Ascii.eqb_spec c CR).
  - rewrite append_cons. cbn [dropFinalCR]. rewrite IH.
    destruct (s +:+ str1 c) eqn:E; [|reflexivity]. destruct s; discriminate.
Qed.

Lemma Read_quotedRow id md5hash description :
  hasByte dquote id = false -> hasByte dquote md5hash = false ->
  hasByte dquote description = false ->
  CSV.Read (quotedRow id md5hash description) = Some [id; md5hash; description].
Proof.
  intros H1 H2 H3. unfold CSV.Read.
  assert (dropFinalCR (quotedRow id md5hash description)
          = quotedRow id md5hash description) as ->.
  { unfold quotedRow, quoted. rewrite <- !append_assoc.
    apply dropFinalCR_keeps. discriminate. }
  rewrite quotedRow_eq.
  rewrite (fields_quoted_comma id _ _ H1), (fields_quoted_comma md5hash _ _ H2).
  by rewrite (fields_quoted_end description _ H3).
Qed.

Lemma append_nil_r s : s +:+ EmptyString = s.
Proof. induction s as [|c s IH]; [reflexivity | by rewrite append_cons, IH]. Qed.

Lemma fields_bare field : forall acc record,
  hasByte dquote field = false -> hasByte ","%char field = false ->
  (forall rest,
      fields InBare acc record (field +:+ String ","%char rest)
      = fields FieldStart EmptyString (record ++ [acc +:+ field]) rest)
  /\ fields InBare acc record field = Some (record ++ [acc +:+ field]).
Proof.
  induction field as [|c field IH]; intros acc record Hq Hc.
  - rewrite append_nil_r. split; [|reflexivity]. intros rest.
    rewrite append_nil_l. cbn [fields]. by rewrite Ascii.eqb_refl.
  - cbn [hasByte] in Hq, Hc. apply orb_false_elim in Hq as [Hq0 Hq].
    apply orb_false_elim in Hc as [Hc0 Hc].
    rewrite Ascii.eqb_sym in Hq0. rewrite Ascii.eqb_sym in Hc0.
    destruct (IH (acc +:+ str1 c) record Hq Hc) as (IH1 & IH2).
    assert ((acc +:+ str1 c) +:+ field = acc +:+ String c field) as E
      by (by rewrite append_assoc).
    split.
    + intros rest. rewrite append_cons. cbn [fields]. rewrite Hc0, Hq0.
      by rewrite IH1, E.
    + cbn [fields]. rewrite Hc0, Hq0. by rewrite IH2, E.
Qed.

Lemma fields_bare_start field record :
  hasByte dquote field = false -> hasByte ","%char field = false ->
  (forall rest,
      fields FieldStart EmptyString record (field +:+ String ","%char rest)
      = fields FieldStart EmptyString (record ++ [field]) rest)
  /\ fields FieldStart EmptyString record field = Some (record ++ [field]).
Proof.
  intros Hq Hc. destruct field as [|c field].
  - split; [|reflexivity]. intros rest. rewrite append_nil_l. cbn [fields].
    rewrite Ascii.eqb_refl.
    assert (Ascii.eqb ","%char dquote = false) as -> by reflexivity. reflexivity.
  - cbn [hasByte] in Hq, Hc. apply orb_false_elim in Hq as [Hq0 Hq].
    apply orb_false_elim in Hc as [Hc0 Hc].
    rewrite Ascii.eqb_sym in Hq0. rewrite Ascii.eqb_sym in Hc0.
    destruct (fields_bare field (str1 c) record Hq Hc) as (H1 & H2).
    split.
    + intros rest. rewrite append_cons. cbn [fields]. rewrite Hq0, Hc0. apply H1.
    + cbn [fields]. rewrite Hq0, Hc0. apply H2.
Qed.

Lemma hasByte_app c s t : hasByte c (s +:+ t) = hasByte c s || hasByte c t.
Proof.
  induction s as [|d s IH]; [reflexivity|].
  rewrite append_cons. cbn [hasByte]. by rewrite IH, orb_assoc.
Qed.

Lemma dropFinalCR_no_CR s : hasByte CR s = false -> dropFinalCR s = s.
Proof.
  induction s as [|c s IH]; [reflexivity|]. cbn [hasByte].
  intros H. apply orb_false_elim in H as [Hc Hs]. cbn [dropFinalCR].
  rewrite (IH Hs). destruct s; [|reflexivity].
  rewrite Ascii.eqb_sym in Hc. by rewrite Hc.
Qed.

Lemma Read_bareRow id md5hash description :
  bareField id -> bareField md5hash -> bareField description ->
  CSV.Read (bareRow id md5hash description) = Some [id; md5hash; description].
Proof.
  intros ((Hq1 & _) & Hc1 & Hr1) ((Hq2 & _) & Hc2 & Hr2) ((Hq3 & _) & Hc3 & Hr3).
  unfold CSV.Read. rewrite dropFinalCR_no_CR.
  2:{ unfold bareRow. rewrite !hasByte_app, Hr1, Hr2, Hr3. reflexivity. }
  unfold bareRow.
  change ("," +:+ ?r) with (String ","%char r).
  destruct (fields_bare_start id [] Hq1 Hc1) as (E1 & _).
  destruct (fields_bare_start md5hash [id] Hq2 Hc2) as (E2 & _).
  destruct (fields_bare_start description [id; md5hash] Hq3 Hc3) as (_ & E3).
  specialize (E1 (md5hash +:+ String ","%char description)).
  specialize (E2 description).
  assert (fields FieldStart EmptyString []
            (id +:+ String ","%char (md5hash +:+ String ","%char description))
          = Some [id; md5hash; description]) as E.
  { rewrite E1. cbn [app]. rewrite E2. cbn [app]. exact E3. }
  destruct id as [|c id']; exact E.
Qed.

Lemma HasPrefix_comment_app id rest :
  HasPrefix id "#" = false -> HasPrefix (id +:+ String ","%char rest) "#" = false.
Proof.
  destruct id as [|c id]; [reflexivity|]. unfold HasPrefix.
  rewrite append_cons. cbn [String.prefix].
  destruct (ascii_dec "#" c); [|reflexivity]. by destruct id.
Qed.

(** A well-formed row gives the rule of its three fields, as they stand
    between the separators: for three fields in double quotes that hold no
    double quote, and for three fields without quotes that hold no double
    quote, comma or carriage return, the first not starting with the
    comment sign. *)
Theorem favicon_rows id md5hash description ruleset :
  Ruleset.RuleGroups ruleset <> [] ->
  (plainField id -> plainField md5hash -> plainField description ->
   Favicon.scanLine ruleset (quotedRow id md5hash description)
   = Some (appendRules ruleset [Favicon.createFaviconRule id md5hash description]))
  /\ (bareField id -> bareField md5hash -> bareField description ->
      HasPrefix id "#" = false ->
      Favicon.scanLine ruleset (bareRow id md5hash description)
      = Some (appendRules ruleset [Favicon.createFaviconRule id md5hash description])).
Proof.
  intros Hne. split.
  - intros (H1 & _) (H2 & _) (H3 & _).
    rewrite (Favicon_scanLine_eq _ _ Hne). unfold faviconLineRule.
    rewrite (Read_quotedRow _ _ _ H1 H2 H3), !Trim_plain by assumption.
    rewrite quotedRow_eq. reflexivity.
  - intros B1 B2 B3 Hcomment.
    rewrite (Favicon_scanLine_eq _ _ Hne). unfold faviconLineRule.
    rewrite (Read_bareRow _ _ _ B1 B2 B3).
    destruct B1 as ((H1 & _) & _), B2 as ((H2 & _) & _), B3 as ((H3 & _) & _).
    rewrite !Trim_plain by assumption.
    unfold bareRow. change ("," +:+ ?r) with (String ","%char r).
    rewrite (HasPrefix_comment_app _ _ Hcomment).
    destruct id; reflexivity.
Qed.

Lemma favicon_rows_witness :
  Favicon.scanLine (Favicon.initialRuleset "2024-01-01T00:00:00Z")
    (quotedRow "7" "d41d8cd98f00b204e9800998ecf8427e" "Apache Tomcat, default")
  = Some (appendRules (Favicon.initialRuleset "2024-01-01T00:00:00Z")
            [Favicon.createFaviconRule "7" "d41d8cd98f00b204e9800998ecf8427e"
               "Apache Tomcat, default"])
  /\ Favicon.scanLine (Favicon.initialRuleset "2024-01-01T00:00:00Z")
       (bareRow "7" "d41d8cd98f00b204e9800998ecf8427e" "Apache Tomcat")
     = Some (appendRules (Favicon.initialRuleset "2024-01-01T00:00:00Z")
               [Favicon.createFaviconRule "7" "d41d8cd98f00b204e9800998ecf8427e"
                  "Apache Tomcat"]).
Proof.
  split.
  - apply (favicon_rows "7" "d41d8cd98f00b204e9800998ecf8427e" "Apache Tomcat, default");
      [discriminate | | |]; by split.
  - apply (favicon_rows "7" "d41d8cd98f00b204e9800998ecf8427e" "Apache Tomcat");
      [discriminate | | | |]; by repeat split.
Defined.

End FaviconRows.

(** ** File names and files *)

Section Files.

Lemma append_inj_l (p s t : string) : p +:+ s = p +:+ t -> s = t.
Proof.
  induction p as [|c p IH]; [by rewrite !append_nil_l|].
  rewrite !append_cons. intros [= H]. by apply IH.
Qed.

Lemma append_length (s t : string) :
  String.length (s +:+ t) = (String.length s + String.length t)%nat.
Proof. induction s as [|c s IH]; [reflexivity|]. rewrite append_cons. simpl. by rewrite IH. Qed.

Lemma append_inj_r (s t u : string) : s +:+ u = t +:+ u -> s = t.
Proof.
  revert t. induction s as [|c s IH]; intros [|d t] H.
  - reflexivity.
  - apply (f_equal String.length) in H. rewrite !append_length in H. simpl in H. lia.
  - apply (f_equal String.length) in H. rewrite !append_length in H. simpl in H. lia.
  - rewrite !append_cons in H. injection H as -> H. f_equal. by apply IH.
Qed.

Lemma detectFile_inj outPath c1 c2 : detectFile outPath c1 = detectFile outPath c2 -> c1 = c2.
Proof.
  unfold detectFile. intros H. apply append_inj_l, append_inj_l in H.
  by apply append_inj_r in H.
Qed.

Lemma hyphenate_idem c : hyphenate (hyphenate c) = hyphenate c.
Proof.
  unfold hyphenate.
  destruct (Ascii.eqb_spec c " "%char) as [->|H1]; [reflexivity|].
  destruct (Ascii.eqb_spec c "/"%char) as [->|H2]; [reflexivity|].
  destruct (Ascii.eqb_spec c backslash) as [->|H3]; [reflexivity|]. simpl.
  apply Ascii.eqb_neq in H1, H2, H3. by rewrite H1, H2, H3.
Qed.

(** The file of a bucket.  In the converters with a static table different
    buckets have different files.  In the category-aware converter the
    file of a bucket is the file of its sanitized name, and sanitizing
    twice changes nothing: two buckets whose names become equal once
    spaces, slashes and backslashes are hyphens share one file.  The
    directory is any one without a per cent sign. *)
Theorem bucket_files outPath :
  hasByte percent outPath = false ->
  (forall c1 c2 name,
      TechJSON.filename outPath c1 = Some name ->
      TechJSON.filename outPath c2 = Some name -> c1 = c2)
  /\ (forall c1 c2 name,
        BuiltWith.filename outPath c1 = Some name ->
        BuiltWith.filename outPath c2 = Some name -> c1 = c2)
  /\ (forall category,
        CatTechJSON.sanitize (CatTechJSON.sanitize category)
        = CatTechJSON.sanitize category
        /\ CatTechJSON.filename outPath (CatTechJSON.sanitize category)
           = CatTechJSON.filename outPath category)
  /\ (forall c1 c2,
        CatTechJSON.filename outPath c1 = CatTechJSON.filename outPath c2
        <-> CatTechJSON.sanitize c1 = CatTechJSON.sanitize c2).
Proof.
  intros Hp.
  assert (forall c1 c2 name,
            Sprintf (outPath +:+ "/detect-%s-ruleset.yaml") [c1] = Some name ->
            Sprintf (outPath +:+ "/detect-%s-ruleset.yaml") [c2] = Some name -> c1 = c2)
    as Hinj.
  { intros c1 c2 name. rewrite !(Sprintf_detect _ _ Hp). intros [= <-] [= H].
    symmetry. by apply (detectFile_inj outPath). }
  assert (forall category,
            CatTechJSON.sanitize (CatTechJSON.sanitize category)
            = CatTechJSON.sanitize category) as Hidem.
  { intros category. rewrite !sanitize_eq, mapBytes_compose.
    apply mapBytes_ext, hyphenate_idem. }
  split; [exact Hinj|]. split; [exact Hinj|]. split.
  - intros category. split; [apply Hidem|].
    unfold CatTechJSON.filename. cbv zeta. by rewrite Hidem.
  - intros c1 c2. unfold CatTechJSON.filename. cbv zeta. split.
    + intros H. rewrite !(Sprintf_detect _ _ Hp) in H. injection H as H.
      by apply (detectFile_inj outPath).
    + by intros ->.
Qed.

Lemma bucket_files_witness :
  CatTechJSON.filename "out" "Web servers" = CatTechJSON.filename "out" "Web-servers"
  /\ CatTechJSON.filename "out" "Web servers" = Some "out/detect-Web-servers-ruleset.yaml".
Proof.
  destruct (bucket_files "out" eq_refl) as (_ & _ & _ & Hsame).
  split; [by apply Hsame | reflexivity].
Defined.

(** The category names of the two static tables need no sanitizing: none
    holds a space, a slash or a backslash. *)
Theorem static_tables_are_file_safe :
  map_Forall (fun _ category => CatTechJSON.sanitize category = category)
    TechJSON.categoryMappings
  /\ map_Forall (fun _ category => CatTechJSON.sanitize category = category)
       BuiltWith.categoryMappings.
Proof. split; apply map_Forall_to_list; compute_done. Qed.

End Files.

(** ** The writing loop *)

Section EmitFacts.
Context {R : Type}.
Variable filename : string -> option string.
Variable create : string -> bool.
Variable encode : Ruleset.t R -> bool.

Local Abbreviation writeLoop := (Emit.writeLoop filename create encode).

Lemma writeLoop_app entries1 entries2 : forall files,
  writeLoop files (entries1 ++ entries2)
  = match writeLoop files entries1 with
    | Some (Emit.Done files1) => writeLoop files1 entries2
    | other => other
    end.
Proof.
  induction entries1 as [|[c rs] entries1 IH]; intros files; [reflexivity|].
  simpl. destruct (filename c) as [name|]; [|reflexivity]. simpl.
  destruct (create name); [|reflexivity]. destruct (encode rs); [|reflexivity].
  apply IH.
Qed.

Lemma writeLoop_Done entries : forall files,
  allWritable filename create encode entries ->
  exists files',
    writeLoop files entries = Some (Emit.Done files')
    /\ forall name,
         files' !! name
         = match lastWritten filename name entries with
           | Some ruleset => Some (Some ruleset)
           | None => files !! name
           end.
Proof.
  induction entries as [|[c rs] entries IH]; intros files Hall.
  - exists files. by split.
  - inversion Hall as [|? ? [(n & Hn & Hc) He] Hrest]; subst. simpl in *.
    rewrite Hn. simpl. rewrite Hc, He.
    destruct (IH (<[n := Some rs]> files) Hrest) as (files' & Hrun & Hfiles).
    exists files'. split; [exact Hrun|]. intros name. rewrite (Hfiles name).
    destruct (lastWritten filename name entries); [reflexivity|].
    destruct (decide (Some n = Some name)) as [[= ->]|Hne].
    + by rewrite lookup_insert_eq.
    + rewrite lookup_insert_ne by congruence. reflexivity.
Qed.

(** With names that tell the entries apart, the last ruleset written under
    the name of an entry is the one of that entry. *)
Lemma lastWritten_unique (entries : list (string * Ruleset.t R)) c rs name :
  NoDup entries.*1 ->
  (forall c1 c2 n, filename c1 = Some n -> filename c2 = Some n ->
                   c1 ∈ entries.*1 -> c2 ∈ entries.*1 -> c1 = c2) ->
  (c, rs) ∈ entries -> filename c = Some name ->
  lastWritten filename name entries = Some rs.
Proof.
  intros Hnd Hinj Hin Hname. induction entries as [|[c0 rs0] entries IH].
  - by apply elem_of_nil in Hin.
  - simpl in Hnd. apply NoDup_cons in Hnd as [Hc0 Hnd]. simpl.
    apply elem_of_cons in Hin as [[= -> ->]|Hin].
    + destruct (lastWritten filename name entries) as [rs'|] eqn:E.
      * exfalso. apply Hc0.
        assert (exists c', (c', rs') ∈ entries /\ filename c' = Some name)
          as (c' & Hin' & Hn').
        { clear -E. induction entries as [|[c1 r1] entries IHe]; [discriminate|].
          simpl in E. destruct (lastWritten filename name entries) eqn:E'.
          - injection E as ->. destruct (IHe eq_refl) as (c' & Hin' & Hn').
            exists c'. split; [by apply list_elem_of_further | exact Hn'].
          - destruct (decide _) as [Hd|]; [|discriminate]. injection E as ->.
            exists c1. split; [apply list_elem_of_here | exact Hd]. }
        assert (c' ∈ entries.*1) as Hc'
          by (apply list_elem_of_fmap; by exists (c', rs')).
        rewrite (Hinj c0 c' name Hname Hn'); [exact Hc'| apply list_elem_of_here |].
        by apply list_elem_of_further.
      * by rewrite decide_True.
    + rewrite IH; [reflexivity | exact Hnd | | exact Hin].
      intros c1 c2 n H1 H2 Hin1 Hin2.
      apply (Hinj c1 c2 n H1 H2); by apply list_elem_of_further.
Qed.

Lemma lastWritten_entry (entries : list (string * Ruleset.t R)) name rs :
  lastWritten filename name entries = Some rs ->
  exists c, (c, rs) ∈ entries /\ filename c = Some name.
Proof.
  induction entries as [|[c1 r1] entries IH]; [discriminate|]. simpl.
  destruct (lastWritten filename name entries) eqn:E.
  - intros [= ->]. destruct (IH eq_refl) as (c & Hin & Hn).
    exists c. split; [by apply list_elem_of_further | exact Hn].
  - destruct (decide _) as [Hd|]; [|discriminate]. intros [= ->].
    exists c1. split; [apply list_elem_of_here | exact Hd].
Qed.

Lemma lastWritten_Some (entries : list (string * Ruleset.t R)) c rs name :
  (c, rs) ∈ entries -> filename c = Some name ->
  is_Some (lastWritten filename name entries).
Proof.
  intros Hin Hname. induction entries as [|[c1 r1] entries IH].
  - by apply elem_of_nil in Hin.
  - simpl. apply elem_of_cons in Hin as [[= -> ->]|Hin].
    + destruct (lastWritten filename name entries); [eauto|].
      rewrite decide_True by assumption. eauto.
    + destruct (IH Hin) as [rs' ->]. eauto.
Qed.

End EmitFacts.

(** ** What a run leaves on disk *)

Section Disk.

Lemma entries_of_map {R} (rulesets : gmap string (Ruleset.t R)) entries :
  entries ≡ₚ map_to_list rulesets ->
  NoDup entries.*1 /\ forall c rs, (c, rs) ∈ entries <-> rulesets !! c = Some rs.
Proof.
  intros Hperm. split.
  - rewrite Hperm. apply NoDup_fst_map_to_list.
  - intros c rs. rewrite Hperm. apply elem_of_map_to_list.
Qed.

Lemma static_files {R} (filename : string -> string -> option string) outPath create
  (encode : Ruleset.t R -> bool) rulesets entries disk :
  (forall c, filename outPath c = Some (detectFile outPath c)) ->
  entries ≡ₚ map_to_list rulesets ->
  allWritable (filename outPath) create encode entries ->
  exists files,
    Emit.writeLoop (filename outPath) create encode disk entries = Some (Emit.Done files)
    /\ (forall c rs, rulesets !! c = Some rs ->
          files !! detectFile outPath c = Some (Some rs))
    /\ (forall name, (forall c, is_Some (rulesets !! c) -> name <> detectFile outPath c) ->
          files !! name = disk !! name).
Proof.
  intros Hname Hperm Hall.
  destruct (entries_of_map rulesets entries Hperm) as (Hnd & Hin).
  destruct (writeLoop_Done (filename outPath) create encode entries disk Hall)
    as (files & Hrun & Hfiles).
  exists files. split; [exact Hrun|]. split.
  - intros c rs Hc. rewrite Hfiles.
    rewrite (lastWritten_unique (filename outPath) entries c rs (detectFile outPath c));
      [reflexivity | exact Hnd | | by apply Hin | apply Hname].
    intros c1 c2 n H1 H2 _ _. rewrite Hname in H1, H2.
    apply (detectFile_inj outPath). congruence.
  - intros name Hother. rewrite Hfiles.
    destruct (lastWritten (filename outPath) name entries) as [rs|] eqn:E; [|reflexivity].
    apply lastWritten_entry in E as (c & Hc & Hn). exfalso.
    apply (Hother c); [by rewrite (proj1 (Hin c rs) Hc)|].
    rewrite Hname in Hn. congruence.
Qed.

(** The converters with a static table, for a directory without a per cent
    sign, when every file can be created and encoded: whatever the order in
    which Go visits the buckets, the loop ends normally, the file of each
    bucket holds the ruleset of that bucket, and no other file is touched. *)
Theorem static_run_writes_every_bucket outPath :
  hasByte percent outPath = false ->
  (forall create encode (rulesets : gmap string (Ruleset.t DetectionRule.t)) entries disk,
      entries ≡ₚ map_to_list rulesets ->
      allWritable (TechJSON.filename outPath) create encode entries ->
      exists files,
        Emit.writeLoop (TechJSON.filename outPath) create encode disk entries
        = Some (Emit.Done files)
        /\ (forall c rs, rulesets !! c = Some rs ->
              files !! detectFile outPath c = Some (Some rs))
        /\ (forall name,
              (forall c, is_Some (rulesets !! c) -> name <> detectFile outPath c) ->
              files !! name = disk !! name))
  /\ (forall create encode
             (rulesets : gmap string (Ruleset.t BuiltWith.DetectionRule.t)) entries disk,
        entries ≡ₚ map_to_list rulesets ->
        allWritable (BuiltWith.filename outPath) create encode entries ->
        exists files,
          Emit.writeLoop (BuiltWith.filename outPath) create encode disk entries
          = Some (Emit.Done files)
          /\ (forall c rs, rulesets !! c = Some rs ->
                files !! detectFile outPath c = Some (Some rs))
          /\ (forall name,
                (forall c, is_Some (rulesets !! c) -> name <> detectFile outPath c) ->
                files !! name = disk !! name)).
Proof.
  intros Hp. split; intros create encode rulesets entries disk.
  - apply (static_files TechJSON.filename). intros c. by apply Sprintf_detect.
  - apply (static_files BuiltWith.filename). intros c. by apply Sprintf_detect.
Qed.

Lemma static_run_writes_every_bucket_witness :
  exists files,
    Emit.writeLoop (TechJSON.filename "out") (fun _ => true) (fun _ => true) ∅
      (map_to_list twoBuckets) = Some (Emit.Done files)
    /\ files !! "out/detect-cms-ruleset.yaml" = Some (twoBuckets !! "cms").
Proof.
  destruct (static_run_writes_every_bucket "out" eq_refl) as (Htech & _).
  destruct (Htech (fun _ => true) (fun _ => true) twoBuckets (map_to_list twoBuckets) ∅)
    as (files & Hrun & Hfiles & _).
  { reflexivity. }
  { apply Forall_forall. intros [c rs] _. split; [|reflexivity].
    exists (detectFile "out" c). split; [by apply Sprintf_detect | reflexivity]. }
  exists files. split; [exact Hrun|].
  destruct (twoBuckets !! "cms") as [rs|] eqn:E; [|by vm_compute in E].
  apply (Hfiles "cms" rs E).
Defined.

(** The category-aware converter, under the same conditions: the loop ends
    normally and the file of each bucket exists, but it holds the ruleset of
    some bucket with the same sanitized name, the one visited last; it is
    the bucket's own ruleset when no other bucket has that sanitized name.
    So of two buckets whose names differ only where one has a space, slash
    or backslash and the other a hyphen, one ruleset is not on disk at the
    end. *)
Theorem category_aware_run_files outPath create encode
  (rulesets : gmap string (Ruleset.t DetectionRule.t)) entries disk :
  hasByte percent outPath = false ->
  entries ≡ₚ map_to_list rulesets ->
  allWritable (CatTechJSON.filename outPath) create encode entries ->
  exists files,
    Emit.writeLoop (CatTechJSON.filename outPath) create encode disk entries
    = Some (Emit.Done files)
    /\ (forall c rs, rulesets !! c = Some rs ->
          exists c' rs',
            rulesets !! c' = Some rs'
            /\ CatTechJSON.sanitize c' = CatTechJSON.sanitize c
            /\ files !! detectFile outPath (CatTechJSON.sanitize c) = Some (Some rs')
            /\ lastWritten (CatTechJSON.filename outPath)
                 (detectFile outPath (CatTechJSON.sanitize c)) entries = Some rs')
    /\ (forall c rs, rulesets !! c = Some rs ->
          (forall c', is_Some (rulesets !! c') ->
                      CatTechJSON.sanitize c' = CatTechJSON.sanitize c -> c' = c) ->
          files !! detectFile outPath (CatTechJSON.sanitize c) = Some (Some rs))
    /\ (forall name,
          (forall c, is_Some (rulesets !! c) ->
                     name <> detectFile outPath (CatTechJSON.sanitize c)) ->
          files !! name = disk !! name).
Proof.
  intros Hp Hperm Hall.
  assert (forall c, CatTechJSON.filename outPath c
                    = Some (detectFile outPath (CatTechJSON.sanitize c))) as Hname.
  { intros c. unfold CatTechJSON.filename. cbv zeta. by apply Sprintf_detect. }
  destruct (entries_of_map rulesets entries Hperm) as (Hnd & Hin).
  destruct (writeLoop_Done (CatTechJSON.filename outPath) create encode entries disk Hall)
    as (files & Hrun & Hfiles).
  assert (forall c rs, rulesets !! c = Some rs ->
            exists c' rs',
              rulesets !! c' = Some rs'
              /\ CatTechJSON.sanitize c' = CatTechJSON.sanitize c
              /\ files !! detectFile outPath (CatTechJSON.sanitize c) = Some (Some rs')
              /\ lastWritten (CatTechJSON.filename outPath)
                   (detectFile outPath (CatTechJSON.sanitize c)) entries = Some rs')
    as Hsome.
  { intros c rs Hc.
    destruct (lastWritten_Some (CatTechJSON.filename outPath) entries c rs _
                (proj2 (Hin c rs) Hc) (Hname c)) as [rs' Hlast].
    destruct (lastWritten_entry _ _ _ _ Hlast) as (c' & Hc' & Hn').
    exists c', rs'. split; [by apply Hin|]. split.
    - rewrite Hname in Hn'. injection Hn' as Hn'. by apply (detectFile_inj outPath).
    - split; [|exact Hlast]. by rewrite Hfiles, Hlast. }
  exists files. split; [exact Hrun|]. split; [exact Hsome|]. split.
  - intros c rs Hc Hunique.
    destruct (Hsome c rs Hc) as (c' & rs' & Hc' & Hsan & Hfile & _).
    rewrite Hfile. assert (c' = c) as -> by (apply Hunique; [by eexists | exact Hsan]).
    congruence.
  - intros name Hother. rewrite Hfiles.
    destruct (lastWritten _ name entries) as [rs|] eqn:E; [|reflexivity].
    apply lastWritten_entry in E as (c & Hc & Hn). exfalso.
    apply (Hother c); [by rewrite (proj1 (Hin c rs) Hc)|].
    rewrite Hname in Hn. congruence.
Qed.

Lemma category_aware_run_files_witness :
  exists files,
    Emit.writeLoop (CatTechJSON.filename "out") (fun _ => true) (fun _ => true) ∅
      (map_to_list collidingBuckets) = Some (Emit.Done files)
    /\ exists c' rs',
         collidingBuckets !! c' = Some rs'
         /\ files !! "out/detect-Web-servers-ruleset.yaml" = Some (Some rs').
Proof.
  destruct (category_aware_run_files "out" (fun _ => true) (fun _ => true)
              collidingBuckets (map_to_list collidingBuckets) ∅ eq_refl)
    as (files & Hrun & Hsome & _).
  { reflexivity. }
  { apply Forall_forall. intros [c rs] _. split; [|reflexivity].
    exists (detectFile "out" (CatTechJSON.sanitize c)).
    split; [|reflexivity]. unfold CatTechJSON.filename. cbv zeta.
    by apply Sprintf_detect. }
  exists files. split; [exact Hrun|].
  destruct (Hsome "Web servers"
              (CatTechJSON.newRuleset (fun _ => "2024-01-01T00:00:00Z") "Web servers"))
    as (c' & rs' & Hc' & _ & Hfile & _); [reflexivity|].
  exists c', rs'. split; [exact Hc' | exact Hfile].
Defined.

(** A failure ends the run where it happens, with no clean-up: when
    [os.Create] fails for a bucket, the files written for the buckets
    visited before it stay as they are and nothing is written for the
    buckets after it; when the encoder fails, the file of the bucket has
    moreover been created without its document. *)
Theorem failed_write_keeps_earlier_files {R} filename create encode disk before c
  (ruleset : Ruleset.t R) after files name :
  Emit.writeLoop filename create encode disk before = Some (Emit.Done files) ->
  filename c = Some name ->
  (create name = false ->
   Emit.writeLoop filename create encode disk (before ++ (c, ruleset) :: after)
   = Some (Emit.Fatal files))
  /\ (create name = true -> encode ruleset = false ->
      Emit.writeLoop filename create encode disk (before ++ (c, ruleset) :: after)
      = Some (Emit.Fatal (<[name := None]> files))).
Proof.
  intros Hbefore Hname. rewrite writeLoop_app, Hbefore. simpl. rewrite Hname. simpl.
  split.
  - by intros ->.
  - by intros -> ->.
Qed.

Lemma failed_write_keeps_earlier_files_witness :
  Emit.writeLoop (TechJSON.filename "out")
    (fun name => negb (String.eqb name "out/detect-cms-ruleset.yaml")) (fun _ => true) ∅
    [("seo", TechJSON.newRuleset (fun _ => "2024-01-01T00:00:00Z") "seo");
     ("cms", TechJSON.newRuleset (fun _ => "2024-01-01T00:00:00Z") "cms");
     ("dns", TechJSON.newRuleset (fun _ => "2024-01-01T00:00:00Z") "dns")]
  = Some (Emit.Fatal
            {["out/detect-seo-ruleset.yaml"
              := Some (TechJSON.newRuleset (fun _ => "2024-01-01T00:00:00Z") "seo")]}).
Proof.
  apply (failed_write_keeps_earlier_files (TechJSON.filename "out")
           (fun name => negb (String.eqb name "out/detect-cms-ruleset.yaml")) (fun _ => true)
           ∅ [("seo", TechJSON.newRuleset (fun _ => "2024-01-01T00:00:00Z") "seo")]
           "cms" _ _ _ "out/detect-cms-ruleset.yaml");
    reflexivity.
Defined.

End Disk.

(** ** The identifier expression; the shape of a favicon rule *)

Section MoreShapes.
Import ModSecurity.

Lemma digitsHere_max literal s run :
  digitsHere literal s = Some run ->
  exists rest, s = literal +:+ run +:+ rest
               /\ match rest with String c _ => isDigit c = false | EmptyString => True end.
Proof.
  unfold digitsHere. destruct (stripPrefix literal s) as [r|] eqn:Hs; [|discriminate].
  simpl. destruct (span isDigit r) as [run' rest] eqn:Hspan.
  destruct (String.eqb_spec run' EmptyString) as [->|Hne]; [discriminate|].
  intros [= <-]. destruct (span_spec _ _ _ _ Hspan) as (-> & _ & Hrest).
  apply stripPrefix_spec in Hs. eauto.
Qed.

Lemma digitsHere_complete literal d rest :
  isDigit d = true -> is_Some (digitsHere literal (literal +:+ String d rest)).
Proof.
  intros Hd. unfold digitsHere.
  assert (stripPrefix literal (literal +:+ String d rest) = Some (String d rest)) as ->
    by (by apply stripPrefix_spec).
  simpl. rewrite Hd. destruct (span isDigit rest) as [run rest']. simpl. eauto.
Qed.

(** A line has an identifier match exactly when it holds id: followed by a
    digit; the identifier is then a run of digits of the line that stands
    after an id: and is followed by no further digit. *)
Theorem idRe_matches line :
  (forall id,
      idRe line = Some id ->
      id <> EmptyString /\ allBytes isDigit id = true
      /\ exists pre post,
           line = pre +:+ "id:" +:+ id +:+ post
           /\ match post with String c _ => isDigit c = false | EmptyString => True end)
  /\ (forall pre d post,
        isDigit d = true -> line = pre +:+ "id:" +:+ String d post ->
        is_Some (idRe line)).
Proof.
  unfold idRe. split.
  - intros id Hid. apply findLeftmost_position in Hid as (pre & suffix & -> & Hhere).
    destruct (digitsHere_spec _ _ _ Hhere) as (Hne & Hall & _).
    destruct (digitsHere_max _ _ _ Hhere) as (rest & -> & Hrest).
    split; [assumption|]. split; [assumption|]. by exists pre, rest.
  - intros pre d post Hd ->. apply findLeftmost_app.
    by apply (digitsHere_complete "id:").
Qed.

Lemma idRe_matches_witness : is_Some (idRe badBotLine).
Proof.
  destruct (idRe_matches badBotLine) as (_ & Hsome).
  apply (Hsome ("SecRule " +:+ badBotFragment +:+ " " +:+ str1 dquote) "1"%char
           ("2345,phase:1,deny,status:403" +:+ str1 dquote)); reflexivity.
Defined.

Lemma TrimRight_first s q :
  firstByte s <> Some q -> firstByte (TrimRight s (str1 q)) <> Some q.
Proof.
  destruct s as [|c s]; [done|]. cbn [TrimRight firstByte]. intros Hc.
  destruct (TrimRight s (str1 q)); [|exact Hc].
  destruct (inCutset (str1 q) c); [done | exact Hc].
Qed.

Lemma TrimRight_last s q : lastByte (TrimRight s (str1 q)) <> Some q.
Proof.
  induction s as [|c s IH]; [done|]. cbn [TrimRight].
  destruct (TrimRight s (str1 q)) as [|d t] eqn:E.
  - cbn [inCutset str1]. destruct (Ascii.eqb_spec c q) as [->|Hne]; simpl; [done|].
    congruence.
  - exact IH.
Qed.

Lemma TrimLeft_first s q : firstByte (TrimLeft s (str1 q)) <> Some q.
Proof.
  induction s as [|c s IH]; [done|]. cbn [TrimLeft inCutset str1].
  destruct (Ascii.eqb_spec c q) as [->|Hne]; simpl; [exact IH | congruence].
Qed.

Lemma Trim_trimmed s : trimmed (Trim s (str1 dquote)).
Proof.
  unfold trimmed, Trim. split.
  - apply TrimRight_first, TrimLeft_first.
  - apply TrimRight_last.
Qed.

Lemma faviconLineRule_shape line rule :
  faviconLineRule line = Some rule -> faviconRuleShape rule.
Proof.
  unfold faviconLineRule. destruct (_ || _); [discriminate|].
  destruct (CSV.Read line) as [[|f0 [|f1 [|f2 [|f3 fs]]]]|]; try discriminate.
  intros [= <-]. exists (Trim f1 (str1 dquote)), (Trim f2 (str1 dquote)).
  split; [apply Trim_trimmed|]. split; [apply Trim_trimmed|].
  split; [reflexivity | intros _; reflexivity].
Qed.

(** Every rule of the ruleset a run of the favicon converter ends with has
    the one shape: its object name is the description, its only signature
    is a page-content signature with one hash and confidence 10, neither the
    hash nor the description starts or ends with a double quote, and when
    the description is ASCII the rule name is detect_ and the description
    in lower case with an underscore for each space. *)
Theorem Favicon_rules_shape now lines ruleset :
  Favicon.main now lines = Some ruleset ->
  rulesetForall faviconRuleShape ruleset.
Proof.
  rewrite Favicon_main_eq. intros [= <-].
  apply rulesetForall_appendRules; [repeat constructor|].
  apply Forall_omap_lineRule, faviconLineRule_shape.
Qed.

Lemma Favicon_rules_shape_witness :
  rulesetForall faviconRuleShape
    (appendRules (Favicon.initialRuleset "2024-01-01T00:00:00Z") [drupalRule]).
Proof.
  apply (Favicon_rules_shape "2024-01-01T00:00:00Z" ["header"; drupalRow]). reflexivity.
Defined.

End MoreShapes.
